(** * Hyperboloid navigation (SnapPy, dev/raytracing/hyperboloid_navigation.py)

    A shallow embedding of the [HyperboloidNavigation] mixin: the key-motion
    integrator ([do_movement], [tkKeyPress], [tkKeyRelease]) and the pointer
    gesture handlers ([tkButton1], [tkButtonMotion1], [tkCtrlButtonMotion1],
    [tkAltButton1], [tkAltButtonMotion1], [tkButtonRelease1]).

    - Python floats are idealised as the real numbers of the Standard Library
      ([time.time()] stamps, velocities, matrix entries); the integer pixel
      coordinates Tk delivers are [Z].
    - The two dicts of stamps are [gmap string R]; the held set is the list of
      its elements in iteration order.
    - A handler is a function from the state of the widget to an [outcome]:
      it returns, or raises with the attributes assigned so far.  The wall
      clock and the depth read-back are arguments of the handlers; the
      collaborator that owns the view state is a parameter.
    - [self.after] and [self.redraw_if_initialized] are recorded in the state:
      a queue of pending tick callbacks and a count of redraw requests.
    - [hyperboloid_utilities], which builds the matrices, is imported by the
      module and not part of it; its operators are modelled from the
      specification.
    - Over the reals cosh and sinh are total and the tangent has its exact
      zeros; the operators a handler builds are those of the reals.  The
      range of the double-precision functions is a hypothesis of the main
      statements on the tick and on the orbit press ([bounded_distance], a
      tangent that is not zero), and the state a tick leaves when a
      translation raises for a distance out of range is [tick_cut_short]. *)

From Stdlib Require Import Reals Lra Lia ZArith RNsatz.
From stdpp Require Import gmap strings list.

Local Open Scope R_scope.

(* ===================================================================== *)
(** * The Lorentz operator library *)
(* ===================================================================== *)

Module Lorentz.

(** A 4-vector of Minkowski space, time coordinate first. *)
Record vec4 : Type := V4 { t0 : R; x1 : R; x2 : R; x3 : R }.

(** A direction of the three spatial dimensions, as the lists
    [[-1.0, 0.0, 0.0]] and the [vector([...])] the handlers pass. *)
Record vec3 : Type := V3 { d1 : R; d2 : R; d3 : R }.

(** Modelled from the spec: the [matrix] class of [hyperboloid_utilities]
    for the 4x4 case, the only one the navigation code uses: four rows of
    four entries, "Composition = matrix multiplication". *)
Record matrix : Type := M4 { row0 : vec4; row1 : vec4; row2 : vec4; row3 : vec4 }.

Definition vscale (a : R) (v : vec4) : vec4 :=
  V4 (a * t0 v) (a * x1 v) (a * x2 v) (a * x3 v).

Definition vadd (u v : vec4) : vec4 :=
  V4 (t0 u + t0 v) (x1 u + x1 v) (x2 u + x2 v) (x3 u + x3 v).

Definition dot4 (u v : vec4) : R :=
  t0 u * t0 v + x1 u * x1 v + x2 u * x2 v + x3 u * x3 v.

(** The matrix literal that [do_movement] and [tkAltButton1] write out. *)
Definition identity : matrix :=
  M4 (V4 1 0 0 0) (V4 0 1 0 0) (V4 0 0 1 0) (V4 0 0 0 1).

(** Row [r] of the left factor times the right factor. *)
Definition row_mul (r : vec4) (B : matrix) : vec4 :=
  vadd (vadd (vscale (t0 r) (row0 B)) (vscale (x1 r) (row1 B)))
       (vadd (vscale (x2 r) (row2 B)) (vscale (x3 r) (row3 B))).

(** Modelled from the spec: the [*] of two matrices. *)
Definition mul (A B : matrix) : matrix :=
  M4 (row_mul (row0 A) B) (row_mul (row1 A) B)
     (row_mul (row2 A) B) (row_mul (row3 A) B).

(** The operator applied to a column vector. *)
Definition apply (A : matrix) (v : vec4) : vec4 :=
  V4 (dot4 (row0 A) v) (dot4 (row1 A) v) (dot4 (row2 A) v) (dot4 (row3 A) v).

(** The Minkowski quadratic form of signature (-,+,+,+). *)
Definition Q (v : vec4) : R :=
  - (t0 v * t0 v) + x1 v * x1 v + x2 v * x2 v + x3 v * x3 v.

Definition norm3 (v : vec3) : R :=
  sqrt (d1 v * d1 v + d2 v * d2 v + d3 v * d3 v).

(** Modelled from the spec: [vector.normalized()], "normalize to unit
    length". *)
Definition normalized (v : vec3) : vec3 :=
  V3 (d1 v / norm3 v) (d2 v / norm3 v) (d3 v / norm3 v).

Definition is_unit (n : vec3) : Prop :=
  d1 n * d1 n + d2 n * d2 n + d3 n * d3 n = 1.

(** Modelled from the spec: [O13_x_rotation], [O13_y_rotation] and
    [O13_z_rotation] of [hyperboloid_utilities]: "the 4x4 block-diagonal
    matrix rotating the two orthogonal spatial coordinates by angle radians
    and leaving the time coordinate and the third spatial coordinate
    fixed".  The spec leaves the direction of a positive angle open; the
    one fixed here puts [sin] above the diagonal for the x and z axes and
    below it for the y axis. *)
Definition O13_x_rotation (angle : R) : matrix :=
  let c := cos angle in let s := sin angle in
  M4 (V4 1 0 0 0) (V4 0 1 0 0) (V4 0 0 c s) (V4 0 0 (- s) c).

Definition O13_y_rotation (angle : R) : matrix :=
  let c := cos angle in let s := sin angle in
  M4 (V4 1 0 0 0) (V4 0 c 0 (- s)) (V4 0 0 1 0) (V4 0 s 0 c).

Definition O13_z_rotation (angle : R) : matrix :=
  let c := cos angle in let s := sin angle in
  M4 (V4 1 0 0 0) (V4 0 c s 0) (V4 0 (- s) c 0) (V4 0 0 0 1).

(** Modelled from the spec: [unit_3_vector_and_distance_to_O13_hyperbolic_translation]
    of [hyperboloid_utilities]: "the Lorentz boost along that direction by
    that (hyperbolic) distance, using the standard boost formula with
    cosh(distance), sinh(distance) terms; the input direction is assumed
    pre-normalized by the caller (no renormalization, no error if not
    unit)". *)
Definition unit_3_vector_and_distance_to_O13_hyperbolic_translation
           (v : vec3) (d : R) : matrix :=
  let c := cosh d in let s := sinh d in
  let n1 := d1 v in let n2 := d2 v in let n3 := d3 v in
  M4 (V4 c        (s * n1)                (s * n2)                (s * n3))
     (V4 (s * n1) (1 + (c - 1) * n1 * n1) ((c - 1) * n1 * n2)     ((c - 1) * n1 * n3))
     (V4 (s * n2) ((c - 1) * n2 * n1)     (1 + (c - 1) * n2 * n2) ((c - 1) * n2 * n3))
     (V4 (s * n3) ((c - 1) * n3 * n1)     ((c - 1) * n3 * n2)     (1 + (c - 1) * n3 * n3)).

(** Modelled from the spec: "cosh/sinh evaluated in standard double (or
    higher) precision; no special overflow handling - callers bound the
    distances used".  The translation above is over the real numbers, where
    cosh and sinh are total; in double precision they are finite up to a
    distance of a little more than 710, and [math.cosh] raises
    [OverflowError] beyond.  A distance the caller has bounded in this
    sense: *)
Definition bounded_distance (d : R) : Prop := Rabs d <= 710.

(** [math.atanh] on its domain (-1, 1); outside it Python raises
    [ValueError], which the handler that calls it models. *)
Definition atanh (x : R) : R := ln ((1 + x) / (1 - x)) / 2.

(** An operator is a Lorentz operator when it preserves [Q]. *)
Definition preserves_Q (A : matrix) : Prop :=
  forall v : vec4, Q (apply A v) = Q v.

End Lorentz.

Import Lorentz.

(* ===================================================================== *)
(** * The movement key bindings *)
(* ===================================================================== *)

(** [_key_movement_bindings]: twelve keys, each bound to a function of
    (rot_amount, trans_amount) that uses only the one it needs. *)
Definition _key_movement_bindings : gmap string (R -> R -> matrix) :=
  list_to_map
    [ ("a", fun rot_amount trans_amount =>
         unit_3_vector_and_distance_to_O13_hyperbolic_translation (V3 (-1) 0 0) trans_amount);
      ("d", fun rot_amount trans_amount =>
         unit_3_vector_and_distance_to_O13_hyperbolic_translation (V3 1 0 0) trans_amount);
      ("c", fun rot_amount trans_amount =>
         unit_3_vector_and_distance_to_O13_hyperbolic_translation (V3 0 (-1) 0) trans_amount);
      ("e", fun rot_amount trans_amount =>
         unit_3_vector_and_distance_to_O13_hyperbolic_translation (V3 0 1 0) trans_amount);
      ("w", fun rot_amount trans_amount =>
         unit_3_vector_and_distance_to_O13_hyperbolic_translation (V3 0 0 (-1)) trans_amount);
      ("s", fun rot_amount trans_amount =>
         unit_3_vector_and_distance_to_O13_hyperbolic_translation (V3 0 0 1) trans_amount);
      ("Left", fun rot_amount trans_amount => O13_y_rotation (- rot_amount));
      ("Right", fun rot_amount trans_amount => O13_y_rotation rot_amount);
      ("Up", fun rot_amount trans_amount => O13_x_rotation (- rot_amount));
      ("Down", fun rot_amount trans_amount => O13_x_rotation rot_amount);
      ("x", fun rot_amount trans_amount => O13_z_rotation (- rot_amount));
      ("z", fun rot_amount trans_amount => O13_z_rotation rot_amount) ]%string.

(* ===================================================================== *)
(** * Exceptions *)
(* ===================================================================== *)

(** The Python exceptions a handler can end with. *)
Inductive exn : Type :=
| KeyError | AttributeError | ZeroDivisionError | ValueError | TypeError.

(** A handler either returns or raises; either way the attributes it has
    assigned so far stay assigned, so both carry the state. *)
Inductive outcome (A : Type) : Type :=
| Returned (a : A)
| Raised (e : exn) (a : A).

Arguments Returned {A} a.
Arguments Raised {A} e a.

Definition state_of {A : Type} (o : outcome A) : A :=
  match o with Returned a => a | Raised _ a => a end.

Definition has_returned {A : Type} (o : outcome A) : bool :=
  match o with Returned _ => true | Raised _ _ => false end.

(* ===================================================================== *)
(** * The navigation state and its handlers *)
(* ===================================================================== *)

Section Navigation.

(** The view state is opaque; the rendering collaborator
    ([self.raytracing_data]) owns it. *)
Context {ViewState : Type}.

(** [raytracing_data.initial_view_state()]. *)
Variable initial_view_state : ViewState.

(** [raytracing_data.update_view_state(state, m)]; the operator is [None]
    in the one-argument call of [fix_view_state]. *)
Variable update_view_state : ViewState -> option matrix -> ViewState.

Record Nav : Type := mkNav {
  refresh_delay : Z;  (* [self.refresh_delay], milliseconds *)
  mouse_pos_when_pressed : option (Z * Z);  (* anchor of the free and in-place gestures; [None] is Python's [None] *)
  view_state_when_pressed : option ViewState;
  last_mouse_pos : option (Z * Z);
  current_keys_pressed : list string;  (* the held set, in the order Python iterates it *)
  time_key_release_received : gmap string R;
  last_time : gmap string R;
  view_state : option ViewState;
  translationVelocity : R;  (* [self.navigation_dict['translationVelocity'][1]] *)
  rotationVelocity : R;  (* [self.navigation_dict['rotationVelocity'][1]] *)
  orbit_translation : option matrix;  (* attributes [tkAltButton1] creates; [None] while the attribute does not exist *)
  orbit_inv_translation : option matrix;
  orbit_rotation : option matrix;
  view : Z;  (* [self.view] of the host widget *)
  fov : R;  (* [self.ui_uniform_dict['fov'][1]] of the host widget, degrees *)
  after_queue : list Z;  (* delays of the [self.after(delay, self.do_movement)] calls not yet fired *)
  redraws : nat;  (* number of [self.redraw_if_initialized()] requests *)
  printed : list (option ViewState)  (* what [print(self.view_state)] wrote, oldest first *)
}.

(** Attribute assignment [self.f = x], one setter per attribute the
    handlers assign. *)
Definition set_mouse_pos_when_pressed (x : option (Z * Z)) (st : Nav) : Nav :=
  mkNav (refresh_delay st) x (view_state_when_pressed st) (last_mouse_pos st)
    (current_keys_pressed st) (time_key_release_received st) (last_time st)
    (view_state st) (translationVelocity st) (rotationVelocity st)
    (orbit_translation st) (orbit_inv_translation st) (orbit_rotation st)
    (view st) (fov st) (after_queue st) (redraws st) (printed st).
Definition set_view_state_when_pressed (x : option ViewState) (st : Nav) : Nav :=
  mkNav (refresh_delay st) (mouse_pos_when_pressed st) x (last_mouse_pos st)
    (current_keys_pressed st) (time_key_release_received st) (last_time st)
    (view_state st) (translationVelocity st) (rotationVelocity st)
    (orbit_translation st) (orbit_inv_translation st) (orbit_rotation st)
    (view st) (fov st) (after_queue st) (redraws st) (printed st).
Definition set_last_mouse_pos (x : option (Z * Z)) (st : Nav) : Nav :=
  mkNav (refresh_delay st) (mouse_pos_when_pressed st)
    (view_state_when_pressed st) x (current_keys_pressed st)
    (time_key_release_received st) (last_time st) (view_state st)
    (translationVelocity st) (rotationVelocity st) (orbit_translation st)
    (orbit_inv_translation st) (orbit_rotation st) (view st) (fov st)
    (after_queue st) (redraws st) (printed st).
Definition set_current_keys_pressed (x : list string) (st : Nav) : Nav :=
  mkNav (refresh_delay st) (mouse_pos_when_pressed st)
    (view_state_when_pressed st) (last_mouse_pos st) x
    (time_key_release_received st) (last_time st) (view_state st)
    (translationVelocity st) (rotationVelocity st) (orbit_translation st)
    (orbit_inv_translation st) (orbit_rotation st) (view st) (fov st)
    (after_queue st) (redraws st) (printed st).
Definition set_time_key_release_received (x : gmap string R) (st : Nav) : Nav :=
  mkNav (refresh_delay st) (mouse_pos_when_pressed st)
    (view_state_when_pressed st) (last_mouse_pos st)
    (current_keys_pressed st) x (last_time st) (view_state st)
    (translationVelocity st) (rotationVelocity st) (orbit_translation st)
    (orbit_inv_translation st) (orbit_rotation st) (view st) (fov st)
    (after_queue st) (redraws st) (printed st).
Definition set_last_time (x : gmap string R) (st : Nav) : Nav :=
  mkNav (refresh_delay st) (mouse_pos_when_pressed st)
    (view_state_when_pressed st) (last_mouse_pos st)
    (current_keys_pressed st) (time_key_release_received st) x
    (view_state st) (translationVelocity st) (rotationVelocity st)
    (orbit_translation st) (orbit_inv_translation st) (orbit_rotation st)
    (view st) (fov st) (after_queue st) (redraws st) (printed st).
Definition set_view_state (x : option ViewState) (st : Nav) : Nav :=
  mkNav (refresh_delay st) (mouse_pos_when_pressed st)
    (view_state_when_pressed st) (last_mouse_pos st)
    (current_keys_pressed st) (time_key_release_received st) (last_time st) x
    (translationVelocity st) (rotationVelocity st) (orbit_translation st)
    (orbit_inv_translation st) (orbit_rotation st) (view st) (fov st)
    (after_queue st) (redraws st) (printed st).
Definition set_orbit_translation (x : option matrix) (st : Nav) : Nav :=
  mkNav (refresh_delay st) (mouse_pos_when_pressed st)
    (view_state_when_pressed st) (last_mouse_pos st)
    (current_keys_pressed st) (time_key_release_received st) (last_time st)
    (view_state st) (translationVelocity st) (rotationVelocity st) x
    (orbit_inv_translation st) (orbit_rotation st) (view st) (fov st)
    (after_queue st) (redraws st) (printed st).
Definition set_orbit_inv_translation (x : option matrix) (st : Nav) : Nav :=
  mkNav (refresh_delay st) (mouse_pos_when_pressed st)
    (view_state_when_pressed st) (last_mouse_pos st)
    (current_keys_pressed st) (time_key_release_received st) (last_time st)
    (view_state st) (translationVelocity st) (rotationVelocity st)
    (orbit_translation st) x (orbit_rotation st) (view st) (fov st)
    (after_queue st) (redraws st) (printed st).
Definition set_orbit_rotation (x : option matrix) (st : Nav) : Nav :=
  mkNav (refresh_delay st) (mouse_pos_when_pressed st)
    (view_state_when_pressed st) (last_mouse_pos st)
    (current_keys_pressed st) (time_key_release_received st) (last_time st)
    (view_state st) (translationVelocity st) (rotationVelocity st)
    (orbit_translation st) (orbit_inv_translation st) x (view st) (fov st)
    (after_queue st) (redraws st) (printed st).
Definition set_view (x : Z) (st : Nav) : Nav :=
  mkNav (refresh_delay st) (mouse_pos_when_pressed st)
    (view_state_when_pressed st) (last_mouse_pos st)
    (current_keys_pressed st) (time_key_release_received st) (last_time st)
    (view_state st) (translationVelocity st) (rotationVelocity st)
    (orbit_translation st) (orbit_inv_translation st) (orbit_rotation st) x
    (fov st) (after_queue st) (redraws st) (printed st).
Definition set_after_queue (x : list Z) (st : Nav) : Nav :=
  mkNav (refresh_delay st) (mouse_pos_when_pressed st)
    (view_state_when_pressed st) (last_mouse_pos st)
    (current_keys_pressed st) (time_key_release_received st) (last_time st)
    (view_state st) (translationVelocity st) (rotationVelocity st)
    (orbit_translation st) (orbit_inv_translation st) (orbit_rotation st)
    (view st) (fov st) x (redraws st) (printed st).
Definition set_redraws (x : nat) (st : Nav) : Nav :=
  mkNav (refresh_delay st) (mouse_pos_when_pressed st)
    (view_state_when_pressed st) (last_mouse_pos st)
    (current_keys_pressed st) (time_key_release_received st) (last_time st)
    (view_state st) (translationVelocity st) (rotationVelocity st)
    (orbit_translation st) (orbit_inv_translation st) (orbit_rotation st)
    (view st) (fov st) (after_queue st) x (printed st).
Definition set_printed (x : list (option ViewState)) (st : Nav) : Nav :=
  mkNav (refresh_delay st) (mouse_pos_when_pressed st)
    (view_state_when_pressed st) (last_mouse_pos st)
    (current_keys_pressed st) (time_key_release_received st) (last_time st)
    (view_state st) (translationVelocity st) (rotationVelocity st)
    (orbit_translation st) (orbit_inv_translation st) (orbit_rotation st)
    (view st) (fov st) (after_queue st) (redraws st) x.

(** [self.redraw_if_initialized()]. *)
Definition redraw_if_initialized (st : Nav) : Nav :=
  set_redraws (S (redraws st)) st.

(** [self.after(delay, self.do_movement)]. *)
Definition after (delay : Z) (st : Nav) : Nav :=
  set_after_queue (after_queue st ++ [delay]) st.

(** [__init__]; [view] and [fov] are the host widget's. *)
Definition init (view0 : Z) (fov0 : R) : Nav :=
  mkNav 10 None None None [] ∅ ∅ (Some initial_view_state) 0.4 0.4
        None None None view0 fov0 [] 0%nat [].

Definition reset_view_state (st : Nav) : Nav :=
  set_view_state (Some initial_view_state) st.

(** The collaborator is handed a view state; handing it [None] is a
    [TypeError]. *)
Definition fix_view_state (st : Nav) : outcome Nav :=
  match view_state st with
  | None => Raised TypeError st
  | Some vs => Returned (set_view_state (Some (update_view_state vs None)) st)
  end.

(** [self.focus_set()] leaves the navigation state alone. *)
Definition tkEnter (st : Nav) : outcome Nav := Returned st.

(** [set.remove(k)] on the held set. *)
Definition set_remove (k : string) (held : list string) : list string :=
  filter (fun x => x <> k) held.

(** Lines 86-89 of [do_movement]: the loop over the release records. *)
Definition evict_released (current_time : R) (released : gmap string R)
           (held : list string) : list string :=
  map_fold (fun k t held =>
              if Rgt_dec (current_time - t) 0.005
              then if decide (k ∈ held) then set_remove k held else held
              else held)
           held released.

(** Lines 98-106 of [do_movement]: the loop over the held keys, with the
    accumulator [m] and the flag [a].  The call of a binding is total here,
    the operators being over the reals.  In double precision a translation
    binding raises once its distance leaves the range of cosh and sinh
    ([bounded_distance]), after line 101 has set the stamp of the key; that
    path is [tick_cut_short] below. *)
Fixpoint movement_loop (keys : list string) (current_time : R) (st : Nav)
         (m : matrix) (a : bool) : outcome (Nav * matrix * bool) :=
  match keys with
  | [] => Returned (st, m, a)
  | k :: keys' =>
      match _key_movement_bindings !! k with
      | None => movement_loop keys' current_time st m a
      | Some binding =>
          match last_time st !! k with
          | None => Raised KeyError (st, m, a)
          | Some t =>
              let diff_time := current_time - t in
              let st' := set_last_time (<[k := current_time]> (last_time st)) st in
              movement_loop keys' current_time st'
                (mul m (binding (diff_time * rotationVelocity st)
                                (diff_time * translationVelocity st)))
                true
          end
      end
  end.

(** [do_movement], with [current_time] the value of [time.time()]. *)
Definition do_movement (current_time : R) (st : Nav) : outcome Nav :=
  let st1 :=
    set_current_keys_pressed
      (evict_released current_time (time_key_release_received st)
                      (current_keys_pressed st)) st in
  match movement_loop (current_keys_pressed st1) current_time st1 identity false with
  | Raised e (st2, _, _) => Raised e st2
  | Returned (st2, m, a) =>
      if negb a then Returned st2
      else
        match view_state st2 with
        | None => Raised TypeError st2
        | Some vs =>
            Returned
              (after (refresh_delay st2)
                 (redraw_if_initialized
                    (set_view_state (Some (update_view_state vs (Some m))) st2)))
        end
  end.

(** [tkKeyRelease], with [now] the value of [time.time()]. *)
Definition tkKeyRelease (keysym : string) (now : R) (st : Nav) : outcome Nav :=
  Returned (set_time_key_release_received
              (<[keysym := now]> (time_key_release_received st)) st).

(** Lines 122-129 of [tkKeyPress].  [set.add] puts the new key last in the
    iteration order; CPython orders a set of strings by hash, so where a new
    key goes is an assumption of the model, and the statements about the
    product of a tick are relative to the order of the list. *)
Definition key_press_movement (keysym : string) (now : R) (st : Nav) : Nav :=
  match _key_movement_bindings !! keysym with
  | None => st
  | Some _ =>
      let st1 :=
        match time_key_release_received st !! keysym with
        | Some _ => set_time_key_release_received
                      (delete keysym (time_key_release_received st)) st
        | None => st
        end in
      if decide (keysym ∈ current_keys_pressed st1) then st1
      else
        after 1
          (set_current_keys_pressed (current_keys_pressed st1 ++ [keysym])
             (set_last_time (<[keysym := now]> (last_time st1)) st1))
  end.

(** [tkKeyPress], with [now] the value of [time.time()]. *)
Definition tkKeyPress (keysym : string) (now : R) (st : Nav) : outcome Nav :=
  let st1 := key_press_movement keysym now st in
  let st2 :=
    if decide (keysym = "u"%string)
    then set_printed (printed st1 ++ [view_state st1]) st1
    else st1 in
  let st3 :=
    if decide (keysym = "v"%string)
    then redraw_if_initialized (set_view ((view st2 + 1) mod 3)%Z st2)
    else st2 in
  Returned st3.

(** [tkButton1], bound to <Button-1> and <Control-Button-1>. *)
Definition tkButton1 (x y : Z) (st : Nav) : outcome Nav :=
  Returned (set_view_state_when_pressed (view_state st)
              (set_mouse_pos_when_pressed (Some (x, y)) st)).

(** Lines 150-160 of [tkAltButton1]: the direction picked at pixel (x, y)
    of a viewport of the given size, [t] being [math.tan(fov / 360.0 * math.pi)]. *)
Definition pick_direction (x y width height : Z) (t : R) : vec3 :=
  let frag_coord0 := (IZR x - 0.5 * IZR width) / IZR width in
  let frag_coord1 := (IZR (height - y) - 0.5 * IZR height) / IZR width in
  normalized (V3 frag_coord0 frag_coord1 (- 0.5 / t)).

(** [tkAltButton1]; (depth, width, height) is what
    [self.read_depth_value(event.x, event.y)] returned.  Dividing by a zero
    width or a zero tangent is a [ZeroDivisionError], [math.atanh] outside
    (-1, 1) a [ValueError]; the two attributes assigned before stay assigned.
    [math.tan] is the tangent of the reals, so the test for a zero tangent
    is exact here; at a field of view of 180 or 360 degrees, where the
    tangent of the reals is undefined or zero, [math.tan] returns a rounding
    residue that is not zero, and what the press does there is outside the
    model: the statements about a press that returns are made for a tangent
    that is not zero. *)
Definition tkAltButton1 (x y : Z) (depth : R) (width height : Z) (st : Nav)
  : outcome Nav :=
  let st1 := set_view_state_when_pressed (view_state st)
               (set_last_mouse_pos (Some (x, y)) st) in
  if decide (width = 0%Z) then Raised ZeroDivisionError st1
  else
    let t := tan (fov st1 / 360 * PI) in
    if Req_dec_T t 0 then Raised ZeroDivisionError st1
    else
      let dir := pick_direction x y width height t in
      if Rlt_dec (Rabs depth) 1 then
        Returned
          (set_orbit_rotation (Some identity)
             (set_orbit_inv_translation
                (Some (unit_3_vector_and_distance_to_O13_hyperbolic_translation
                         dir (atanh (- depth))))
                (set_orbit_translation
                   (Some (unit_3_vector_and_distance_to_O13_hyperbolic_translation
                            dir (atanh depth)))
                   st1)))
      else Raised ValueError st1.

(** Line 180: the rotation of one orbit drag sample. *)
Definition orbit_sample_rotation (delta_x delta_y : Z) : matrix :=
  mul (O13_y_rotation (IZR delta_x * 0.01)) (O13_x_rotation (IZR delta_y * 0.01)).

(** [tkAltButtonMotion1]. *)
Definition tkAltButtonMotion1 (x y : Z) (st : Nav) : outcome Nav :=
  match last_mouse_pos st with
  | None => Returned st
  | Some (last_x, last_y) =>
      let delta_x := (x - last_x)%Z in
      let delta_y := (y - last_y)%Z in
      let m := orbit_sample_rotation delta_x delta_y in
      match orbit_rotation st with
      | None => Raised AttributeError st
      | Some rotation =>
          let st1 := set_orbit_rotation (Some (mul rotation m)) st in
          match orbit_translation st1, orbit_inv_translation st1 with
          | Some translation, Some inv_translation =>
              match view_state_when_pressed st1 with
              | None => Raised TypeError st1
              | Some pressed =>
                  Returned
                    (redraw_if_initialized
                       (set_last_mouse_pos (Some (x, y))
                          (set_view_state
                             (Some (update_view_state pressed
                                      (Some (mul (mul translation (mul rotation m))
                                                 inv_translation))))
                             st1)))
              end
          | _, _ => Raised AttributeError st1
          end
      end
  end.

(** Line 198: [math.sqrt(delta_x ** 2 + delta_y ** 2)]. *)
Definition drag_amount (delta_x delta_y : Z) : R :=
  sqrt (IZR (delta_x ^ 2 + delta_y ^ 2)).

(** Lines 203-204: the operator of a free drag of non-zero length. *)
Definition free_drag_operator (delta_x delta_y : Z) : matrix :=
  let amt := drag_amount delta_x delta_y in
  unit_3_vector_and_distance_to_O13_hyperbolic_translation
    (V3 (IZR (- delta_x) / amt) (IZR delta_y / amt) 0) (amt * 0.01).

(** [tkButtonMotion1]. *)
Definition tkButtonMotion1 (x y : Z) (st : Nav) : outcome Nav :=
  match mouse_pos_when_pressed st with
  | None => Returned st
  | Some (pressed_x, pressed_y) =>
      let delta_x := (x - pressed_x)%Z in
      let delta_y := (y - pressed_y)%Z in
      let amt := drag_amount delta_x delta_y in
      if Req_dec_T amt 0 then
        Returned (redraw_if_initialized
                    (set_view_state (view_state_when_pressed st) st))
      else
        match view_state_when_pressed st with
        | None => Raised TypeError st
        | Some pressed =>
            Returned
              (redraw_if_initialized
                 (set_view_state
                    (Some (update_view_state pressed
                             (Some (free_drag_operator delta_x delta_y))))
                    st))
        end
  end.

(** [tkButtonRelease1], bound to <ButtonRelease-1> and
    <Control-ButtonRelease-1>; no other release handler is bound. *)
Definition tkButtonRelease1 (st : Nav) : outcome Nav :=
  Returned (set_mouse_pos_when_pressed None st).

(** Line 221: the rotation of one in-place drag sample. *)
Definition ctrl_sample_rotation (delta_x delta_y : Z) : matrix :=
  mul (O13_y_rotation (IZR (- delta_x) * 0.01))
      (O13_x_rotation (IZR (- delta_y) * 0.01)).

(** [tkCtrlButtonMotion1]. *)
Definition tkCtrlButtonMotion1 (x y : Z) (st : Nav) : outcome Nav :=
  match mouse_pos_when_pressed st with
  | None => Returned st
  | Some (pressed_x, pressed_y) =>
      let delta_x := (x - pressed_x)%Z in
      let delta_y := (y - pressed_y)%Z in
      match view_state st with
      | None => Raised TypeError st
      | Some vs =>
          Returned
            (redraw_if_initialized
               (set_mouse_pos_when_pressed (Some (x, y))
                  (set_view_state
                     (Some (update_view_state vs
                              (Some (ctrl_sample_rotation delta_x delta_y))))
                     st)))
      end
  end.

(** ** The event loop *)

(** What Tk delivers to the widget, with the clock reading or the depth
    read-back the handler obtains while it runs. *)
Inductive event : Type :=
| Enter
| KeyPress (keysym : string) (now : R)
| KeyRelease (keysym : string) (now : R)
| Timer (now : R)
| Button1 (x y : Z)
| ButtonRelease1
| B1Motion (x y : Z)
| CtrlB1Motion (x y : Z)
| AltButton1 (x y : Z) (depth : R) (width height : Z)
| AltB1Motion (x y : Z).

(** A pending [after] callback fires: it leaves the queue and
    [do_movement] runs.  With nothing pending nothing fires. *)
Definition fire_timer (now : R) (st : Nav) : outcome Nav :=
  match after_queue st with
  | [] => Returned st
  | _ :: pending => do_movement now (set_after_queue pending st)
  end.

Definition handle (ev : event) (st : Nav) : outcome Nav :=
  match ev with
  | Enter => tkEnter st
  | KeyPress keysym now => tkKeyPress keysym now st
  | KeyRelease keysym now => tkKeyRelease keysym now st
  | Timer now => fire_timer now st
  | Button1 x y => tkButton1 x y st
  | ButtonRelease1 => tkButtonRelease1 st
  | B1Motion x y => tkButtonMotion1 x y st
  | CtrlB1Motion x y => tkCtrlButtonMotion1 x y st
  | AltButton1 x y depth width height => tkAltButton1 x y depth width height st
  | AltB1Motion x y => tkAltButtonMotion1 x y st
  end.

(** Tk reports an exception of a callback and goes on with the next event. *)
Definition run (evs : list event) (st : Nav) : Nav :=
  fold_left (fun st ev => state_of (handle ev st)) evs st.

End Navigation.

Arguments Nav : clear implicits.

(* ===================================================================== *)
(** * Notions the statements use *)
(* ===================================================================== *)

(** The operators the navigation code builds: what a key binding returns,
    the operator of a free drag of non-zero length, the translation along a
    picked direction (the handler has checked that the width and the tangent
    are not zero), the three axis rotations, the identity literal, and the
    products of these. *)
Inductive nav_operator : matrix -> Prop :=
| nav_key k binding rot_amount trans_amount :
    _key_movement_bindings !! k = Some binding ->
    nav_operator (binding rot_amount trans_amount)
| nav_free_drag delta_x delta_y :
    drag_amount delta_x delta_y <> 0 ->
    nav_operator (free_drag_operator delta_x delta_y)
| nav_orbit_translation x y width height t distance :
    width <> 0%Z -> t <> 0 ->
    nav_operator (unit_3_vector_and_distance_to_O13_hyperbolic_translation
                    (pick_direction x y width height t) distance)
| nav_x_rotation angle : nav_operator (O13_x_rotation angle)
| nav_y_rotation angle : nav_operator (O13_y_rotation angle)
| nav_z_rotation angle : nav_operator (O13_z_rotation angle)
| nav_identity : nav_operator identity
| nav_mul A B : nav_operator A -> nav_operator B -> nav_operator (mul A B).

(** Whether the release record of [k], if any, is older than the debounce
    window at [current_time]. *)
Definition release_expired (current_time : R) (released : gmap string R)
           (k : string) : bool :=
  match released !! k with
  | Some t => if Rgt_dec (current_time - t) 0.005 then true else false
  | None => false
  end.

(** The operator of one held key at a tick: its binding at the time elapsed
    since the key's own stamp, scaled by the two velocities. *)
Definition key_operator {ViewState : Type} (st : Nav ViewState)
           (current_time : R) (k : string) : option matrix :=
  match _key_movement_bindings !! k, last_time st !! k with
  | Some binding, Some t =>
      Some (binding ((current_time - t) * rotationVelocity st)
                    ((current_time - t) * translationVelocity st))
  | _, _ => None
  end.

(** The key operators multiplied onto [m], each new one on the right. *)
Definition accumulate_right {ViewState : Type} (st : Nav ViewState)
           (current_time : R) (m : matrix) (keys : list string) : matrix :=
  fold_left (fun acc k =>
               match key_operator st current_time k with
               | Some op => mul acc op
               | None => acc
               end) keys m.

Definition right_product {ViewState : Type} (st : Nav ViewState)
           (current_time : R) (keys : list string) : matrix :=
  accumulate_right st current_time identity keys.

(** The stamps after a tick at [current_time] over [keys]: every bound key
    among them is stamped with [current_time]. *)
Definition stamp_keys (current_time : R) (keys : list string)
           (stamps : gmap string R) : gmap string R :=
  fold_left (fun stamps k =>
               match _key_movement_bindings !! k with
               | Some _ => <[k := current_time]> stamps
               | None => stamps
               end) keys stamps.

(** The held keys that survive the eviction of a tick at [current_time]. *)
Definition still_held {ViewState : Type} (current_time : R)
           (st : Nav ViewState) : list string :=
  filter (fun k => release_expired current_time (time_key_release_received st) k = false)
         (current_keys_pressed st).

(** [k in _key_movement_bindings]. *)
Definition is_movement_key (k : string) : bool :=
  match _key_movement_bindings !! k with
  | Some _ => true
  | None => false
  end.

(** What the key handlers maintain: the held set has no duplicates, and
    every held key is bound and has a stamp. *)
Definition keys_inv {ViewState : Type} (st : Nav ViewState) : Prop :=
  NoDup (current_keys_pressed st) /\
  forall k, k ∈ current_keys_pressed st ->
            is_Some (_key_movement_bindings !! k) /\ is_Some (last_time st !! k).

(** The rotation accumulated over drag samples given by their deltas, each
    new one on the right. *)
Definition right_rotation (deltas : list (Z * Z)) : matrix :=
  fold_left (fun acc d => mul acc (orbit_sample_rotation (fst d) (snd d)))
            deltas identity.

(** As the specification words it: "left-multiply it into the accumulated
    rotation", each new operator on the left. *)
Definition left_rotation_spec (deltas : list (Z * Z)) : matrix :=
  fold_left (fun acc d => mul (orbit_sample_rotation (fst d) (snd d)) acc)
            deltas identity.

(** The positions of successive drag samples as events, and their deltas
    from a starting position. *)
Definition orbit_drags (samples : list (Z * Z)) : list event :=
  map (fun p => AltB1Motion (fst p) (snd p)) samples.

Fixpoint deltas_from (last : Z * Z) (samples : list (Z * Z)) : list (Z * Z) :=
  match samples with
  | [] => []
  | p :: samples' =>
      ((fst p - fst last)%Z, (snd p - snd last)%Z) :: deltas_from p samples'
  end.

(** The view state is there from [__init__] on, and whenever an anchor is
    set a view state was captured with it. *)
Definition views_inv {ViewState : Type} (st : Nav ViewState) : Prop :=
  is_Some (view_state st)
  /\ (is_Some (mouse_pos_when_pressed st) -> is_Some (view_state_when_pressed st))
  /\ (is_Some (last_mouse_pos st) -> is_Some (view_state_when_pressed st)).

(** As the specification words it: "at most one tick chain is ever in
    flight". *)
Definition at_most_one_tick_chain {ViewState : Type} (st : Nav ViewState) : Prop :=
  (length (after_queue st) <= 1)%nat.

(** ** A collaborator for the closed examples *)

(** Its view state is the list of the operators it was handed, oldest
    first; the one-argument call changes nothing. *)
Definition logged_view : Type := list matrix.

Definition logging_update (vs : logged_view) (op : option matrix) : logged_view :=
  match op with
  | Some m => vs ++ [m]
  | None => vs
  end.

(** A widget just constructed, showing view 0 with a field of view of 90
    degrees. *)
Definition fresh : Nav logged_view := init [] 0 90.

(** Every operator in a log, or in an attribute that is set, is one of
    [nav_operator]. *)
Definition all_nav (o : option logged_view) : Prop :=
  match o with
  | Some log => Forall nav_operator log
  | None => True
  end.

Definition nav_or_unset (o : option matrix) : Prop :=
  match o with
  | Some M => nav_operator M
  | None => True
  end.

Definition ops_inv (st : Nav logged_view) : Prop :=
  all_nav (view_state st)
  /\ all_nav (view_state_when_pressed st)
  /\ nav_or_unset (orbit_translation st)
  /\ nav_or_unset (orbit_inv_translation st)
  /\ nav_or_unset (orbit_rotation st).

(** ** Notions of the further properties *)

(** The positions of successive in-place drag samples as events. *)
Definition ctrl_drags (samples : list (Z * Z)) : list event :=
  map (fun p => CtrlB1Motion (fst p) (snd p)) samples.

(** The view state after in-place drag samples given by their deltas: each
    sample updates the view state the one before has left. *)
Definition rotated_view {ViewState : Type}
           (update_view_state : ViewState -> option matrix -> ViewState)
           (vs : ViewState) (deltas : list (Z * Z)) : ViewState :=
  fold_left (fun v d => update_view_state v
                          (Some (ctrl_sample_rotation (fst d) (snd d))))
            deltas vs.

(** The position of the last sample, or [p] when there is none. *)
Definition last_position (p : Z * Z) (samples : list (Z * Z)) : Z * Z :=
  default p (last samples).

(** The number of presses of movement keys among events. *)
Fixpoint movement_presses (evs : list event) : nat :=
  match evs with
  | [] => 0%nat
  | KeyPress k _ :: evs' =>
      ((if is_movement_key k then 1 else 0) + movement_presses evs')%nat
  | _ :: evs' => movement_presses evs'
  end.

(** The six pairs of keys bound to opposite motions. *)
Definition opposite_keys : list (string * string) :=
  [ ("a", "d"); ("c", "e"); ("w", "s");
    ("Left", "Right"); ("Up", "Down"); ("x", "z") ]%string.

(** ** Ticks and the range of the operator library *)

(** The six keys bound to translations, whose bindings use the distance. *)
Definition translation_keys : list string := ["a"; "d"; "c"; "e"; "w"; "s"]%string.

(** The distances a tick at [current_time] asks of the translation bindings
    of the keys it finds held are bounded. *)
Definition distances_bounded {ViewState : Type} (st : Nav ViewState)
           (current_time : R) : Prop :=
  forall k t, k ∈ still_held current_time st -> k ∈ translation_keys ->
              last_time st !! k = Some t ->
              bounded_distance ((current_time - t) * translationVelocity st).

(** The state [do_movement] leaves when the call of the binding on line 103
    raises at the key in position [n] of the iteration: lines 86-89 have
    evicted the released keys, the loop has run through the keys before
    that one, and line 101 has set the stamp of that key as well; the
    accumulator is lost with the frame, and lines 108-116 are not reached,
    so the view state is not updated, no redraw is asked for and no tick is
    armed. *)
Definition tick_cut_short {ViewState : Type} (current_time : R) (n : nat)
           (st : Nav ViewState) : Nav ViewState :=
  let st1 :=
    set_current_keys_pressed
      (evict_released current_time (time_key_release_received st)
                      (current_keys_pressed st)) st in
  (state_of (movement_loop (take (S n) (current_keys_pressed st1))
                           current_time st1 identity false)).1.1.

(** A pending callback fires and the tick is cut short. *)
Definition fire_timer_cut_short {ViewState : Type} (current_time : R) (n : nat)
           (st : Nav ViewState) : Nav ViewState :=
  match after_queue st with
  | [] => st
  | _ :: pending => tick_cut_short current_time n (set_after_queue pending st)
  end.

(** The states of the widget: the one [__init__] leaves, and from there on
    what a handler leaves, whether it returns or raises, and what a tick
    that was cut short leaves. *)
Inductive reachable {ViewState : Type} (initial_view_state : ViewState)
          (update_view_state : ViewState -> option matrix -> ViewState)
  : Nav ViewState -> Prop :=
| reachable_init view0 fov0 :
    reachable initial_view_state update_view_state
              (init initial_view_state view0 fov0)
| reachable_handle ev st :
    reachable initial_view_state update_view_state st ->
    reachable initial_view_state update_view_state
              (state_of (handle update_view_state ev st))
| reachable_cut_short current_time n st :
    reachable initial_view_state update_view_state st ->
    reachable initial_view_state update_view_state
              (fire_timer_cut_short current_time n st).

(** While a key is held a tick is pending. *)
Definition tick_pending {ViewState : Type} (st : Nav ViewState) : Prop :=
  current_keys_pressed st <> [] -> after_queue st <> [].

(** The three attributes an orbit press creates are there together or not
    at all. *)
Definition orbit_attributes_together {ViewState : Type} (st : Nav ViewState) : Prop :=
  is_Some (orbit_rotation st) ->
  is_Some (orbit_translation st) /\ is_Some (orbit_inv_translation st).

(* ===================================================================== *)
(** * The operators are Lorentz operators *)
(* ===================================================================== *)

Lemma cos_sin_one (a : R) : cos a * cos a + sin a * sin a = 1.
Proof. generalize (sin2_cos2 a). unfold Rsqr. lra. Qed.

Lemma cosh_sinh_one (d : R) : cosh d * cosh d - sinh d * sinh d = 1.
Proof.
  unfold cosh, sinh.
  assert (E : exp d * exp (- d) = 1) by (rewrite <- exp_plus, Rplus_opp_r; apply exp_0).
  replace ((exp d + exp (- d)) / 2 * ((exp d + exp (- d)) / 2)
           - (exp d - exp (- d)) / 2 * ((exp d - exp (- d)) / 2))
    with (exp d * exp (- d)) by field.
  exact E.
Qed.

Lemma mul_apply (A B : matrix) (v : vec4) : apply (mul A B) v = apply A (apply B v).
Proof.
  destruct A as [[] [] [] []], B as [[] [] [] []], v.
  unfold apply, mul, row_mul, vadd, vscale, dot4; simpl.
  f_equal; ring.
Qed.

Lemma mul_identity_l (A : matrix) : mul identity A = A.
Proof.
  destruct A as [[] [] [] []].
  unfold mul, identity, row_mul, vadd, vscale; simpl.
  f_equal; f_equal; ring.
Qed.

Lemma mul_identity_r (A : matrix) : mul A identity = A.
Proof.
  destruct A as [[] [] [] []].
  unfold mul, identity, row_mul, vadd, vscale; simpl.
  f_equal; f_equal; ring.
Qed.

Lemma preserves_Q_identity : preserves_Q identity.
Proof. intros []. unfold Q, apply, identity, dot4; simpl. ring. Qed.

Lemma preserves_Q_mul (A B : matrix) :
  preserves_Q A -> preserves_Q B -> preserves_Q (mul A B).
Proof. intros HA HB v. rewrite mul_apply, HA. apply HB. Qed.

Lemma preserves_Q_x_rotation (a : R) : preserves_Q (O13_x_rotation a).
Proof.
  intros [t x y z]. unfold Q, apply, O13_x_rotation, dot4; simpl.
  generalize (cos_sin_one a). generalize (cos a) (sin a). intros c s H.
  replace (- (t * t) + x * x + y * y + z * z)
    with (- (t * t) + x * x + (c * c + s * s) * (y * y + z * z)) by (rewrite H; ring).
  ring.
Qed.

Lemma preserves_Q_y_rotation (a : R) : preserves_Q (O13_y_rotation a).
Proof.
  intros [t x y z]. unfold Q, apply, O13_y_rotation, dot4; simpl.
  generalize (cos_sin_one a). generalize (cos a) (sin a). intros c s H.
  replace (- (t * t) + x * x + y * y + z * z)
    with (- (t * t) + y * y + (c * c + s * s) * (x * x + z * z)) by (rewrite H; ring).
  ring.
Qed.

Lemma preserves_Q_z_rotation (a : R) : preserves_Q (O13_z_rotation a).
Proof.
  intros [t x y z]. unfold Q, apply, O13_z_rotation, dot4; simpl.
  generalize (cos_sin_one a). generalize (cos a) (sin a). intros c s H.
  replace (- (t * t) + x * x + y * y + z * z)
    with (- (t * t) + z * z + (c * c + s * s) * (x * x + y * y)) by (rewrite H; ring).
  ring.
Qed.

Lemma preserves_Q_translation (n : vec3) (d : R) :
  is_unit n ->
  preserves_Q (unit_3_vector_and_distance_to_O13_hyperbolic_translation n d).
Proof.
  intros Hn [t x y z]. destruct n as [n1 n2 n3]. unfold is_unit in Hn; simpl in Hn.
  unfold Q, apply, unit_3_vector_and_distance_to_O13_hyperbolic_translation, dot4; simpl.
  generalize (cosh_sinh_one d). generalize (cosh d) (sinh d). intros c s Hcs.
  set (p := n1 * x + n2 * y + n3 * z).
  set (k := s * t + (c - 1) * p).
  transitivity (- (t * t) + x * x + y * y + z * z
                + (c * c - s * s - 1) * (p * p - t * t)
                + (n1 * n1 + n2 * n2 + n3 * n3 - 1) * (k * k)).
  - unfold k, p. ring.
  - rewrite Hcs, Hn. ring.
Qed.

Lemma normalized_unit (v : vec3) : norm3 v <> 0 -> is_unit (normalized v).
Proof.
  destruct v as [a b c]. unfold normalized, is_unit, norm3; simpl. intros Hn.
  assert (Hs : 0 <= a * a + b * b + c * c) by nra.
  generalize (sqrt_sqrt _ Hs). revert Hn.
  generalize (sqrt (a * a + b * b + c * c)). intros n Hn Hsq.
  replace (a / n * (a / n) + b / n * (b / n) + c / n * (c / n))
    with ((a * a + b * b + c * c) / (n * n)) by (field; exact Hn).
  rewrite <- Hsq. field. nra.
Qed.

Lemma sum_squares_pos (a b c : R) : c <> 0 -> 0 < a * a + b * b + c * c.
Proof.
  intros Hc. assert (0 < c * c) by (destruct (Rdichotomy c 0 Hc); nra).
  nra.
Qed.

Lemma pick_direction_unit (x y width height : Z) (t : R) :
  t <> 0 -> is_unit (pick_direction x y width height t).
Proof.
  intros Ht. unfold pick_direction. apply normalized_unit.
  unfold norm3; simpl.
  assert (Hz : - 0.5 / t <> 0).
  { unfold Rdiv. apply Rmult_integral_contrapositive_currified; [lra|].
    now apply Rinv_neq_0_compat. }
  apply Rgt_not_eq, sqrt_lt_R0. now apply sum_squares_pos.
Qed.

Lemma drag_amount_sqr (delta_x delta_y : Z) :
  drag_amount delta_x delta_y * drag_amount delta_x delta_y
  = IZR delta_x * IZR delta_x + IZR delta_y * IZR delta_y.
Proof.
  unfold drag_amount. rewrite sqrt_sqrt.
  - rewrite plus_IZR, !Z.pow_2_r, !mult_IZR. reflexivity.
  - apply IZR_le. nia.
Qed.

Lemma drag_amount_zero (delta_x delta_y : Z) :
  drag_amount delta_x delta_y = 0 <-> delta_x = 0%Z /\ delta_y = 0%Z.
Proof.
  split.
  - intros H. generalize (drag_amount_sqr delta_x delta_y). rewrite H. intros E.
    assert (Hx : IZR delta_x = 0) by nra.
    assert (Hy : IZR delta_y = 0) by nra.
    split; now apply eq_IZR.
  - intros [-> ->]. unfold drag_amount. simpl. apply sqrt_0.
Qed.

Lemma free_drag_direction_unit (delta_x delta_y : Z) :
  drag_amount delta_x delta_y <> 0 ->
  is_unit (V3 (IZR (- delta_x) / drag_amount delta_x delta_y)
              (IZR delta_y / drag_amount delta_x delta_y) 0).
Proof.
  intros Hn. unfold is_unit; simpl.
  generalize (drag_amount_sqr delta_x delta_y). revert Hn.
  generalize (drag_amount delta_x delta_y). intros n Hn Hsq.
  rewrite opp_IZR.
  replace (- IZR delta_x / n * (- IZR delta_x / n) + IZR delta_y / n * (IZR delta_y / n) + 0 * 0)
    with ((IZR delta_x * IZR delta_x + IZR delta_y * IZR delta_y) / (n * n))
    by (field; exact Hn).
  rewrite <- Hsq. field. nra.
Qed.

(** The twelve bindings, one by one. *)
Lemma preserves_Q_binding (k : string) (binding : R -> R -> matrix)
      (rot_amount trans_amount : R) :
  _key_movement_bindings !! k = Some binding ->
  preserves_Q (binding rot_amount trans_amount).
Proof.
  unfold _key_movement_bindings. intros H.
  apply elem_of_list_to_map_2 in H.
  repeat (apply elem_of_cons in H as [H | H]; [ injection H as _ -> | ]).
  all: try (apply preserves_Q_translation; unfold is_unit; simpl; ring).
  all: try apply preserves_Q_x_rotation.
  all: try apply preserves_Q_y_rotation.
  all: try apply preserves_Q_z_rotation.
  inversion H.
Qed.

(** Every operator of [nav_operator] is a Lorentz operator. *)
Lemma nav_operator_lorentz (Op : matrix) : nav_operator Op -> preserves_Q Op.
Proof.
  induction 1 as [k binding rot trans Hk | dx dy Hd | x y w h t d Hw Ht
                 | a | a | a | | A B _ IHA _ IHB].
  - exact (preserves_Q_binding k binding rot trans Hk).
  - apply preserves_Q_translation. now apply free_drag_direction_unit.
  - apply preserves_Q_translation. now apply pick_direction_unit.
  - apply preserves_Q_x_rotation.
  - apply preserves_Q_y_rotation.
  - apply preserves_Q_z_rotation.
  - apply preserves_Q_identity.
  - now apply preserves_Q_mul.
Qed.

(** C1. Every operator the navigation code builds (what each of the twelve
    key bindings returns, the translation of a free drag, the forward and
    inverse translations of the orbit gesture, the axis rotations, the
    identity, and every product of these) preserves the Minkowski quadratic
    form of signature (-,+,+,+): Q (Op v) = Q v for every 4-vector v, exactly
    so over the reals and hence within every tolerance. *)
Theorem nav_operator_preserves_Q (Op : matrix) :
  nav_operator Op ->
  forall v : vec4,
    Q (apply Op v) = Q v
    /\ forall tolerance : R, 0 <= tolerance -> Rabs (Q (apply Op v) - Q v) <= tolerance.
Proof.
  intros HOp v. assert (E := nav_operator_lorentz Op HOp v).
  split; [exact E|]. intros tolerance Htol.
  rewrite E, Rminus_diag, Rabs_R0. exact Htol.
Qed.

(* ===================================================================== *)
(** * The key-motion integrator *)
(* ===================================================================== *)

Lemma filter_ext_in {A : Type} (P1 P2 : A -> Prop)
      `{!forall x, Decision (P1 x)} `{!forall x, Decision (P2 x)} (l : list A) :
  (forall x, x ∈ l -> (P1 x <-> P2 x)) -> filter P1 l = filter P2 l.
Proof.
  induction l as [| x l IH]; intros Hext; [reflexivity|].
  rewrite !filter_cons.
  assert (Hx : P1 x <-> P2 x) by (apply Hext; left).
  rewrite IH by (intros y Hy; apply Hext; now right).
  destruct (decide (P1 x)), (decide (P2 x)); tauto || reflexivity.
Qed.

Lemma filter_all {A : Type} (P : A -> Prop) `{!forall x, Decision (P x)} (l : list A) :
  (forall x, x ∈ l -> P x) -> filter P l = l.
Proof.
  induction l as [| x l IH]; intros Hall; [reflexivity|].
  rewrite filter_cons_True by (apply Hall; left).
  f_equal. apply IH. intros y Hy. apply Hall. now right.
Qed.

Lemma release_expired_empty (now : R) (k : string) : release_expired now ∅ k = false.
Proof. unfold release_expired. now rewrite lookup_empty. Qed.

Lemma release_expired_insert_ne (now t : R) (released : gmap string R) (i k : string) :
  i <> k -> release_expired now (<[i := t]> released) k = release_expired now released k.
Proof. intros H. unfold release_expired. now rewrite lookup_insert_ne. Qed.

Lemma release_expired_none (now : R) (released : gmap string R) (k : string) :
  released !! k = None -> release_expired now released k = false.
Proof. intros H. unfold release_expired. now rewrite H. Qed.

Lemma release_expired_old (now t : R) (released : gmap string R) (k : string) :
  released !! k = Some t -> now - t > 0.005 -> release_expired now released k = true.
Proof.
  intros H Hold. unfold release_expired. rewrite H.
  destruct (Rgt_dec (now - t) 0.005); [reflexivity | contradiction].
Qed.

(** The eviction loop keeps exactly the held keys without an expired
    release record, in their order. *)
Lemma evict_released_filter (now : R) (released : gmap string R) (held : list string) :
  evict_released now released held
  = filter (fun k => release_expired now released k = false) held.
Proof.
  unfold evict_released.
  pose (kept := fun m : gmap string R =>
                  filter (fun k => release_expired now m k = false) held).
  change (filter _ held) with (kept released).
  apply (map_fold_weak_ind (fun r m => r = kept m)); unfold kept; clear kept.
  - symmetry. apply filter_all. intros k _. apply release_expired_empty.
  - intros i x m r Hi ->.
    assert (Hother : forall k, k <> i ->
              release_expired now (<[i := x]> m) k = release_expired now m k).
    { intros k Hk. apply release_expired_insert_ne. congruence. }
    assert (Hnone : release_expired now m i = false) by now apply release_expired_none.
    unfold release_expired at 1.
    assert (Hnew : release_expired now (<[i := x]> m) i
                   = if Rgt_dec (now - x) 0.005 then true else false).
    { unfold release_expired. now rewrite lookup_insert_eq. }
    destruct (Rgt_dec (now - x) 0.005) as [Hold | Hyoung].
    + destruct (decide (i ∈ _)) as [Hin | Hnin].
      * unfold set_remove. rewrite list_filter_filter.
        apply filter_ext_in. intros k _. destruct (decide (k = i)) as [-> | Hk].
        -- rewrite Hnew. split; [tauto | discriminate].
        -- rewrite Hother by exact Hk. tauto.
      * apply filter_ext_in. intros k Hk. destruct (decide (k = i)) as [-> | Hne].
        -- exfalso. apply Hnin. apply list_elem_of_filter. now split.
        -- now rewrite Hother.
    + apply filter_ext_in. intros k _. destruct (decide (k = i)) as [-> | Hne].
      * now rewrite Hnew, Hnone.
      * now rewrite Hother.
Qed.

(** Reading an attribute of a state written as a chain of assignments. *)
Ltac nav_simpl :=
  cbn [refresh_delay mouse_pos_when_pressed view_state_when_pressed last_mouse_pos current_keys_pressed time_key_release_received
       last_time view_state translationVelocity rotationVelocity orbit_translation orbit_inv_translation
       orbit_rotation view fov after_queue redraws printed
       set_mouse_pos_when_pressed set_view_state_when_pressed set_last_mouse_pos set_current_keys_pressed
       set_time_key_release_received set_last_time set_view_state set_orbit_translation
       set_orbit_inv_translation set_orbit_rotation set_view set_after_queue set_redraws set_printed
       redraw_if_initialized after state_of] in *.

(** The entries of the table of bindings, one by one. *)
Lemma binding_a :
  _key_movement_bindings !! "a"%string
  = Some (fun _ trans_amount : R =>
            unit_3_vector_and_distance_to_O13_hyperbolic_translation
              (V3 (-1) 0 0) trans_amount).
Proof. reflexivity. Qed.

Lemma binding_d :
  _key_movement_bindings !! "d"%string
  = Some (fun _ trans_amount : R => unit_3_vector_and_distance_to_O13_hyperbolic_translation (V3 1 0 0) trans_amount).
Proof. reflexivity. Qed.

Lemma binding_c :
  _key_movement_bindings !! "c"%string
  = Some (fun _ trans_amount : R => unit_3_vector_and_distance_to_O13_hyperbolic_translation (V3 0 (-1) 0) trans_amount).
Proof. reflexivity. Qed.

Lemma binding_e :
  _key_movement_bindings !! "e"%string
  = Some (fun _ trans_amount : R => unit_3_vector_and_distance_to_O13_hyperbolic_translation (V3 0 1 0) trans_amount).
Proof. reflexivity. Qed.

Lemma binding_w :
  _key_movement_bindings !! "w"%string
  = Some (fun _ trans_amount : R => unit_3_vector_and_distance_to_O13_hyperbolic_translation (V3 0 0 (-1)) trans_amount).
Proof. reflexivity. Qed.

Lemma binding_s :
  _key_movement_bindings !! "s"%string
  = Some (fun _ trans_amount : R => unit_3_vector_and_distance_to_O13_hyperbolic_translation (V3 0 0 1) trans_amount).
Proof. reflexivity. Qed.

Lemma binding_Left :
  _key_movement_bindings !! "Left"%string
  = Some (fun rot_amount _ : R => O13_y_rotation (- rot_amount)).
Proof. reflexivity. Qed.

Lemma binding_Right :
  _key_movement_bindings !! "Right"%string
  = Some (fun rot_amount _ : R => O13_y_rotation rot_amount).
Proof. reflexivity. Qed.

Lemma binding_Up :
  _key_movement_bindings !! "Up"%string
  = Some (fun rot_amount _ : R => O13_x_rotation (- rot_amount)).
Proof. reflexivity. Qed.

Lemma binding_Down :
  _key_movement_bindings !! "Down"%string
  = Some (fun rot_amount _ : R => O13_x_rotation rot_amount).
Proof. reflexivity. Qed.

Lemma binding_key_x :
  _key_movement_bindings !! "x"%string
  = Some (fun rot_amount _ : R => O13_z_rotation (- rot_amount)).
Proof. reflexivity. Qed.

Lemma binding_key_z :
  _key_movement_bindings !! "z"%string
  = Some (fun rot_amount _ : R => O13_z_rotation rot_amount).
Proof. reflexivity. Qed.

(** The table binds these twelve keys and no other. *)
Lemma unbound_key (k : string) :
  k ∉ ["a"; "d"; "c"; "e"; "w"; "s"; "Left"; "Right"; "Up"; "Down"; "x"; "z"]%string ->
  _key_movement_bindings !! k = None.
Proof.
  intros Hk. unfold _key_movement_bindings.
  apply not_elem_of_list_to_map_1. exact Hk.
Qed.

Section KeyMotion.

Context {ViewState : Type}.
Variable update_view_state : ViewState -> option matrix -> ViewState.
Implicit Types st : Nav ViewState.

Lemma set_last_time_same st : set_last_time (last_time st) st = st.
Proof. now destruct st. Qed.

Lemma set_time_key_release_received_same st :
  set_time_key_release_received (time_key_release_received st) st = st.
Proof. now destruct st. Qed.

(** A key operator reads the stamp of its own key and the two velocities,
    nothing else. *)
Lemma key_operator_agree st1 st2 (now : R) (k : string) :
  rotationVelocity st1 = rotationVelocity st2 ->
  translationVelocity st1 = translationVelocity st2 ->
  last_time st1 !! k = last_time st2 !! k ->
  key_operator st1 now k = key_operator st2 now k.
Proof. intros Hr Ht Hl. unfold key_operator. now rewrite Hr, Ht, Hl. Qed.

Lemma accumulate_right_agree st1 st2 (now : R) (keys : list string) (m : matrix) :
  rotationVelocity st1 = rotationVelocity st2 ->
  translationVelocity st1 = translationVelocity st2 ->
  (forall k, k ∈ keys -> last_time st1 !! k = last_time st2 !! k) ->
  accumulate_right st1 now m keys = accumulate_right st2 now m keys.
Proof.
  intros Hr Ht. revert m. unfold accumulate_right.
  induction keys as [| k keys IH]; intros m Hl; [reflexivity|].
  simpl. rewrite (key_operator_agree st1 st2 now k Hr Ht) by (apply Hl; left).
  apply IH. intros k' Hk'. apply Hl. now right.
Qed.

(** The loop over the held keys returns when each bound key has a stamp:
    it stamps the bound keys and multiplies their operators onto [m], each
    from the stamp the key had when the tick began. *)
Lemma movement_loop_returns (keys : list string) (now : R) st (m : matrix) (a : bool) :
  NoDup keys ->
  (forall k, k ∈ keys -> is_movement_key k = true -> is_Some (last_time st !! k)) ->
  movement_loop keys now st m a
  = Returned (set_last_time (stamp_keys now keys (last_time st)) st,
              accumulate_right st now m keys,
              a || existsb is_movement_key keys).
Proof.
  revert st m a. induction keys as [| k keys IH]; intros st m a Hnd Hst.
  - cbn [movement_loop stamp_keys accumulate_right fold_left existsb].
    now rewrite set_last_time_same, orb_false_r.
  - apply NoDup_cons in Hnd as [Hk Hnd].
    unfold accumulate_right, stamp_keys.
    cbn [movement_loop fold_left existsb].
    fold (accumulate_right st now). fold (stamp_keys now keys).
    destruct (_key_movement_bindings !! k) as [binding |] eqn:Hb.
    + assert (Hbk : is_movement_key k = true)
        by (unfold is_movement_key; now rewrite Hb).
      destruct (Hst k) as [t Ht]; [left | exact Hbk |].
      assert (Hop : key_operator st now k
                    = Some (binding ((now - t) * rotationVelocity st)
                                    ((now - t) * translationVelocity st)))
        by (unfold key_operator; now rewrite Hb, Ht).
      rewrite Ht, Hop, Hbk. rewrite IH; [| exact Hnd |].
      * cbn [last_time set_last_time]. rewrite orb_true_r. cbn [orb].
        f_equal. f_equal. f_equal.
        apply accumulate_right_agree; try reflexivity.
        intros k' Hk'. cbn [last_time set_last_time]. apply lookup_insert_ne. congruence.
      * intros k' Hk' Hb'. cbn [last_time set_last_time]. apply lookup_insert_is_Some.
        destruct (decide (k = k')); [now left | right]. split; [assumption|].
        apply Hst; [now right | assumption].
    + assert (Hbk : is_movement_key k = false)
        by (unfold is_movement_key; now rewrite Hb).
      assert (Hop : key_operator st now k = None)
        by (unfold key_operator; now rewrite Hb).
      rewrite Hop, Hbk. rewrite IH; [| exact Hnd | intros k' Hk'; apply Hst; now right].
      reflexivity.
Qed.

Lemma stamp_keys_unbound (now : R) (keys : list string) (stamps : gmap string R) :
  existsb is_movement_key keys = false -> stamp_keys now keys stamps = stamps.
Proof.
  unfold stamp_keys. revert stamps.
  induction keys as [| k keys IH]; intros stamps H; [reflexivity|].
  cbn [existsb fold_left] in *. apply orb_false_iff in H as [Hk H].
  unfold is_movement_key in Hk.
  destruct (_key_movement_bindings !! k); [discriminate | now apply IH].
Qed.

Lemma stamp_keys_lookup (now : R) (keys : list string) (stamps : gmap string R) (k : string) :
  stamp_keys now keys stamps !! k
  = if decide (k ∈ keys /\ is_movement_key k = true) then Some now else stamps !! k.
Proof.
  unfold stamp_keys. revert stamps.
  induction keys as [| k' keys IH]; intros stamps.
  - cbn [fold_left]. destruct (decide _) as [[H _] | _]; [inversion H | reflexivity].
  - cbn [fold_left]. rewrite IH. unfold is_movement_key.
    destruct (decide (k ∈ keys /\ _)) as [[Hin Hb] | Hn].
    + rewrite decide_True; [reflexivity | split; [now right | exact Hb]].
    + destruct (decide (k = k')) as [-> | Hne].
      * destruct (_key_movement_bindings !! k') eqn:Hb.
        -- rewrite lookup_insert_eq. rewrite decide_True; [reflexivity | split; [left | reflexivity]].
        -- rewrite decide_False; [reflexivity | intros [_ ?]; discriminate].
      * rewrite decide_False.
        -- destruct (_key_movement_bindings !! k'); [now rewrite lookup_insert_ne | reflexivity].
        -- intros [Hin Hb]. apply Hn. split; [| exact Hb].
           apply elem_of_cons in Hin as [? | ?]; [contradiction | assumption].
Qed.

(** A tick on a state that satisfies the key invariant and has a view
    state returns: either no bound key is still held and it only evicts,
    or it stamps the held keys, hands the product of their operators to the
    collaborator, asks for a redraw and arms the next tick. *)
Lemma do_movement_returns (now : R) st (vs : ViewState) :
  keys_inv st -> view_state st = Some vs ->
  do_movement update_view_state now st
  = if existsb is_movement_key (still_held now st)
    then Returned
           (after (refresh_delay st)
              (redraw_if_initialized
                 (set_view_state
                    (Some (update_view_state vs
                             (Some (right_product st now (still_held now st)))))
                    (set_last_time (stamp_keys now (still_held now st) (last_time st))
                       (set_current_keys_pressed (still_held now st) st)))))
    else Returned (set_current_keys_pressed (still_held now st) st).
Proof.
  intros [Hnd Hkeys] Hvs. unfold do_movement.
  rewrite evict_released_filter. fold (still_held now st).
  nav_simpl.
  rewrite movement_loop_returns.
  - cbn [orb]. destruct (existsb is_movement_key (still_held now st)) eqn:Hex.
    + cbn [negb]. nav_simpl. rewrite Hvs.
      reflexivity.
    + cbn [negb]. nav_simpl.
      rewrite stamp_keys_unbound by exact Hex.
      now destruct st.
  - unfold still_held. now apply NoDup_filter.
  - intros k Hk _. nav_simpl.
    apply list_elem_of_filter in Hk as [_ Hk]. now apply Hkeys.
Qed.

Lemma is_movement_key_Some (k : string) :
  is_movement_key k = true <-> is_Some (_key_movement_bindings !! k).
Proof.
  unfold is_movement_key. destruct (_key_movement_bindings !! k).
  - split; [eauto | reflexivity].
  - split; [discriminate | intros [? ?]; discriminate].
Qed.

Lemma movement_key_not_u_v (k : string) :
  is_movement_key k = true -> k <> "u"%string /\ k <> "v"%string.
Proof. intros H. split; intros ->; discriminate H. Qed.

(** Pressing a bound key that is not held: its release record goes, it is
    stamped, joins the held set, and one tick is armed. *)
Lemma key_press_new (k : string) (now : R) st :
  is_movement_key k = true -> k ∉ current_keys_pressed st ->
  tkKeyPress k now st
  = Returned
      (after 1
         (set_current_keys_pressed (current_keys_pressed st ++ [k])
            (set_last_time (<[k := now]> (last_time st))
               (set_time_key_release_received
                  (delete k (time_key_release_received st)) st)))).
Proof.
  intros Hb Hk. destruct (movement_key_not_u_v k Hb) as [Hu Hv].
  unfold tkKeyPress, key_press_movement. unfold is_movement_key in Hb.
  destruct (_key_movement_bindings !! k); [| discriminate].
  rewrite (decide_False (P := k = "u"%string)) by exact Hu.
  rewrite (decide_False (P := k = "v"%string)) by exact Hv.
  destruct (time_key_release_received st !! k) eqn:Hr; nav_simpl.
  - now rewrite decide_False by exact Hk.
  - rewrite decide_False by exact Hk.
    rewrite (delete_id _ _ Hr), set_time_key_release_received_same. reflexivity.
Qed.

(** Pressing a bound key that is held: only its release record goes. *)
Lemma key_press_held (k : string) (now : R) st :
  is_movement_key k = true -> k ∈ current_keys_pressed st ->
  tkKeyPress k now st
  = Returned (set_time_key_release_received
                (delete k (time_key_release_received st)) st).
Proof.
  intros Hb Hk. destruct (movement_key_not_u_v k Hb) as [Hu Hv].
  unfold tkKeyPress, key_press_movement. unfold is_movement_key in Hb.
  destruct (_key_movement_bindings !! k); [| discriminate].
  rewrite (decide_False (P := k = "u"%string)) by exact Hu.
  rewrite (decide_False (P := k = "v"%string)) by exact Hv.
  destruct (time_key_release_received st !! k) eqn:Hr; nav_simpl.
  - now rewrite decide_True by exact Hk.
  - rewrite decide_True by exact Hk.
    rewrite (delete_id _ _ Hr), set_time_key_release_received_same. reflexivity.
Qed.

(** Pressing a key without a binding leaves the movement attributes alone. *)
Lemma key_press_movement_unbound (k : string) (now : R) st :
  is_movement_key k = false -> key_press_movement k now st = st.
Proof.
  unfold is_movement_key, key_press_movement.
  destruct (_key_movement_bindings !! k); [discriminate | reflexivity].
Qed.

(** Whatever the loop over the held keys does, the state it ends with
    differs from the one it began with in the stamps only. *)
Lemma movement_loop_frame (keys : list string) (now : R) st (m : matrix) (a : bool) :
  exists stamps, (state_of (movement_loop keys now st m a)).1.1 = set_last_time stamps st.
Proof.
  revert st m a. induction keys as [| k keys IH]; intros st m a.
  - exists (last_time st). cbn. now rewrite set_last_time_same.
  - cbn [movement_loop].
    destruct (_key_movement_bindings !! k) as [binding |]; [| apply IH].
    destruct (last_time st !! k) as [t |].
    + destruct (IH (set_last_time (<[k := now]> (last_time st)) st)
                   (mul m (binding ((now - t) * rotationVelocity st)
                                   ((now - t) * translationVelocity st))) true)
        as [stamps Hs].
      exists stamps. rewrite Hs. reflexivity.
    + exists (last_time st). cbn. now rewrite set_last_time_same.
Qed.

(** A tick never touches the release records. *)
Lemma do_movement_keeps_releases (now : R) st :
  time_key_release_received (state_of (do_movement update_view_state now st))
  = time_key_release_received st.
Proof.
  unfold do_movement.
  match goal with
  | |- context [movement_loop ?ks now ?s ?m ?a] =>
      destruct (movement_loop_frame ks now s m a) as [stamps Hs];
      destruct (movement_loop ks now s m a) as [[[st2 m2] a2] | e [[st2 m2] a2]]
  end; cbn in Hs; subst st2.
  - destruct a2; cbn [negb]; [| reflexivity].
    nav_simpl. destruct (view_state st); reflexivity.
  - reflexivity.
Qed.

(** C9. A key press for a movement-bound key that is already held deletes
    the pending release record of that key and changes nothing else: the
    key's stamp, the held set, the pending tick callbacks, the view state and
    every other attribute stay as they were. *)
Theorem key_press_while_held_only_clears_release (k : string) (now : R) st :
  is_Some (_key_movement_bindings !! k) ->
  k ∈ current_keys_pressed st ->
  tkKeyPress k now st
  = Returned (set_time_key_release_received
                (delete k (time_key_release_received st)) st)
  /\ let st' := state_of (tkKeyPress k now st) in
     time_key_release_received st' !! k = None
     /\ last_time st' = last_time st
     /\ current_keys_pressed st' = current_keys_pressed st
     /\ after_queue st' = after_queue st
     /\ view_state st' = view_state st
     /\ redraws st' = redraws st.
Proof.
  intros Hb Hk. apply is_movement_key_Some in Hb.
  rewrite (key_press_held k now st Hb Hk). split; [reflexivity|].
  nav_simpl. rewrite lookup_delete_eq. repeat split; reflexivity.
Qed.

(** C2, as the code has it. A key press arms one tick callback exactly when
    the pressed key is movement-bound and not yet in the held set, whatever
    else is held; a press of a held key, or of a key without a binding,
    arms nothing; and a tick arms at most one successor. *)
Theorem key_press_arms_once_per_new_key (k : string) (now : R) st :
  after_queue (state_of (tkKeyPress k now st))
  = (if is_movement_key k && negb (bool_decide (k ∈ current_keys_pressed st))
     then after_queue st ++ [1%Z]
     else after_queue st)
  /\ (after_queue (state_of (do_movement update_view_state now st)) = after_queue st
      \/ after_queue (state_of (do_movement update_view_state now st))
         = after_queue st ++ [refresh_delay st]).
Proof.
  split.
  - destruct (is_movement_key k) eqn:Hb; cbn [andb].
    + destruct (decide (k ∈ current_keys_pressed st)) as [Hk | Hk].
      * rewrite (bool_decide_eq_true_2 _ Hk). cbn [negb].
        now rewrite (key_press_held k now st Hb Hk).
      * rewrite (bool_decide_eq_false_2 _ Hk). cbn [negb].
        now rewrite (key_press_new k now st Hb Hk).
    + unfold tkKeyPress. rewrite (key_press_movement_unbound k now st Hb).
      repeat (destruct (decide _)); reflexivity.
  - unfold do_movement.
    match goal with
    | |- context [movement_loop ?ks now ?s ?m ?a] =>
        destruct (movement_loop_frame ks now s m a) as [stamps Hs];
        destruct (movement_loop ks now s m a) as [[[st2 m2] a2] | e [[st2 m2] a2]]
    end; cbn in Hs; subst st2.
    + destruct a2; cbn [negb]; [| now left].
      nav_simpl. destruct (view_state st); [now right | now left].
    + now left.
Qed.

(** No gesture handler touches the release records. *)
Lemma gestures_keep_releases (ev : event) st :
  match ev with
  | KeyPress _ _ | KeyRelease _ _ | Timer _ => False
  | _ => True
  end ->
  time_key_release_received (state_of (handle update_view_state ev st))
  = time_key_release_received st.
Proof.
  destruct ev; intros Hev; try contradiction; cbn [handle];
    unfold tkEnter, tkButton1, tkButtonRelease1, tkButtonMotion1,
           tkCtrlButtonMotion1, tkAltButton1, tkAltButtonMotion1;
    repeat case_match; reflexivity.
Qed.

(** C10. The release handler records a stamp for whatever key is released,
    bound or not; a recorded release is removed by nothing but a key press
    for that key, and only when the key is movement-bound; the tick, which
    evicts expired keys from the held set, leaves every release record
    where it is. *)
Theorem release_records_persist :
  (forall (k : string) (now : R) st,
      tkKeyRelease k now st
      = Returned (set_time_key_release_received
                    (<[k := now]> (time_key_release_received st)) st)
      /\ time_key_release_received (state_of (tkKeyRelease k now st)) !! k = Some now)
  /\ (forall (ev : event) st (k : string),
        is_Some (time_key_release_received st !! k) ->
        time_key_release_received (state_of (handle update_view_state ev st)) !! k = None ->
        exists now, ev = KeyPress k now /\ is_Some (_key_movement_bindings !! k))
  /\ (forall (now : R) st,
        time_key_release_received (state_of (do_movement update_view_state now st))
        = time_key_release_received st).
Proof.
  split; [| split].
  - intros k now st. split; [reflexivity|]. cbn. apply lookup_insert_eq.
  - intros ev st k [t Ht] Hgone.
    destruct ev as [| k' now | k' now | now | | | | | |];
      try (rewrite gestures_keep_releases in Hgone by exact I; congruence).
    + cbn [handle] in Hgone. destruct (is_movement_key k') eqn:Hb.
      * assert (Hdel : time_key_release_received (state_of (tkKeyPress k' now st))
                       = delete k' (time_key_release_received st)).
        { destruct (decide (k' ∈ current_keys_pressed st)) as [Hk | Hk].
          - now rewrite (key_press_held k' now st Hb Hk).
          - now rewrite (key_press_new k' now st Hb Hk). }
        rewrite Hdel in Hgone. apply lookup_delete_None in Hgone as [-> | Hn].
        -- exists now. split; [reflexivity | now apply is_movement_key_Some].
        -- congruence.
      * unfold tkKeyPress in Hgone.
        rewrite (key_press_movement_unbound k' now st Hb) in Hgone.
        repeat (destruct (decide _) in Hgone); cbn in Hgone; congruence.
    + cbn in Hgone. apply lookup_insert_None in Hgone as [Hn _]. congruence.
    + cbn [handle] in Hgone. unfold fire_timer in Hgone.
      destruct (after_queue st); [cbn in Hgone; congruence|].
      rewrite do_movement_keeps_releases in Hgone. cbn in Hgone. congruence.
  - apply do_movement_keeps_releases.
Qed.

Lemma run_cons (ev : event) (evs : list event) st :
  run update_view_state (ev :: evs) st
  = run update_view_state evs (state_of (handle update_view_state ev st)).
Proof. reflexivity. Qed.

Lemma run_nil st : run update_view_state [] st = st.
Proof. reflexivity. Qed.

Lemma still_held_singleton_kept (now : R) st (k : string) :
  current_keys_pressed st = [k] ->
  time_key_release_received st !! k = None ->
  still_held now st = [k].
Proof.
  intros Hh Hr. unfold still_held. rewrite Hh.
  apply filter_all. intros x Hx. apply list_elem_of_singleton in Hx as ->.
  now apply release_expired_none.
Qed.

Lemma still_held_singleton_evicted (now t : R) st (k : string) :
  current_keys_pressed st = [k] ->
  time_key_release_received st !! k = Some t ->
  now - t > 0.005 ->
  still_held now st = [].
Proof.
  intros Hh Hr Hold. unfold still_held. rewrite Hh.
  rewrite filter_cons_False; [reflexivity|].
  rewrite (release_expired_old now t _ k Hr Hold). discriminate.
Qed.

Lemma still_held_bound (now : R) st :
  keys_inv st -> still_held now st <> [] ->
  existsb is_movement_key (still_held now st) = true.
Proof.
  intros [_ Hinv] Hheld.
  destruct (still_held now st) as [| k ks] eqn:E; [congruence|].
  cbn [existsb]. apply orb_true_iff. left.
  assert (Hk : k ∈ still_held now st) by (rewrite E; left).
  apply list_elem_of_filter in Hk as [_ Hk].
  apply is_movement_key_Some. now apply Hinv.
Qed.

(** A key pressed while nothing is held and no tick is pending, the tick
    [dt] seconds later, then the release and a tick past the debounce
    window. *)
Lemma press_tick_release_tick (k : string) (binding : R -> R -> matrix) st
      (vs : ViewState) (t0 dt t1 t2 : R) :
  _key_movement_bindings !! k = Some binding ->
  current_keys_pressed st = [] -> after_queue st = [] ->
  view_state st = Some vs ->
  t2 - t1 > 0.005 ->
  let st1 := run update_view_state [KeyPress k t0; Timer (t0 + dt)] st in
  let st2 := run update_view_state [KeyRelease k t1; Timer t2] st1 in
  view_state st1
  = Some (update_view_state vs
            (Some (mul identity (binding (dt * rotationVelocity st)
                                         (dt * translationVelocity st)))))
  /\ last_time st1 !! k = Some (t0 + dt)
  /\ current_keys_pressed st1 = [k]
  /\ after_queue st1 = [refresh_delay st]
  /\ current_keys_pressed st2 = []
  /\ view_state st2 = view_state st1
  /\ redraws st2 = redraws st1
  /\ after_queue st2 = [].
Proof.
  intros Hb Hheld Hq Hvs Hold st1 st2.
  assert (Ha : is_movement_key k = true) by (apply is_movement_key_Some; eauto).
  (* the press *)
  assert (Hpress : state_of (tkKeyPress k t0 st)
                   = after 1
                       (set_current_keys_pressed [k]
                          (set_last_time (<[k := t0]> (last_time st))
                             (set_time_key_release_received
                                (delete k (time_key_release_received st)) st)))).
  { rewrite key_press_new; [now rewrite Hheld | exact Ha |].
    rewrite Hheld. apply not_elem_of_nil. }
  (* the first tick *)
  set (sp := set_after_queue []
               (set_current_keys_pressed [k]
                  (set_last_time (<[k := t0]> (last_time st))
                     (set_time_key_release_received
                        (delete k (time_key_release_received st)) st)))).
  assert (Hinv : keys_inv sp).
  { split; nav_simpl.
    - apply NoDup_singleton.
    - intros k' Hk. apply list_elem_of_singleton in Hk as ->. split.
      + now apply is_movement_key_Some.
      + subst sp; nav_simpl. rewrite lookup_insert_eq. eauto. }
  assert (Hkept : still_held (t0 + dt) sp = [k]).
  { apply still_held_singleton_kept; [reflexivity|].
    subst sp; nav_simpl. apply lookup_delete_eq. }
  assert (Hex : existsb is_movement_key [k] = true)
    by (cbn [existsb]; now rewrite Ha).
  assert (Hst1 : st1
                 = after (refresh_delay st)
                     (redraw_if_initialized
                        (set_view_state
                           (Some (update_view_state vs
                                    (Some (right_product sp (t0 + dt) [k]))))
                           (set_last_time (stamp_keys (t0 + dt) [k] (last_time sp))
                              (set_current_keys_pressed [k] sp))))).
  { subst st1. rewrite run_cons. cbn [handle]. rewrite Hpress.
    rewrite run_cons, run_nil. cbn [handle]. unfold fire_timer.
    nav_simpl. rewrite Hq. cbn [app].
    change (do_movement update_view_state (t0 + dt) _)
      with (do_movement update_view_state (t0 + dt) sp).
    rewrite (do_movement_returns (t0 + dt) sp vs Hinv Hvs).
    rewrite Hkept, Hex. reflexivity. }
  assert (Hop : right_product sp (t0 + dt) [k]
                = mul identity (binding (dt * rotationVelocity st)
                                        (dt * translationVelocity st))).
  { unfold right_product, accumulate_right. cbn [fold_left].
    unfold key_operator. subst sp; nav_simpl. rewrite lookup_insert_eq, Hb.
    do 2 f_equal; ring. }
  (* the release and the second tick *)
  set (sr := set_after_queue []
               (set_time_key_release_received
                  (<[k := t1]> (time_key_release_received st1)) st1)).
  assert (Hh1 : current_keys_pressed st1 = [k]) by (rewrite Hst1; reflexivity).
  assert (Hq1 : after_queue st1 = [refresh_delay st])
    by (rewrite Hst1; subst sp; reflexivity).
  assert (Hstamp : last_time st1 !! k = Some (t0 + dt)).
  { rewrite Hst1; nav_simpl. rewrite stamp_keys_lookup.
    rewrite decide_True; [reflexivity | split; [left | exact Ha]]. }
  assert (Hinv' : keys_inv sr).
  { split; subst sr; nav_simpl; rewrite Hh1.
    - apply NoDup_singleton.
    - intros k' Hk. apply list_elem_of_singleton in Hk as ->. split.
      + now apply is_movement_key_Some.
      + rewrite Hstamp. eauto. }
  assert (Hgone : still_held t2 sr = []).
  { apply (still_held_singleton_evicted t2 t1 sr k); [subst sr; nav_simpl; exact Hh1 | | exact Hold].
    subst sr; nav_simpl. apply lookup_insert_eq. }
  assert (Hst2 : st2 = set_current_keys_pressed [] sr).
  { subst st2. rewrite run_cons. cbn [handle]. unfold tkKeyRelease. nav_simpl.
    rewrite run_cons, run_nil. cbn [handle]. unfold fire_timer.
    nav_simpl. rewrite Hq1.
    change (do_movement update_view_state t2 _)
      with (do_movement update_view_state t2 sr).
    assert (Hvs1 : view_state sr
                   = Some (update_view_state vs
                             (Some (right_product sp (t0 + dt) [k]))))
      by (subst sr; nav_simpl; rewrite Hst1; reflexivity).
    rewrite (do_movement_returns t2 sr _ Hinv' Hvs1).
    rewrite Hgone. reflexivity. }
  split; [rewrite Hst1; nav_simpl; now rewrite Hop|].
  split; [exact Hstamp|].
  split; [exact Hh1|].
  split; [exact Hq1|].
  rewrite Hst2. subst sr. nav_simpl. repeat split; reflexivity.
Qed.

(** What a tick does to the stamps: the keys it finds held are stamped with
    its time, the others keep their stamps. *)
Lemma do_movement_stamps (now : R) st (vs : ViewState) (k : string) :
  keys_inv st -> view_state st = Some vs ->
  last_time (state_of (do_movement update_view_state now st)) !! k
  = if decide (k ∈ still_held now st) then Some now else last_time st !! k.
Proof.
  intros Hinv Hvs.
  rewrite (do_movement_returns now st vs Hinv Hvs).
  destruct (existsb is_movement_key (still_held now st)) eqn:Hex; cbn [state_of]; nav_simpl.
  - rewrite stamp_keys_lookup.
    destruct (decide (k ∈ still_held now st)) as [Hk | Hk].
    + rewrite decide_True; [reflexivity|]. split; [exact Hk|].
      apply list_elem_of_filter in Hk as [_ Hk].
      apply is_movement_key_Some. now apply Hinv.
    + rewrite decide_False; [reflexivity | tauto].
  - destruct (decide (k ∈ still_held now st)) as [Hk | Hk]; [| reflexivity].
    exfalso. rewrite still_held_bound in Hex; [discriminate | exact Hinv |].
    intros E. rewrite E in Hk. inversion Hk.
Qed.

(** C4. Each tick integrates, for every held movement key, the time elapsed
    since that key's own stamp, and stamps the key with the time of the tick;
    a translation binding is given the elapsed time scaled by the translation
    velocity, a rotation binding the one scaled by the rotation velocity.
    The first part is the tick on the keys it finds held, for distances the
    operator library is used at; the second says key by key what operator
    the elapsed time becomes, and that the loop of the tick stamps the key
    and multiplies that operator onto its accumulator (a translation for a
    distance the library is used at).  Pressing "a" with nothing held and
    ticking [dt] seconds later hands the collaborator the translation of
    distance dt * translationVelocity along (-1, 0, 0), and pressing "Left"
    the rotation about the y axis by -(dt * rotationVelocity); once the key
    is released and a tick comes more than 0.005 s after the release, the key
    is evicted, the view state is not updated and no further tick is armed. *)
Theorem tick_integrates_each_held_key :
  (forall st (vs : ViewState) (now : R),
      keys_inv st -> view_state st = Some vs ->
      still_held now st <> [] ->
      distances_bounded st now ->
      exists st',
        do_movement update_view_state now st = Returned st'
        /\ view_state st'
           = Some (update_view_state vs
                     (Some (right_product st now (still_held now st))))
        /\ (forall k, k ∈ still_held now st -> last_time st' !! k = Some now)
        /\ (forall k, k ∉ still_held now st -> last_time st' !! k = last_time st !! k)
        /\ after_queue st' = after_queue st ++ [refresh_delay st])
  /\ (forall st (now t : R) (k : string) (m : matrix) (a : bool),
        last_time st !! k = Some t ->
        let rot_amount := (now - t) * rotationVelocity st in
        let trans_amount := (now - t) * translationVelocity st in
        let translation := unit_3_vector_and_distance_to_O13_hyperbolic_translation in
        let operator :=
          if decide (k = "a"%string) then Some (translation (V3 (-1) 0 0) trans_amount)
          else if decide (k = "d"%string) then Some (translation (V3 1 0 0) trans_amount)
          else if decide (k = "c"%string) then Some (translation (V3 0 (-1) 0) trans_amount)
          else if decide (k = "e"%string) then Some (translation (V3 0 1 0) trans_amount)
          else if decide (k = "w"%string) then Some (translation (V3 0 0 (-1)) trans_amount)
          else if decide (k = "s"%string) then Some (translation (V3 0 0 1) trans_amount)
          else if decide (k = "Left"%string) then Some (O13_y_rotation (- rot_amount))
          else if decide (k = "Right"%string) then Some (O13_y_rotation rot_amount)
          else if decide (k = "Up"%string) then Some (O13_x_rotation (- rot_amount))
          else if decide (k = "Down"%string) then Some (O13_x_rotation rot_amount)
          else if decide (k = "x"%string) then Some (O13_z_rotation (- rot_amount))
          else if decide (k = "z"%string) then Some (O13_z_rotation rot_amount)
          else None in
        key_operator st now k = operator
        /\ ((k ∈ translation_keys -> bounded_distance trans_amount) ->
            movement_loop [k] now st m a
            = match operator with
              | Some op =>
                  Returned (set_last_time (<[k := now]> (last_time st)) st, mul m op, true)
              | None => Returned (st, m, a)
              end))
  /\ (forall st (vs : ViewState) (t0 dt t1 t2 : R),
        current_keys_pressed st = [] -> after_queue st = [] ->
        view_state st = Some vs ->
        bounded_distance (dt * translationVelocity st) ->
        t2 - t1 > 0.005 ->
        let st1 := run update_view_state [KeyPress "a" t0; Timer (t0 + dt)] st in
        let st2 := run update_view_state [KeyRelease "a" t1; Timer t2] st1 in
        view_state st1
        = Some (update_view_state vs
                  (Some (mul identity
                           (unit_3_vector_and_distance_to_O13_hyperbolic_translation
                              (V3 (-1) 0 0) (dt * translationVelocity st)))))
        /\ last_time st1 !! "a" = Some (t0 + dt)
        /\ current_keys_pressed st1 = ["a"]
        /\ after_queue st1 = [refresh_delay st]
        /\ current_keys_pressed st2 = []
        /\ view_state st2 = view_state st1
        /\ redraws st2 = redraws st1
        /\ after_queue st2 = [])
  /\ (forall st (vs : ViewState) (t0 dt t1 t2 : R),
        current_keys_pressed st = [] -> after_queue st = [] ->
        view_state st = Some vs ->
        t2 - t1 > 0.005 ->
        let st1 := run update_view_state [KeyPress "Left" t0; Timer (t0 + dt)] st in
        let st2 := run update_view_state [KeyRelease "Left" t1; Timer t2] st1 in
        view_state st1
        = Some (update_view_state vs
                  (Some (mul identity (O13_y_rotation (- (dt * rotationVelocity st))))))
        /\ last_time st1 !! "Left" = Some (t0 + dt)
        /\ current_keys_pressed st1 = ["Left"]
        /\ after_queue st1 = [refresh_delay st]
        /\ current_keys_pressed st2 = []
        /\ view_state st2 = view_state st1
        /\ redraws st2 = redraws st1
        /\ after_queue st2 = []).
Proof.
  split; [| split; [| split]].
  - intros st vs now Hinv Hvs Hheld _.
    assert (Hex := still_held_bound now st Hinv Hheld).
    pose proof (do_movement_stamps now st vs) as Hstamps.
    rewrite (do_movement_returns now st vs Hinv Hvs), Hex in *.
    eexists. split; [reflexivity|]. cbn [state_of] in Hstamps.
    split; [reflexivity|].
    split; [| split; [| reflexivity]].
    + intros k Hk. rewrite (Hstamps k Hinv Hvs). now rewrite decide_True.
    + intros k Hk. rewrite (Hstamps k Hinv Hvs). now rewrite decide_False.
  - intros st now t k m a Ht. cbn zeta. unfold key_operator.
    cbn [movement_loop]. rewrite Ht.
    repeat (destruct (decide _) as [-> | ?]).
    13: { rewrite unbound_key; [split; [| intros _]; reflexivity|].
          repeat (apply not_elem_of_cons; split; [assumption|]).
          apply not_elem_of_nil. }
    + rewrite binding_a. split; [| intros _]; reflexivity.
    + rewrite binding_d. split; [| intros _]; reflexivity.
    + rewrite binding_c. split; [| intros _]; reflexivity.
    + rewrite binding_e. split; [| intros _]; reflexivity.
    + rewrite binding_w. split; [| intros _]; reflexivity.
    + rewrite binding_s. split; [| intros _]; reflexivity.
    + rewrite binding_Left. split; [| intros _]; reflexivity.
    + rewrite binding_Right. split; [| intros _]; reflexivity.
    + rewrite binding_Up. split; [| intros _]; reflexivity.
    + rewrite binding_Down. split; [| intros _]; reflexivity.
    + rewrite binding_key_x. split; [| intros _]; reflexivity.
    + rewrite binding_key_z. split; [| intros _]; reflexivity.
  - intros st vs t0 dt t1 t2 Hheld Hq Hvs _ Hold.
    exact (press_tick_release_tick "a" _ st vs t0 dt t1 t2 binding_a Hheld Hq Hvs Hold).
  - intros st vs t0 dt t1 t2 Hheld Hq Hvs Hold.
    exact (press_tick_release_tick "Left" _ st vs t0 dt t1 t2 binding_Left Hheld Hq Hvs Hold).
Qed.

End KeyMotion.

(* ===================================================================== *)
(** * The pointer gestures *)
(* ===================================================================== *)

Section Gestures.

Context {ViewState : Type}.
Variable update_view_state : ViewState -> option matrix -> ViewState.
Implicit Types st : Nav ViewState.

(** The orbit press returns when the viewport has a width, the tangent of
    half the field of view is not zero and the depth lies in (-1, 1). *)
Lemma tkAltButton1_returns (x y : Z) (depth : R) (width height : Z) st :
  width <> 0%Z -> tan (fov st / 360 * PI) <> 0 -> Rabs depth < 1 ->
  tkAltButton1 x y depth width height st
  = let dir := pick_direction x y width height (tan (fov st / 360 * PI)) in
    Returned
      (set_orbit_rotation (Some identity)
         (set_orbit_inv_translation
            (Some (unit_3_vector_and_distance_to_O13_hyperbolic_translation
                     dir (atanh (- depth))))
            (set_orbit_translation
               (Some (unit_3_vector_and_distance_to_O13_hyperbolic_translation
                        dir (atanh depth)))
               (set_view_state_when_pressed (view_state st)
                  (set_last_mouse_pos (Some (x, y)) st))))).
Proof.
  intros Hw Ht Hd. unfold tkAltButton1. nav_simpl.
  rewrite decide_False by exact Hw.
  destruct (Req_dec_T _ 0) as [E | _]; [contradiction|].
  destruct (Rlt_dec (Rabs depth) 1) as [_ | N]; [reflexivity | contradiction].
Qed.

(** What the orbit press has assigned when it raises. *)
Lemma tkAltButton1_raises (x y : Z) (depth : R) (width height : Z) st :
  width = 0%Z \/ tan (fov st / 360 * PI) = 0 \/ 1 <= Rabs depth ->
  exists e,
    tkAltButton1 x y depth width height st
    = Raised e (set_view_state_when_pressed (view_state st)
                  (set_last_mouse_pos (Some (x, y)) st))
    /\ (e = ZeroDivisionError <-> width = 0%Z \/ tan (fov st / 360 * PI) = 0)
    /\ (e = ValueError <-> width <> 0%Z /\ tan (fov st / 360 * PI) <> 0).
Proof.
  intros H. unfold tkAltButton1. nav_simpl.
  destruct (decide (width = 0%Z)) as [Hw | Hw].
  { exists ZeroDivisionError. split; [reflexivity|]. split.
    - split; [now left | reflexivity].
    - split; [discriminate | intros [? _]; contradiction]. }
  destruct (Req_dec_T _ 0) as [Ht | Ht].
  { exists ZeroDivisionError. split; [reflexivity|]. split.
    - split; [now right | reflexivity].
    - split; [discriminate | intros [_ ?]; contradiction]. }
  destruct (Rlt_dec (Rabs depth) 1) as [Hd | Hd].
  { exfalso. destruct H as [? | [? | ?]]; [contradiction | contradiction | lra]. }
  exists ValueError. split; [reflexivity|]. split.
  - split; [discriminate | intros [? | ?]; contradiction].
  - split; [now split | reflexivity].
Qed.

(** One orbit drag sample on a state whose orbit attributes are set. *)
Lemma tkAltButtonMotion1_returns (x y : Z) st (last : Z * Z)
      (rotation translation inv_translation : matrix) (pressed : ViewState) :
  last_mouse_pos st = Some last ->
  orbit_rotation st = Some rotation ->
  orbit_translation st = Some translation ->
  orbit_inv_translation st = Some inv_translation ->
  view_state_when_pressed st = Some pressed ->
  tkAltButtonMotion1 update_view_state x y st
  = let m := orbit_sample_rotation (x - fst last) (y - snd last) in
    Returned
      (redraw_if_initialized
         (set_last_mouse_pos (Some (x, y))
            (set_view_state
               (Some (update_view_state pressed
                        (Some (mul (mul translation (mul rotation m)) inv_translation))))
               (set_orbit_rotation (Some (mul rotation m)) st)))).
Proof.
  intros Hl Hr Ht Hi Hp. unfold tkAltButtonMotion1.
  rewrite Hl. destruct last as [lx ly]. rewrite Hr. nav_simpl.
  now rewrite Ht, Hi, Hp.
Qed.

(** The orbit attributes after a run of drag samples: the translations and
    the pressed view state stay, each sample multiplies its rotation onto the
    accumulated one from the right, and the view state is the pressed one
    updated by translation * rotation * inverse translation. *)
Lemma orbit_drags_run (samples : list (Z * Z)) st (last : Z * Z)
      (rotation translation inv_translation : matrix) (pressed : ViewState) :
  last_mouse_pos st = Some last ->
  orbit_rotation st = Some rotation ->
  orbit_translation st = Some translation ->
  orbit_inv_translation st = Some inv_translation ->
  view_state_when_pressed st = Some pressed ->
  let acc := fold_left (fun acc d => mul acc (orbit_sample_rotation (fst d) (snd d)))
                       (deltas_from last samples) rotation in
  let st' := run update_view_state (orbit_drags samples) st in
  orbit_rotation st' = Some acc
  /\ orbit_translation st' = Some translation
  /\ orbit_inv_translation st' = Some inv_translation
  /\ view_state_when_pressed st' = Some pressed
  /\ (samples <> [] ->
      view_state st'
      = Some (update_view_state pressed
                (Some (mul (mul translation acc) inv_translation)))).
Proof.
  revert st last rotation.
  induction samples as [| p samples IH]; intros st last rotation Hl Hr Ht Hi Hp.
  - cbn. repeat split; try assumption. congruence.
  - destruct p as [px py]. cbn [orbit_drags map deltas_from fold_left fst snd]. cbn zeta.
    rewrite run_cons. cbn [handle].
    rewrite (tkAltButtonMotion1_returns _ _ st last rotation translation
               inv_translation pressed Hl Hr Ht Hi Hp).
    cbn zeta. cbn [state_of].
    set (rotation' := mul rotation (orbit_sample_rotation (px - fst last) (py - snd last))).
    match goal with |- context [run _ _ ?s] => set (s' := s) end.
    destruct (IH s' (px, py) rotation') as (Hr' & Ht' & Hi' & Hp' & Hv');
      [reflexivity | reflexivity | exact Ht | exact Hi | exact Hp |].
    split; [exact Hr'|]. split; [exact Ht'|]. split; [exact Hi'|]. split; [exact Hp'|].
    intros _. destruct samples as [| q samples]; [reflexivity|].
    apply Hv'. discriminate.
Qed.

(** C5, as the code has it. An orbit press at pixel (x, y) with depth d,
    viewport (width, height) and field of view fov, the width and tan(fov/2)
    not being zero and d lying strictly between -1 and 1, returns and picks
    the direction obtained by centring the pixel, dividing both coordinates
    by the width, putting -0.5 / tan(fov/2) on the depth axis and normalising;
    the forward translation along it has distance atanh d, the inverse one
    atanh (-d); and every drag sample that follows sets the view state to the
    update of the state captured at the press by
    forward * accumulated rotation * inverse. *)
Theorem orbit_press_and_drags (x y : Z) (d : R) (width height : Z) st (vs : ViewState) :
  view_state st = Some vs ->
  width <> 0%Z -> tan (fov st / 360 * PI) <> 0 -> Rabs d < 1 ->
  let dir :=
    normalized (V3 ((IZR x - 0.5 * IZR width) / IZR width)
                   ((IZR (height - y) - 0.5 * IZR height) / IZR width)
                   (- 0.5 / tan (fov st / 360 * PI))) in
  let forward := unit_3_vector_and_distance_to_O13_hyperbolic_translation dir (atanh d) in
  let inverse := unit_3_vector_and_distance_to_O13_hyperbolic_translation dir (atanh (- d)) in
  let pressed := state_of (tkAltButton1 x y d width height st) in
  has_returned (tkAltButton1 x y d width height st) = true
  /\ is_unit dir
  /\ orbit_translation pressed = Some forward
  /\ orbit_inv_translation pressed = Some inverse
  /\ orbit_rotation pressed = Some identity
  /\ view_state_when_pressed pressed = Some vs
  /\ forall samples : list (Z * Z),
       samples <> [] ->
       view_state (run update_view_state (orbit_drags samples) pressed)
       = Some (update_view_state vs
                 (Some (mul (mul forward (right_rotation (deltas_from (x, y) samples)))
                            inverse))).
Proof.
  intros Hvs Hw Ht Hd dir forward inverse pressed.
  subst pressed. rewrite (tkAltButton1_returns x y d width height st Hw Ht Hd).
  cbn zeta. cbn [state_of has_returned]. nav_simpl.
  split; [reflexivity|].
  split; [now apply (pick_direction_unit x y width height)|].
  split; [reflexivity|]. split; [reflexivity|]. split; [reflexivity|].
  split; [exact Hvs|].
  intros samples Hne.
  match goal with
  | |- context [run _ _ ?s] =>
      destruct (orbit_drags_run samples s (x, y) identity forward inverse vs)
        as (_ & _ & _ & _ & Hv); try reflexivity; [exact Hvs|]
  end.
  exact (Hv Hne).
Qed.

(** The free drag of non-zero length returns when a view state was captured
    at the press. *)
Lemma tkButtonMotion1_moves (x y : Z) st (pressed_x pressed_y : Z) (pressed : ViewState) :
  mouse_pos_when_pressed st = Some (pressed_x, pressed_y) ->
  view_state_when_pressed st = Some pressed ->
  drag_amount (x - pressed_x) (y - pressed_y) <> 0 ->
  tkButtonMotion1 update_view_state x y st
  = Returned
      (redraw_if_initialized
         (set_view_state
            (Some (update_view_state pressed
                     (Some (free_drag_operator (x - pressed_x) (y - pressed_y)))))
            st)).
Proof.
  intros Hm Hp Hn. unfold tkButtonMotion1. rewrite Hm.
  destruct (Req_dec_T _ 0) as [E | _]; [contradiction|].
  now rewrite Hp.
Qed.

(** The free drag of zero length. *)
Lemma tkButtonMotion1_still (x y : Z) st (pressed_x pressed_y : Z) :
  mouse_pos_when_pressed st = Some (pressed_x, pressed_y) ->
  drag_amount (x - pressed_x) (y - pressed_y) = 0 ->
  tkButtonMotion1 update_view_state x y st
  = Returned (redraw_if_initialized
                (set_view_state (view_state_when_pressed st) st)).
Proof.
  intros Hm Hz. unfold tkButtonMotion1. rewrite Hm.
  destruct (Req_dec_T _ 0) as [_ | N]; [reflexivity | contradiction].
Qed.

(** C6. A free drag to a position other than the anchor builds the
    translation of direction (-dx/|delta|, dy/|delta|, 0) and distance
    |delta| * 0.01 and sets the view state to the update of the state captured
    at the press by it; delivering the same position again gives the same
    view state. *)
Theorem free_drag_is_relative_to_anchor (x y : Z) st (pressed_x pressed_y : Z)
        (pressed : ViewState) :
  mouse_pos_when_pressed st = Some (pressed_x, pressed_y) ->
  view_state_when_pressed st = Some pressed ->
  (x, y) <> (pressed_x, pressed_y) ->
  let dx := (x - pressed_x)%Z in
  let dy := (y - pressed_y)%Z in
  let amt := sqrt (IZR (dx ^ 2 + dy ^ 2)) in
  let operator :=
    unit_3_vector_and_distance_to_O13_hyperbolic_translation
      (V3 (- IZR dx / amt) (IZR dy / amt) 0) (amt * 0.01) in
  let st1 := state_of (tkButtonMotion1 update_view_state x y st) in
  amt <> 0
  /\ is_unit (V3 (- IZR dx / amt) (IZR dy / amt) 0)
  /\ has_returned (tkButtonMotion1 update_view_state x y st) = true
  /\ view_state st1 = Some (update_view_state pressed (Some operator))
  /\ view_state (state_of (tkButtonMotion1 update_view_state x y st1)) = view_state st1.
Proof.
  intros Hm Hp Hne dx dy amt operator st1.
  assert (Hamt : drag_amount dx dy <> 0).
  { intros Hz. apply drag_amount_zero in Hz as [Hx Hy].
    apply Hne. f_equal; subst dx dy; lia. }
  assert (Hop : free_drag_operator dx dy = operator).
  { unfold free_drag_operator, operator, amt, drag_amount. now rewrite opp_IZR. }
  assert (Hst1 : tkButtonMotion1 update_view_state x y st
                 = Returned
                     (redraw_if_initialized
                        (set_view_state
                           (Some (update_view_state pressed (Some operator))) st))).
  { rewrite <- Hop. now apply tkButtonMotion1_moves. }
  split; [exact Hamt|].
  split.
  { generalize (free_drag_direction_unit dx dy Hamt). now rewrite opp_IZR. }
  subst st1. rewrite Hst1. cbn [has_returned state_of]. nav_simpl.
  split; [reflexivity|]. split; [reflexivity|].
  rewrite (tkButtonMotion1_moves x y _ pressed_x pressed_y pressed);
    [ | exact Hm | exact Hp | exact Hamt ].
  cbn [state_of]. nav_simpl. fold dx dy. now rewrite Hop.
Qed.

(** C7. A free drag whose delta from the anchor has zero magnitude takes
    the branch of its own: the collaborator is not called, so no operator is
    built and nothing is divided or normalised, and the view state becomes
    the state captured at the press. *)
Theorem free_drag_of_zero_length (x y : Z) st (pressed_x pressed_y : Z) :
  mouse_pos_when_pressed st = Some (pressed_x, pressed_y) ->
  drag_amount (x - pressed_x) (y - pressed_y) = 0 ->
  tkButtonMotion1 update_view_state x y st
  = Returned (redraw_if_initialized
                (set_view_state (view_state_when_pressed st) st))
  /\ view_state (state_of (tkButtonMotion1 update_view_state x y st))
     = view_state_when_pressed st
  /\ (forall other_update : ViewState -> option matrix -> ViewState,
        tkButtonMotion1 other_update x y st
        = tkButtonMotion1 update_view_state x y st)
  /\ (forall st0 : Nav ViewState,
        view_state (run update_view_state [Button1 x y; B1Motion x y] st0)
        = view_state st0).
Proof.
  intros Hm Hz.
  rewrite (tkButtonMotion1_still x y st pressed_x pressed_y Hm Hz).
  split; [reflexivity|]. split; [reflexivity|]. split.
  - intros other. unfold tkButtonMotion1. rewrite Hm.
    destruct (Req_dec_T _ 0) as [_ | N]; [reflexivity | contradiction].
  - intros st0. unfold run. cbn [fold_left handle tkButton1 state_of].
    unfold tkButtonMotion1. nav_simpl.
    rewrite !Z.sub_diag.
    destruct (Req_dec_T _ 0) as [_ | N]; [reflexivity|].
    exfalso. apply N. apply drag_amount_zero. split; reflexivity.
Qed.

(** The part of C8 the code keeps: a drag handler whose anchor is [None]
    returns the state as it was, and a button release clears the anchor of
    the free and in-place gestures. *)
Lemma drag_without_anchor (x y : Z) st :
  (mouse_pos_when_pressed st = None ->
   tkButtonMotion1 update_view_state x y st = Returned st
   /\ tkCtrlButtonMotion1 update_view_state x y st = Returned st)
  /\ (last_mouse_pos st = None ->
      tkAltButtonMotion1 update_view_state x y st = Returned st).
Proof.
  split.
  - intros H. unfold tkButtonMotion1, tkCtrlButtonMotion1. now rewrite H.
  - intros H. unfold tkAltButtonMotion1. now rewrite H.
Qed.

Lemma release_clears_press_anchor st :
  mouse_pos_when_pressed (state_of (tkButtonRelease1 st)) = None
  /\ last_mouse_pos (state_of (tkButtonRelease1 st)) = last_mouse_pos st.
Proof. split; reflexivity. Qed.

End Gestures.

(* ===================================================================== *)
(** * The accumulators *)
(* ===================================================================== *)

Section Accumulators.

Context {ViewState : Type}.
Variable update_view_state : ViewState -> option matrix -> ViewState.
Implicit Types st : Nav ViewState.

(** C3, as the code has it. The accumulator of a tick starts at the
    identity, and the accumulated rotation of the orbit gesture is set to the
    identity by every orbit press that returns, as the press does when the
    width and the tangent are not zero and the depth lies in (-1, 1).  Each
    newly built operator is multiplied onto them from the right: the tick,
    for distances the operator library is used at, hands the collaborator the
    product of the held keys' operators in iteration order,
    accumulator * operator at every step; every orbit drag sample that finds
    an anchor and an accumulated rotation r turns it into
    r * (y_rotation(dx * 0.01) * x_rotation(dy * 0.01)); and after the drag
    samples that follow such a press the accumulated rotation is the product
    of their rotations, the first on the left. *)
Theorem accumulators_multiply_on_the_right :
  (forall st (vs : ViewState) (now : R),
      keys_inv st -> view_state st = Some vs -> still_held now st <> [] ->
      distances_bounded st now ->
      view_state (state_of (do_movement update_view_state now st))
      = Some (update_view_state vs
                (Some (right_product st now (still_held now st)))))
  /\ (forall st (now : R), right_product st now [] = identity)
  /\ (forall st (now : R) (keys : list string) (k : string) (op : matrix),
        key_operator st now k = Some op ->
        right_product st now (keys ++ [k]) = mul (right_product st now keys) op)
  /\ (forall (x y : Z) (d : R) (width height : Z) st,
        (has_returned (tkAltButton1 x y d width height st) = true ->
         orbit_rotation (state_of (tkAltButton1 x y d width height st))
         = Some identity)
        /\ (width <> 0%Z -> tan (fov st / 360 * PI) <> 0 -> Rabs d < 1 ->
            has_returned (tkAltButton1 x y d width height st) = true))
  /\ (forall (x y : Z) st (last : Z * Z) (rotation : matrix),
        last_mouse_pos st = Some last ->
        orbit_rotation st = Some rotation ->
        orbit_rotation (state_of (tkAltButtonMotion1 update_view_state x y st))
        = Some (mul rotation
                    (mul (O13_y_rotation (IZR (x - fst last) * 0.01))
                         (O13_x_rotation (IZR (y - snd last) * 0.01)))))
  /\ (forall (x y : Z) (d : R) (width height : Z) st (vs : ViewState)
             (samples : list (Z * Z)),
        view_state st = Some vs ->
        width <> 0%Z -> tan (fov st / 360 * PI) <> 0 -> Rabs d < 1 ->
        orbit_rotation
          (run update_view_state (orbit_drags samples)
               (state_of (tkAltButton1 x y d width height st)))
        = Some (right_rotation (deltas_from (x, y) samples))).
Proof.
  split; [| split; [| split; [| split; [| split]]]].
  - intros st vs now Hinv Hvs Hheld _.
    rewrite (do_movement_returns update_view_state now st vs Hinv Hvs).
    now rewrite (still_held_bound now st Hinv Hheld).
  - reflexivity.
  - intros st now keys k op Hop. unfold right_product, accumulate_right.
    rewrite fold_left_app. cbn [fold_left]. now rewrite Hop.
  - intros x y d width height st. split.
    + unfold tkAltButton1. repeat case_match; (discriminate || reflexivity).
    + intros Hw Ht Hd.
      now rewrite (tkAltButton1_returns x y d width height st Hw Ht Hd).
  - intros x y st [lx ly] rotation Hl Hr. unfold tkAltButtonMotion1.
    rewrite Hl, Hr. repeat case_match; reflexivity.
  - intros x y d width height st vs samples Hvs Hw Ht Hd.
    rewrite (tkAltButton1_returns x y d width height st Hw Ht Hd). cbn zeta.
    cbn [state_of].
    match goal with
    | |- context [run _ _ ?s] =>
        destruct (orbit_drags_run update_view_state samples s (x, y) identity
                    (unit_3_vector_and_distance_to_O13_hyperbolic_translation
                       (pick_direction x y width height (tan (fov st / 360 * PI)))
                       (atanh d))
                    (unit_3_vector_and_distance_to_O13_hyperbolic_translation
                       (pick_direction x y width height (tan (fov st / 360 * PI)))
                       (atanh (- d)))
                    vs) as (Hr & _); try reflexivity; [exact Hvs|]
    end.
    exact Hr.
Qed.

End Accumulators.

(* ===================================================================== *)
(** * What holds of every state the widget can reach *)
(* ===================================================================== *)

Section Reachable.

Context {ViewState : Type}.
Variable initial_view_state : ViewState.
Variable update_view_state : ViewState -> option matrix -> ViewState.
Implicit Types st : Nav ViewState.

Lemma keys_inv_frame st st' :
  current_keys_pressed st' = current_keys_pressed st ->
  last_time st' = last_time st ->
  keys_inv st -> keys_inv st'.
Proof. unfold keys_inv. intros -> ->. trivial. Qed.

Lemma keys_inv_init (view0 : Z) (fov0 : R) : keys_inv (init initial_view_state view0 fov0).
Proof.
  split; cbn.
  - apply NoDup_nil_2.
  - intros k Hk. inversion Hk.
Qed.

Lemma keys_inv_key_press (k : string) (now : R) st :
  keys_inv st -> keys_inv (state_of (tkKeyPress k now st)).
Proof.
  intros Hinv. destruct (is_movement_key k) eqn:Hb.
  - destruct (decide (k ∈ current_keys_pressed st)) as [Hk | Hk].
    + rewrite (key_press_held k now st Hb Hk). exact Hinv.
    + rewrite (key_press_new k now st Hb Hk). destruct Hinv as [Hnd Hkeys].
      split; nav_simpl.
      * apply NoDup_app. split; [exact Hnd|]. split; [| apply NoDup_singleton].
        intros x Hx Hx'. apply list_elem_of_singleton in Hx' as ->. contradiction.
      * intros x Hx. apply elem_of_app in Hx as [Hx | Hx].
        -- destruct (Hkeys x Hx) as [Hbx Hsx]. split; [exact Hbx|].
           apply lookup_insert_is_Some. destruct (decide (k = x)); [now left | now right].
        -- apply list_elem_of_singleton in Hx as ->. split.
           ++ now apply is_movement_key_Some.
           ++ rewrite lookup_insert_eq. eauto.
  - unfold tkKeyPress. rewrite (key_press_movement_unbound k now st Hb).
    repeat (destruct (decide _)); exact Hinv.
Qed.

Lemma keys_inv_do_movement (now : R) st :
  keys_inv st -> is_Some (view_state st) ->
  keys_inv (state_of (do_movement update_view_state now st)).
Proof.
  intros Hinv [vs Hvs]. rewrite (do_movement_returns update_view_state now st vs Hinv Hvs).
  destruct Hinv as [Hnd Hkeys].
  assert (Hsub : forall k, k ∈ still_held now st -> k ∈ current_keys_pressed st).
  { intros k Hk. now apply list_elem_of_filter in Hk as [_ Hk]. }
  destruct (existsb _ _); cbn [state_of]; split; nav_simpl.
  - unfold still_held. now apply NoDup_filter.
  - intros k Hk. destruct (Hkeys k (Hsub k Hk)) as [Hb Hs]. split; [exact Hb|].
    rewrite stamp_keys_lookup. destruct (decide _); [eauto | exact Hs].
  - unfold still_held. now apply NoDup_filter.
  - intros k Hk. exact (Hkeys k (Hsub k Hk)).
Qed.

Lemma views_inv_do_movement (now : R) st :
  keys_inv st -> views_inv st ->
  views_inv (state_of (do_movement update_view_state now st)).
Proof.
  intros Hinv ([vs Hvs] & Hm & Hl).
  rewrite (do_movement_returns update_view_state now st vs Hinv Hvs).
  destruct (existsb _ _); cbn [state_of]; unfold views_inv; nav_simpl;
    (split; [eauto | split; assumption]).
Qed.

Lemma inv_handle (ev : event) st :
  keys_inv st /\ views_inv st ->
  keys_inv (state_of (handle update_view_state ev st))
  /\ views_inv (state_of (handle update_view_state ev st)).
Proof.
  intros [Hk Hv]. pose proof Hv as Hv0.
  destruct ev as [| k now | k now | now | x y | | x y | x y | x y d w h | x y];
    cbn [handle].
  - split; assumption.
  - split; [now apply keys_inv_key_press|].
    destruct Hv as (Hvs & Hm & Hl).
    destruct (is_movement_key k) eqn:Hb.
    + destruct (decide (k ∈ current_keys_pressed st)) as [Hin | Hin].
      * rewrite (key_press_held k now st Hb Hin). repeat split; assumption.
      * rewrite (key_press_new k now st Hb Hin). repeat split; assumption.
    + unfold tkKeyPress. rewrite (key_press_movement_unbound k now st Hb).
      repeat (destruct (decide _)); repeat split; assumption.
  - split; [exact Hk | exact Hv].
  - unfold fire_timer. destruct (after_queue st) as [| delay pending]; [now split|].
    split.
    + apply keys_inv_do_movement; [exact Hk | apply Hv].
    + apply views_inv_do_movement; [exact Hk | exact Hv].
  - split; [exact Hk|]. destruct Hv as (Hvs & Hm & Hl).
    unfold views_inv; cbn. repeat split; eauto.
  - split; [exact Hk|]. destruct Hv as (Hvs & Hm & Hl).
    unfold views_inv; cbn. split; [exact Hvs|]. split; [| exact Hl].
    intros [? ?]; discriminate.
  - destruct Hv as ([vs Hvs] & Hm & Hl). unfold tkButtonMotion1.
    destruct (mouse_pos_when_pressed st) as [[px py] |] eqn:E;
      [| cbn [state_of]; split; [exact Hk | exact Hv0]].
    destruct Hm as [pressed Hp]; [eauto|]. rewrite Hp.
    destruct (Req_dec_T _ 0); cbn [state_of];
      (split; [exact Hk|]); unfold views_inv; nav_simpl; rewrite ?E, ?Hp; eauto.
  - destruct Hv as ([vs Hvs] & Hm & Hl). unfold tkCtrlButtonMotion1.
    destruct (mouse_pos_when_pressed st) as [[px py] |] eqn:E;
      [| cbn [state_of]; split; [exact Hk | exact Hv0]].
    rewrite Hvs. cbn [state_of]. split; [exact Hk|].
    unfold views_inv; nav_simpl. split; [eauto|]. split; [| exact Hl].
    intros _. apply Hm. eauto.
  - destruct Hv as ([vs Hvs] & Hm & Hl).
    assert (Hbase : forall st1, current_keys_pressed st1 = current_keys_pressed st ->
                      last_time st1 = last_time st ->
                      view_state st1 = view_state st ->
                      view_state_when_pressed st1 = view_state st ->
                      keys_inv st1 /\ views_inv st1).
    { intros st1 H1 H2 H3 H4. split; [now apply (keys_inv_frame st)|].
      unfold views_inv. rewrite H3, H4, Hvs. repeat split; eauto. }
    unfold tkAltButton1. repeat case_match; cbn [state_of]; apply Hbase; reflexivity.
  - destruct Hv as ([vs Hvs] & Hm & Hl). unfold tkAltButtonMotion1.
    destruct (last_mouse_pos st) as [[lx ly] |] eqn:E;
      [| cbn [state_of]; split; [exact Hk | exact Hv0]].
    destruct Hl as [pressed Hp]; [eauto|].
    assert (Hbase : forall st1, current_keys_pressed st1 = current_keys_pressed st ->
                      last_time st1 = last_time st ->
                      is_Some (view_state st1) ->
                      view_state_when_pressed st1 = view_state_when_pressed st ->
                      keys_inv st1 /\ views_inv st1).
    { intros st1 H1 H2 H3 H4. split; [now apply (keys_inv_frame st)|].
      unfold views_inv. rewrite H4, Hp. repeat split; eauto. }
    repeat case_match; cbn [state_of]; apply Hbase; nav_simpl;
      try reflexivity; try (rewrite Hvs; eauto); eauto; congruence.
Qed.

(** Every state reached from a widget just constructed satisfies the key
    invariant and has a view state. *)
Lemma reachable_inv (evs : list event) (view0 : Z) (fov0 : R) :
  keys_inv (run update_view_state evs (init initial_view_state view0 fov0))
  /\ views_inv (run update_view_state evs (init initial_view_state view0 fov0)).
Proof.
  assert (H0 : keys_inv (init initial_view_state view0 fov0)
               /\ views_inv (init initial_view_state view0 fov0)).
  { split; [apply keys_inv_init|]. unfold views_inv; cbn.
    split; [eauto|]. split; intros [? ?]; discriminate. }
  revert H0. generalize (init initial_view_state view0 fov0).
  induction evs as [| ev evs IH]; intros st H; [exact H|].
  rewrite run_cons. apply IH. now apply inv_handle.
Qed.

(** So no reachable tick raises: the stamps it reads are there, and so is
    the view state it hands over. *)
Lemma reachable_tick_returns (evs : list event) (view0 : Z) (fov0 : R) (now : R) :
  has_returned
    (do_movement update_view_state now
       (run update_view_state evs (init initial_view_state view0 fov0))) = true.
Proof.
  destruct (reachable_inv evs view0 fov0) as [Hk ([vs Hvs] & _)].
  rewrite (do_movement_returns update_view_state now _ vs Hk Hvs).
  destruct (existsb _ _); reflexivity.
Qed.

End Reachable.

(* ===================================================================== *)
(** * The operators handed to the collaborator *)
(* ===================================================================== *)

Lemma ops_inv_frame (st st' : Nav logged_view) :
  view_state st' = view_state st ->
  view_state_when_pressed st' = view_state_when_pressed st ->
  orbit_translation st' = orbit_translation st ->
  orbit_inv_translation st' = orbit_inv_translation st ->
  orbit_rotation st' = orbit_rotation st ->
  ops_inv st -> ops_inv st'.
Proof. unfold ops_inv. intros -> -> -> -> ->. trivial. Qed.

Lemma all_nav_logged (log : logged_view) (M : matrix) :
  Forall nav_operator log -> nav_operator M ->
  all_nav (Some (logging_update log (Some M))).
Proof.
  intros Hlog HM. cbn. apply Forall_app. split; [exact Hlog|].
  apply Forall_cons. split; [exact HM | apply Forall_nil_2].
Qed.

Lemma nav_orbit_sample (delta_x delta_y : Z) :
  nav_operator (orbit_sample_rotation delta_x delta_y).
Proof. apply nav_mul; [apply nav_y_rotation | apply nav_x_rotation]. Qed.

Lemma nav_ctrl_sample (delta_x delta_y : Z) :
  nav_operator (ctrl_sample_rotation delta_x delta_y).
Proof. apply nav_mul; [apply nav_y_rotation | apply nav_x_rotation]. Qed.

(** The accumulator of the loop over the held keys is a product of
    operators of the key bindings. *)
Lemma movement_loop_nav {ViewState : Type} (keys : list string) (now : R)
      (st : Nav ViewState) (m : matrix) (a : bool) :
  nav_operator m ->
  nav_operator (state_of (movement_loop keys now st m a)).1.2.
Proof.
  revert st m a. induction keys as [| k keys IH]; intros st m a Hm; [exact Hm|].
  cbn [movement_loop].
  destruct (_key_movement_bindings !! k) as [binding |] eqn:Hb; [| now apply IH].
  destruct (last_time st !! k) as [t |]; [| exact Hm].
  apply IH. apply nav_mul; [exact Hm|]. now apply (nav_key k).
Qed.

Lemma ops_inv_do_movement (now : R) (st : Nav logged_view) :
  ops_inv st -> ops_inv (state_of (do_movement logging_update now st)).
Proof.
  intros Hinv. unfold do_movement.
  match goal with
  | |- context [movement_loop ?ks now ?s ?m ?a] =>
      destruct (movement_loop_frame ks now s m a) as [stamps Hs];
      pose proof (movement_loop_nav ks now s m a nav_identity) as Hm;
      destruct (movement_loop ks now s m a) as [[[st2 m2] a2] | e [[st2 m2] a2]]
  end; cbn in Hs, Hm; subst st2; cbn [state_of].
  - destruct a2; cbn [negb]; [| now apply (ops_inv_frame st)].
    nav_simpl. destruct (view_state st) as [log |] eqn:Hvs;
      [| now apply (ops_inv_frame st)].
    cbn [state_of]. destruct Hinv as (Hv & Hp & Ht & Hi & Hr).
    unfold ops_inv; nav_simpl. rewrite Hvs in Hv.
    split; [now apply all_nav_logged|]. repeat split; assumption.
  - now apply (ops_inv_frame st).
Qed.

Lemma ops_inv_handle (ev : event) (st : Nav logged_view) :
  ops_inv st -> ops_inv (state_of (handle logging_update ev st)).
Proof.
  intros Hinv. pose proof Hinv as (Hv & Hp & Ht & Hi & Hr).
  destruct ev as [| k now | k now | now | x y | | x y | x y | x y d w h | x y];
    cbn [handle].
  - exact Hinv.
  - apply (ops_inv_frame st); try exact Hinv;
      unfold tkKeyPress, key_press_movement; repeat case_match; reflexivity.
  - exact Hinv.
  - unfold fire_timer. destruct (after_queue st); [exact Hinv|].
    apply ops_inv_do_movement. now apply (ops_inv_frame st).
  - unfold ops_inv; cbn. repeat split; assumption.
  - exact Hinv.
  - unfold tkButtonMotion1.
    destruct (mouse_pos_when_pressed st) as [[px py] |]; [| exact Hinv].
    destruct (Req_dec_T _ 0) as [_ | Hamt]; cbn [state_of].
    + unfold ops_inv; nav_simpl. repeat split; assumption.
    + destruct (view_state_when_pressed st) as [log |] eqn:E; [| exact Hinv].
      cbn [state_of]. unfold ops_inv; nav_simpl. rewrite E.
      split; [| repeat split; assumption].
      apply all_nav_logged; [exact Hp | now apply nav_free_drag].
  - unfold tkCtrlButtonMotion1.
    destruct (mouse_pos_when_pressed st) as [[px py] |]; [| exact Hinv].
    destruct (view_state st) as [log |] eqn:E; [| exact Hinv].
    cbn [state_of]. unfold ops_inv; nav_simpl.
    split; [| repeat split; assumption].
    apply all_nav_logged; [exact Hv | apply nav_ctrl_sample].
  - unfold tkAltButton1. nav_simpl.
    destruct (decide (w = 0%Z)) as [_ | Hw]; cbn [state_of];
      [unfold ops_inv; nav_simpl; repeat split; assumption|].
    destruct (Req_dec_T _ 0) as [_ | Htan]; cbn [state_of];
      [unfold ops_inv; nav_simpl; repeat split; assumption|].
    destruct (Rlt_dec _ 1); cbn [state_of]; unfold ops_inv; nav_simpl;
      repeat split; try assumption.
    + now apply nav_orbit_translation.
    + now apply nav_orbit_translation.
    + apply nav_identity.
  - unfold tkAltButtonMotion1.
    destruct (last_mouse_pos st) as [[lx ly] |]; [| exact Hinv].
    destruct (orbit_rotation st) as [rotation |] eqn:Er; [| exact Hinv].
    assert (Hrot : nav_operator (mul rotation (orbit_sample_rotation (x - lx) (y - ly))))
      by (apply nav_mul; [exact Hr | apply nav_orbit_sample]).
    nav_simpl.
    destruct (orbit_translation st) as [translation |] eqn:Et;
      [| cbn [state_of]; unfold ops_inv; nav_simpl; rewrite Et;
         repeat split; assumption].
    destruct (orbit_inv_translation st) as [inv_translation |] eqn:Ei;
      [| cbn [state_of]; unfold ops_inv; nav_simpl; rewrite Et, Ei;
         repeat split; assumption].
    destruct (view_state_when_pressed st) as [log |] eqn:Ep;
      cbn [state_of]; unfold ops_inv; nav_simpl; rewrite ?Et, ?Ei, ?Ep;
      repeat split; try assumption.
    apply all_nav_logged; [exact Hp|].
    apply nav_mul; [apply nav_mul|]; assumption.
Qed.

(** Whatever the events, every operator the collaborator was handed since
    the widget was constructed is an operator of [nav_operator], and so
    preserves the quadratic form. *)
Lemma handed_operators_are_nav (evs : list event) (view0 : Z) (fov0 : R) :
  all_nav (view_state (run logging_update evs (init [] view0 fov0))).
Proof.
  assert (H0 : ops_inv (init [] view0 fov0)).
  { unfold ops_inv; cbn. repeat split; try apply Forall_nil_2; trivial. }
  set (st0 := init [] view0 fov0) in *. clearbody st0. revert st0 H0.
  induction evs as [| ev evs IH]; intros st H; [apply H|].
  rewrite run_cons. apply IH. now apply ops_inv_handle.
Qed.

Lemma handed_operators_preserve_Q (evs : list event) (view0 : Z) (fov0 : R)
      (log : logged_view) (Op : matrix) :
  view_state (run logging_update evs (init [] view0 fov0)) = Some log ->
  Op ∈ log -> preserves_Q Op.
Proof.
  intros Hlog HOp. generalize (handed_operators_are_nav evs view0 fov0).
  rewrite Hlog. cbn. intros Hall.
  apply nav_operator_lorentz. revert Op HOp. now apply Forall_forall.
Qed.

(* ===================================================================== *)
(** * Tick chains *)
(* ===================================================================== *)

Section TickChains.

Context {ViewState : Type}.
Variable update_view_state : ViewState -> option matrix -> ViewState.
Implicit Types st : Nav ViewState.

Lemma still_held_all (now : R) st :
  (forall k, k ∈ current_keys_pressed st -> time_key_release_received st !! k = None) ->
  still_held now st = current_keys_pressed st.
Proof.
  intros H. unfold still_held. apply filter_all.
  intros k Hk. apply release_expired_none. now apply H.
Qed.

(** A tick that fires while a key is still held takes its own callback off
    the queue and arms the next one: the chain goes on. *)
Lemma fire_timer_rearms (now : R) st (vs : ViewState) (delay : Z) (pending : list Z) :
  keys_inv st -> view_state st = Some vs ->
  after_queue st = delay :: pending ->
  still_held now st <> [] ->
  let st' := state_of (fire_timer update_view_state now st) in
  after_queue st' = pending ++ [refresh_delay st]
  /\ current_keys_pressed st' = still_held now st
  /\ time_key_release_received st' = time_key_release_received st
  /\ refresh_delay st' = refresh_delay st.
Proof.
  intros Hinv Hvs Hq Hheld. cbn zeta. unfold fire_timer. rewrite Hq.
  assert (Hinv' : keys_inv (set_after_queue pending st))
    by now apply (keys_inv_frame st).
  rewrite (do_movement_returns update_view_state now _ vs Hinv' Hvs).
  change (still_held now (set_after_queue pending st)) with (still_held now st).
  rewrite (still_held_bound now st Hinv Hheld).
  cbn [state_of]. nav_simpl. repeat split; reflexivity.
Qed.

End TickChains.

(* ===================================================================== *)
(** * Closed examples on a widget just constructed *)
(* ===================================================================== *)

Lemma PI_gt_2 : 2 < PI.
Proof. generalize PI2_1. lra. Qed.

Lemma fresh_tangent : tan (fov fresh / 360 * PI) <> 0.
Proof.
  unfold fresh, init. cbn [fov].
  replace (90 / 360 * PI) with (PI / 4) by lra.
  rewrite tan_PI4. lra.
Qed.

Lemma half_depth : Rabs 0.5 < 1.
Proof. rewrite Rabs_pos_eq by lra. lra. Qed.

(** The widget after "a" was pressed at time 0. *)
Lemma fresh_press_a :
  tkKeyPress "a" 0 fresh
  = Returned
      (after 1
         (set_current_keys_pressed ["a"%string]
            (set_last_time (<["a"%string := 0]> ∅)
               (set_time_key_release_received (delete "a"%string ∅) fresh)))).
Proof. rewrite key_press_new; [reflexivity | reflexivity | apply not_elem_of_nil]. Qed.

(** The widget after an orbit press at pixel (100, 100) of an 800 x 600
    viewport, the depth read back being 0.5. *)
Lemma fresh_orbit_press :
  tkAltButton1 100 100 0.5 800 600 fresh
  = let dir := pick_direction 100 100 800 600 (tan (fov fresh / 360 * PI)) in
    Returned
      (set_orbit_rotation (Some identity)
         (set_orbit_inv_translation
            (Some (unit_3_vector_and_distance_to_O13_hyperbolic_translation
                     dir (atanh (Ropp 0.5))))
            (set_orbit_translation
               (Some (unit_3_vector_and_distance_to_O13_hyperbolic_translation
                        dir (atanh 0.5)))
               (set_view_state_when_pressed (view_state fresh)
                  (set_last_mouse_pos (Some (100, 100)%Z) fresh))))).
Proof.
  apply tkAltButton1_returns; [lia | exact fresh_tangent | exact half_depth].
Qed.

Lemma sin_hundredth_pos : 0 < sin (1 * 0.01).
Proof. apply sin_gt_0; [lra | generalize PI_gt_2; lra]. Qed.

(** Two drag samples, one to the right and one down, do not commute. *)
Lemma right_left_differ :
  right_rotation [(1, 0); (0, 1)]%Z <> left_rotation_spec [(1, 0); (0, 1)]%Z.
Proof.
  intros H. apply (f_equal (fun M => x2 (row1 M))) in H.
  cbv [right_rotation left_rotation_spec fold_left mul row_mul vadd vscale
       orbit_sample_rotation O13_y_rotation O13_x_rotation identity
       row0 row1 row2 row3 t0 x1 x2 x3 fst snd] in H.
  rewrite !Rmult_0_l, cos_0, sin_0 in H.
  generalize sin_hundredth_pos. revert H.
  generalize (sin (1 * 0.01)) (cos (1 * 0.01)). intros s c H Hs.
  assert (E : s * s = 0) by (ring_simplify in H; nra).
  nra.
Qed.

(** The widget that holds "a": what a tick at time 1 finds. *)
Lemma fresh_a_keys_inv : keys_inv (state_of (tkKeyPress "a" 0 fresh)).
Proof. apply keys_inv_key_press. apply keys_inv_init. Qed.

Lemma fresh_a_view : view_state (state_of (tkKeyPress "a" 0 fresh)) = Some [].
Proof. now rewrite fresh_press_a. Qed.

Lemma fresh_a_still_held : still_held 1 (state_of (tkKeyPress "a" 0 fresh)) <> [].
Proof.
  rewrite (still_held_singleton_kept 1 _ "a").
  - discriminate.
  - now rewrite fresh_press_a.
  - rewrite fresh_press_a. cbn. apply lookup_delete_eq.
Qed.

(** C1, at the operator "a" is bound to, distance 1, and the vector
    (1, 0, 0, 0). *)
Lemma nav_operator_preserves_Q_witness :
  nav_operator (unit_3_vector_and_distance_to_O13_hyperbolic_translation (V3 (-1) 0 0) 1)
  /\ Q (apply (unit_3_vector_and_distance_to_O13_hyperbolic_translation (V3 (-1) 0 0) 1)
              (V4 1 0 0 0))
     = Q (V4 1 0 0 0).
Proof.
  split.
  - exact (nav_key "a" _ 0 1 binding_a).
  - apply nav_operator_preserves_Q. exact (nav_key "a" _ 0 1 binding_a).
Defined.

(** The widget after "a" and then "d" were pressed. *)
Lemma fresh_press_a_d :
  run logging_update [KeyPress "a" 0; KeyPress "d" 0.001] fresh
  = set_after_queue [1; 1]%Z
      (set_current_keys_pressed ["a"; "d"]%string
         (set_last_time (<["d"%string := 0.001]> (<["a"%string := 0]> ∅))
            (set_time_key_release_received ∅ fresh))).
Proof.
  rewrite run_cons. cbn [handle]. rewrite fresh_press_a. cbn [state_of].
  rewrite run_cons, run_nil. cbn [handle].
  rewrite key_press_new.
  - cbn [state_of]. nav_simpl. rewrite !delete_empty. reflexivity.
  - reflexivity.
  - nav_simpl. apply not_elem_of_cons. split; [discriminate | apply not_elem_of_nil].
Qed.

(** C2 fails as stated: with "a" held, pressing "d" arms a second tick
    callback; both callbacks fire and each arms its successor, so two tick
    chains are in flight. *)
Lemma second_key_starts_second_tick_chain :
  ~ at_most_one_tick_chain
      (run logging_update [KeyPress "a" 0; KeyPress "d" 0.001] fresh)
  /\ ~ at_most_one_tick_chain
         (run logging_update
              [KeyPress "a" 0; KeyPress "d" 0.001; Timer 0.002; Timer 0.003] fresh).
Proof.
  unfold at_most_one_tick_chain.
  set (s2 := run logging_update [KeyPress "a" 0; KeyPress "d" 0.001] fresh).
  assert (Hq2 : after_queue s2 = [1; 1]%Z) by (subst s2; now rewrite fresh_press_a_d).
  assert (Hh2 : current_keys_pressed s2 = ["a"; "d"]%string)
    by (subst s2; now rewrite fresh_press_a_d).
  assert (Hr2 : time_key_release_received s2 = ∅)
    by (subst s2; now rewrite fresh_press_a_d).
  assert (Hd2 : refresh_delay s2 = 10%Z) by (subst s2; now rewrite fresh_press_a_d).
  destruct (reachable_inv [] logging_update
              [KeyPress "a" 0; KeyPress "d" 0.001] 0 90) as [Hk2 ([vs2 Hv2] & _)].
  fold fresh in Hk2, Hv2. fold s2 in Hk2, Hv2.
  assert (Hs2 : still_held 0.002 s2 = ["a"; "d"]%string).
  { rewrite still_held_all; [exact Hh2|]. intros k _. rewrite Hr2. apply lookup_empty. }
  split; [rewrite Hq2; cbn; lia|].
  change (run logging_update
              [KeyPress "a" 0; KeyPress "d" 0.001; Timer 0.002; Timer 0.003] fresh)
    with (state_of (fire_timer logging_update 0.003
                      (state_of (fire_timer logging_update 0.002 s2)))).
  destruct (fire_timer_rearms logging_update 0.002 s2 vs2 1 [1%Z] Hk2 Hv2 Hq2)
    as (Hq3 & Hh3 & Hr3 & Hd3); [rewrite Hs2; discriminate|].
  set (s3 := state_of (fire_timer logging_update 0.002 s2)) in *.
  destruct (inv_handle logging_update (Timer 0.002) s2) as [Hk3 ([vs3 Hv3] & _)].
  { split; [exact Hk2|]. apply (reachable_inv [] logging_update
              [KeyPress "a" 0; KeyPress "d" 0.001] 0 90). }
  cbn [handle] in Hk3, Hv3. fold s3 in Hk3, Hv3.
  assert (Hs3 : still_held 0.003 s3 = ["a"; "d"]%string).
  { rewrite still_held_all; [now rewrite Hh3, Hs2|].
    intros k _. rewrite Hr3, Hr2. apply lookup_empty. }
  destruct (fire_timer_rearms logging_update 0.003 s3 vs3 1 [refresh_delay s2]
              Hk3 Hv3) as (Hq4 & _); [now rewrite Hq3 | rewrite Hs3; discriminate|].
  rewrite Hq4. cbn. lia.
Qed.

(** After an orbit press and two drag samples, one to the right and one
    down, the accumulated rotation is not the one obtained by multiplying each
    new rotation on the left. *)
Lemma two_orbit_drags_not_left_multiplied :
  orbit_rotation
    (run logging_update
         [AltButton1 100 100 0.5 800 600; AltB1Motion 101 100; AltB1Motion 101 101]
         fresh)
  <> Some (left_rotation_spec [(1, 0); (0, 1)]%Z).
Proof.
  rewrite run_cons. cbn [handle]. rewrite fresh_orbit_press. cbn zeta. cbn [state_of].
  match goal with
  | |- orbit_rotation (run _ _ ?s) <> _ =>
      destruct (orbit_drags_run logging_update [(101, 100); (101, 101)]%Z s
                  (100, 100)%Z identity
                  (unit_3_vector_and_distance_to_O13_hyperbolic_translation
                     (pick_direction 100 100 800 600 (tan (fov fresh / 360 * PI)))
                     (atanh 0.5))
                  (unit_3_vector_and_distance_to_O13_hyperbolic_translation
                     (pick_direction 100 100 800 600 (tan (fov fresh / 360 * PI)))
                     (atanh (Ropp 0.5)))
                  [])
        as (Hr & _); try reflexivity
  end.
  change (orbit_drags [(101, 100); (101, 101)]%Z)
    with [AltB1Motion 101 100; AltB1Motion 101 101] in Hr.
  rewrite Hr.
  change (fold_left _ (deltas_from (100, 100)%Z [(101, 100); (101, 101)]%Z) identity)
    with (right_rotation [(1, 0); (0, 1)]%Z).
  intros H. apply right_left_differ. apply (inj Some). exact H.
Qed.

Lemma unit_depth : 1 <= Rabs 1.
Proof. rewrite Rabs_R1. lra. Qed.

(** An orbit press on the background, where the depth read back is 1. *)
Lemma fresh_background_press :
  tkAltButton1 100 100 1 800 600 fresh
  = Raised ValueError
      (set_view_state_when_pressed (view_state fresh)
         (set_last_mouse_pos (Some (100, 100)%Z) fresh)).
Proof.
  destruct (tkAltButton1_raises 100 100 1 800 600 fresh) as (e & He & _ & Hv);
    [right; right; exact unit_depth|].
  rewrite He. f_equal. apply Hv. split; [lia | exact fresh_tangent].
Qed.

(** One drag sample to the right is not the identity. *)
Lemma sample_rotation_not_identity : orbit_sample_rotation 1 0 <> identity.
Proof.
  intros H. apply (f_equal (fun M => x3 (row1 M))) in H.
  cbv [mul row_mul vadd vscale orbit_sample_rotation O13_y_rotation O13_x_rotation
       identity row0 row1 row2 row3 t0 x1 x2 x3] in H.
  replace (0 * 0.01) with 0 in H by ring. rewrite cos_0, sin_0 in H.
  generalize sin_hundredth_pos. lra.
Qed.

(** The widget after an orbit press at (100, 100) that returns, one drag
    sample to the right, and an orbit press on the background at
    (300, 300), where the depth read back is 1: the press raises, and the
    accumulated rotation is the one the drag has left. *)
Lemma fresh_background_press_after_drag :
  let dragged :=
    run logging_update [AltButton1 100 100 0.5 800 600; AltB1Motion 101 100] fresh in
  handle logging_update (AltButton1 300 300 1 800 600) dragged
  = Raised ValueError
      (set_view_state_when_pressed (view_state dragged)
         (set_last_mouse_pos (Some (300, 300)%Z) dragged))
  /\ orbit_rotation dragged = Some (right_rotation [(1, 0)%Z]).
Proof.
  cbn zeta.
  assert (Hd : orbit_rotation
                 (run logging_update
                      [AltButton1 100 100 0.5 800 600; AltB1Motion 101 100] fresh)
               = Some (right_rotation [(1, 0)%Z])
               /\ fov (run logging_update
                           [AltButton1 100 100 0.5 800 600; AltB1Motion 101 100] fresh)
                  = fov fresh).
  { rewrite run_cons. cbn [handle]. rewrite fresh_orbit_press. cbn zeta. cbn [state_of].
    rewrite run_cons, run_nil. cbn [handle].
    match goal with
    | |- context [tkAltButtonMotion1 _ _ _ ?s] =>
        rewrite (tkAltButtonMotion1_returns logging_update 101 100 s (100, 100)%Z identity
                   (unit_3_vector_and_distance_to_O13_hyperbolic_translation
                      (pick_direction 100 100 800 600 (tan (fov fresh / 360 * PI)))
                      (atanh 0.5))
                   (unit_3_vector_and_distance_to_O13_hyperbolic_translation
                      (pick_direction 100 100 800 600 (tan (fov fresh / 360 * PI)))
                      (atanh (Ropp 0.5)))
                   []) by reflexivity
    end.
    cbn zeta. cbn [state_of]. split; reflexivity. }
  destruct Hd as [Hrot Hfov]. split; [| exact Hrot].
  cbn [handle].
  match goal with
  | |- tkAltButton1 _ _ _ _ _ ?s = _ =>
      destruct (tkAltButton1_raises 300 300 1 800 600 s) as (e & He & _ & Hv);
        [right; right; exact unit_depth|]
  end.
  rewrite He. f_equal. apply Hv. split; [lia|]. rewrite Hfov. exact fresh_tangent.
Qed.

(** C3 fails as stated.  After an orbit press and two drag samples, one to
    the right and one down, the accumulated rotation is not the one obtained
    by multiplying each new rotation on the left.  And the accumulated
    rotation does not start at the identity in every gesture: an orbit press
    on the background, where the depth read back is 1, raises before it
    resets the rotation, so the rotation is still the one of the gesture
    before, and the next drag sample multiplies onto that. *)
Lemma orbit_rotation_neither_left_multiplied_nor_reset :
  orbit_rotation
    (run logging_update
         [AltButton1 100 100 0.5 800 600; AltB1Motion 101 100; AltB1Motion 101 101]
         fresh)
  <> Some (left_rotation_spec [(1, 0); (0, 1)]%Z)
  /\ (let pressed_again :=
        run logging_update
            [AltButton1 100 100 0.5 800 600; AltB1Motion 101 100;
             AltButton1 300 300 1 800 600] fresh in
      last_mouse_pos pressed_again = Some (300, 300)%Z
      /\ orbit_rotation pressed_again <> Some identity
      /\ orbit_rotation (state_of (tkAltButtonMotion1 logging_update 301 300 pressed_again))
         = Some (right_rotation [(1, 0); (1, 0)]%Z)).
Proof.
  split; [exact two_orbit_drags_not_left_multiplied|].
  cbn zeta.
  change (run logging_update
            [AltButton1 100 100 0.5 800 600; AltB1Motion 101 100;
             AltButton1 300 300 1 800 600] fresh)
    with (state_of (handle logging_update (AltButton1 300 300 1 800 600)
                      (run logging_update
                           [AltButton1 100 100 0.5 800 600; AltB1Motion 101 100] fresh))).
  destruct fresh_background_press_after_drag as [Hpress Hrot]. cbn zeta in Hpress, Hrot.
  rewrite Hpress. cbn [state_of]. nav_simpl.
  split; [reflexivity|]. split.
  - rewrite Hrot. intros H. apply sample_rotation_not_identity.
    apply (inj Some) in H. unfold right_rotation in H. cbn [fold_left fst snd] in H.
    now rewrite mul_identity_l in H.
  - unfold tkAltButtonMotion1. nav_simpl. rewrite Hrot.
    repeat case_match; reflexivity.
Qed.

(** The widget after "a" and then "Left" were pressed. *)
Lemma fresh_press_a_Left :
  run logging_update [KeyPress "a" 0; KeyPress "Left" 0.001] fresh
  = set_after_queue [1; 1]%Z
      (set_current_keys_pressed ["a"; "Left"]%string
         (set_last_time (<["Left"%string := 0.001]> (<["a"%string := 0]> ∅))
            (set_time_key_release_received ∅ fresh))).
Proof.
  rewrite run_cons. cbn [handle]. rewrite fresh_press_a. cbn [state_of].
  rewrite run_cons, run_nil. cbn [handle].
  rewrite key_press_new.
  - cbn [state_of]. nav_simpl. rewrite !delete_empty. reflexivity.
  - reflexivity.
  - nav_simpl. apply not_elem_of_cons. split; [discriminate | apply not_elem_of_nil].
Qed.

Lemma fresh_a_Left_keys_inv :
  keys_inv (run logging_update [KeyPress "a" 0; KeyPress "Left" 0.001] fresh).
Proof. apply (reachable_inv [] logging_update [KeyPress "a" 0; KeyPress "Left" 0.001] 0 90). Qed.

Lemma fresh_a_Left_still_held :
  still_held 1 (run logging_update [KeyPress "a" 0; KeyPress "Left" 0.001] fresh)
  = ["a"; "Left"]%string.
Proof.
  rewrite still_held_all; rewrite fresh_press_a_Left; [reflexivity|].
  intros k _. apply lookup_empty.
Qed.

Lemma fresh_a_Left_bounded :
  distances_bounded (run logging_update [KeyPress "a" 0; KeyPress "Left" 0.001] fresh) 1.
Proof.
  intros k t Hk _ Ht. rewrite fresh_a_Left_still_held in Hk.
  rewrite fresh_press_a_Left in Ht. rewrite fresh_press_a_Left.
  cbn [last_time translationVelocity set_after_queue set_current_keys_pressed
       set_last_time set_time_key_release_received fresh init] in *.
  unfold bounded_distance.
  apply elem_of_cons in Hk as [-> | Hk].
  - rewrite lookup_insert_ne in Ht by discriminate.
    rewrite lookup_insert_eq in Ht. injection Ht as <-.
    rewrite Rabs_pos_eq; lra.
  - apply list_elem_of_singleton in Hk as ->.
    rewrite lookup_insert_eq in Ht. injection Ht as <-.
    rewrite Rabs_pos_eq; lra.
Qed.

Lemma fresh_a_Left_view :
  view_state (run logging_update [KeyPress "a" 0; KeyPress "Left" 0.001] fresh) = Some [].
Proof. now rewrite fresh_press_a_Left. Qed.

Lemma fresh_a_Left_held_now :
  still_held 1 (run logging_update [KeyPress "a" 0; KeyPress "Left" 0.001] fresh) <> [].
Proof. rewrite fresh_a_Left_still_held. discriminate. Qed.

Lemma fresh_a_Left_stamps :
  last_time (run logging_update [KeyPress "a" 0; KeyPress "Left" 0.001] fresh) !! "a"%string
  = Some 0
  /\ last_time (run logging_update [KeyPress "a" 0; KeyPress "Left" 0.001] fresh) !! "Left"%string
     = Some 0.001.
Proof.
  rewrite fresh_press_a_Left. cbn. split.
  - rewrite lookup_insert_ne by discriminate. apply lookup_insert_eq.
  - apply lookup_insert_eq.
Qed.


Lemma small_distance : bounded_distance (1 * translationVelocity fresh).
Proof. unfold bounded_distance. cbn. rewrite Rabs_pos_eq; lra. Qed.

(** The operators of "a" and of "Left" at a tick at time 1 of the widget
    that holds them. *)
Lemma fresh_a_Left_operators :
  let held := run logging_update [KeyPress "a" 0; KeyPress "Left" 0.001] fresh in
  key_operator held 1 "a"
  = Some (unit_3_vector_and_distance_to_O13_hyperbolic_translation
            (V3 (-1) 0 0) ((1 - 0) * translationVelocity held))
  /\ key_operator held 1 "Left"
     = Some (O13_y_rotation (- ((1 - 0.001) * rotationVelocity held))).
Proof.
  cbn zeta. unfold key_operator.
  rewrite binding_a, binding_Left.
  destruct fresh_a_Left_stamps as [-> ->]. split; reflexivity.
Qed.

(** C3 as amended: the tick of the widget that holds "a" and "Left", which
    hands over (identity * operator of "a") * operator of "Left"; the orbit
    press on the fresh widget; a drag sample after it; and two. *)
Lemma accumulators_multiply_on_the_right_witness :
  let held := run logging_update [KeyPress "a" 0; KeyPress "Left" 0.001] fresh in
  let pressed := state_of (tkAltButton1 100 100 0.5 800 600 fresh) in
  (keys_inv held /\ view_state held = Some [] /\ still_held 1 held <> []
   /\ distances_bounded held 1
   /\ view_state (state_of (do_movement logging_update 1 held))
      = Some [right_product held 1 (still_held 1 held)])
  /\ right_product held 1 ["a"; "Left"]%string
     = mul (mul identity
                (unit_3_vector_and_distance_to_O13_hyperbolic_translation
                   (V3 (-1) 0 0) ((1 - 0) * translationVelocity held)))
           (O13_y_rotation (- ((1 - 0.001) * rotationVelocity held)))
  /\ ((800 <> 0)%Z /\ tan (fov fresh / 360 * PI) <> 0 /\ Rabs 0.5 < 1
      /\ has_returned (tkAltButton1 100 100 0.5 800 600 fresh) = true
      /\ orbit_rotation pressed = Some identity)
  /\ (last_mouse_pos pressed = Some (100, 100)%Z
      /\ orbit_rotation pressed = Some identity
      /\ orbit_rotation (state_of (tkAltButtonMotion1 logging_update 101 102 pressed))
         = Some (mul identity
                     (mul (O13_y_rotation (IZR (101 - 100) * 0.01))
                          (O13_x_rotation (IZR (102 - 100) * 0.01)))))
  /\ orbit_rotation (run logging_update (orbit_drags [(101, 100); (101, 101)]%Z) pressed)
     = Some (right_rotation [(1, 0); (0, 1)]%Z).
Proof.
  cbn zeta.
  pose proof (accumulators_multiply_on_the_right logging_update)
    as (Htick & Hstart & Hstep & Hpress & Hdrag & Hdrags).
  assert (Hret : has_returned (tkAltButton1 100 100 0.5 800 600 fresh) = true)
    by (apply Hpress; [lia | exact fresh_tangent | exact half_depth]).
  assert (Hrot : orbit_rotation (state_of (tkAltButton1 100 100 0.5 800 600 fresh))
                 = Some identity)
    by (apply Hpress; exact Hret).
  assert (Hlast : last_mouse_pos (state_of (tkAltButton1 100 100 0.5 800 600 fresh))
                  = Some (100, 100)%Z)
    by now rewrite fresh_orbit_press.
  split; [| split; [| split; [| split]]].
  - split; [exact fresh_a_Left_keys_inv|]. split; [exact fresh_a_Left_view|].
    split; [exact fresh_a_Left_held_now|]. split; [exact fresh_a_Left_bounded|].
    exact (Htick _ [] 1 fresh_a_Left_keys_inv fresh_a_Left_view
                 fresh_a_Left_held_now fresh_a_Left_bounded).
  - destruct fresh_a_Left_operators as [Ha HLeft]. cbn zeta in Ha, HLeft.
    change ["a"; "Left"]%string with (["a"%string] ++ ["Left"%string]).
    rewrite (Hstep _ 1 ["a"%string] "Left"%string _ HLeft).
    change ["a"%string] with ([] ++ ["a"%string]).
    rewrite (Hstep _ 1 [] "a"%string _ Ha).
    now rewrite Hstart.
  - split; [lia|]. split; [exact fresh_tangent|]. split; [exact half_depth|].
    split; [exact Hret | exact Hrot].
  - split; [exact Hlast|]. split; [exact Hrot|].
    exact (Hdrag 101%Z 102%Z _ (100, 100)%Z identity Hlast Hrot).
  - exact (Hdrags 100%Z 100%Z 0.5 800%Z 600%Z fresh [] [(101, 100); (101, 101)]%Z
                  eq_refl ltac:(lia) fresh_tangent half_depth).
Defined.

(** C4, on the widget that holds "a" and "Left": the tick at time 1, and
    what the elapsed time of each of the two keys becomes; and on the fresh
    widget: "a", and then "Left", pressed at 0, a tick at 1, the release at 2
    and a tick at 3. *)
Lemma tick_integrates_each_held_key_witness :
  let held := run logging_update [KeyPress "a" 0; KeyPress "Left" 0.001] fresh in
  (keys_inv held /\ view_state held = Some [] /\ still_held 1 held <> []
   /\ distances_bounded held 1
   /\ exists st',
        do_movement logging_update 1 held = Returned st'
        /\ view_state st'
           = Some (logging_update [] (Some (right_product held 1 (still_held 1 held))))
        /\ last_time st' !! "a"%string = Some 1
        /\ last_time st' !! "Left"%string = Some 1)
  /\ (last_time held !! "a"%string = Some 0
      /\ key_operator held 1 "a"
         = Some (unit_3_vector_and_distance_to_O13_hyperbolic_translation
                   (V3 (-1) 0 0) ((1 - 0) * translationVelocity held)))
  /\ (last_time held !! "Left"%string = Some 0.001
      /\ movement_loop ["Left"%string] 1 held identity false
         = Returned (set_last_time (<["Left"%string := 1]> (last_time held)) held,
                     mul identity
                         (O13_y_rotation (- ((1 - 0.001) * rotationVelocity held))),
                     true))
  /\ (bounded_distance (1 * translationVelocity fresh) /\ 3 - 2 > 0.005
      /\ view_state (run logging_update [KeyPress "a" 0; Timer (0 + 1)] fresh)
         = Some [mul identity
                   (unit_3_vector_and_distance_to_O13_hyperbolic_translation
                      (V3 (-1) 0 0) (1 * 0.4))]
      /\ current_keys_pressed
           (run logging_update [KeyRelease "a" 2; Timer 3]
                (run logging_update [KeyPress "a" 0; Timer (0 + 1)] fresh)) = [])
  /\ (view_state (run logging_update [KeyPress "Left" 0; Timer (0 + 1)] fresh)
      = Some [mul identity (O13_y_rotation (- (1 * 0.4)))]
      /\ after_queue
           (run logging_update [KeyRelease "Left" 2; Timer 3]
                (run logging_update [KeyPress "Left" 0; Timer (0 + 1)] fresh)) = []).
Proof.
  cbn zeta.
  pose proof (tick_integrates_each_held_key logging_update) as (Htick & Hkey & Ha & HLeft).
  split; [| split; [| split; [| split]]].
  - split; [exact fresh_a_Left_keys_inv|]. split; [exact fresh_a_Left_view|].
    split; [exact fresh_a_Left_held_now|]. split; [exact fresh_a_Left_bounded|].
    destruct (Htick _ [] 1 fresh_a_Left_keys_inv fresh_a_Left_view
                    fresh_a_Left_held_now fresh_a_Left_bounded)
      as (st' & Hret & Hv & Hst & _).
    exists st'. split; [exact Hret|]. split; [exact Hv|].
    split; apply Hst; rewrite fresh_a_Left_still_held.
    + left.
    + right. left.
  - split; [exact (proj1 fresh_a_Left_stamps)|].
    exact (proj1 (Hkey _ 1 0 "a"%string identity false (proj1 fresh_a_Left_stamps))).
  - split; [exact (proj2 fresh_a_Left_stamps)|].
    apply (proj2 (Hkey _ 1 0.001 "Left"%string identity false
                       (proj2 fresh_a_Left_stamps))).
    intros H. repeat (apply elem_of_cons in H as [H | H]; [discriminate|]).
    inversion H.
  - split; [exact small_distance|]. split; [lra|].
    destruct (Ha fresh [] 0 1 2 3 eq_refl eq_refl eq_refl small_distance ltac:(lra))
      as (Hv & _ & _ & _ & Hh & _).
    split; [exact Hv | exact Hh].
  - destruct (HLeft fresh [] 0 1 2 3 eq_refl eq_refl eq_refl ltac:(lra))
      as (Hv & _ & _ & _ & _ & _ & _ & Hq).
    split; [exact Hv | exact Hq].
Defined.

(** C5 fails as stated: an orbit press on the background of the fresh
    widget, where the depth read back is 1.  [math.atanh] raises, so neither
    the forward nor the inverse translation is built, although the pixel was
    recorded and the view state captured; the drag sample that follows raises
    in its turn and leaves the view state as it was, instead of updating the
    captured state.  After a press that has returned, a press on the
    background leaves the translations of that earlier press in place. *)
Lemma orbit_press_on_the_background :
  (let press := tkAltButton1 100 100 1 800 600 fresh in
   let pressed := state_of press in
   let dir :=
     normalized (V3 ((IZR 100 - 0.5 * IZR 800) / IZR 800)
                    ((IZR (600 - 100) - 0.5 * IZR 600) / IZR 800)
                    (- 0.5 / tan (fov fresh / 360 * PI))) in
   let forward := unit_3_vector_and_distance_to_O13_hyperbolic_translation dir (atanh 1) in
   let inverse := unit_3_vector_and_distance_to_O13_hyperbolic_translation dir (atanh (- 1)) in
   press = Raised ValueError pressed
   /\ last_mouse_pos pressed = Some (100, 100)%Z
   /\ view_state_when_pressed pressed = Some []
   /\ orbit_translation pressed <> Some forward
   /\ orbit_inv_translation pressed <> Some inverse
   /\ orbit_rotation pressed <> Some identity
   /\ tkAltButtonMotion1 logging_update 101 100 pressed = Raised AttributeError pressed
   /\ view_state (run logging_update (orbit_drags [(101, 100)%Z]) pressed)
      <> Some (logging_update []
                 (Some (mul (mul forward
                                 (right_rotation (deltas_from (100, 100)%Z [(101, 100)%Z])))
                            inverse))))
  /\ (let first := state_of (tkAltButton1 100 100 0.5 800 600 fresh) in
      let pressed_again :=
        run logging_update
            [AltButton1 100 100 0.5 800 600; AltB1Motion 101 100;
             AltButton1 300 300 1 800 600] fresh in
      last_mouse_pos pressed_again = Some (300, 300)%Z
      /\ orbit_translation pressed_again = orbit_translation first
      /\ orbit_inv_translation pressed_again = orbit_inv_translation first).
Proof.
  split.
  - cbn zeta. rewrite fresh_background_press. cbn [state_of]. nav_simpl.
    split; [reflexivity|]. split; [reflexivity|]. split; [reflexivity|].
    split; [discriminate|]. split; [discriminate|]. split; [discriminate|].
    assert (Hdrag : tkAltButtonMotion1 logging_update 101 100
                      (set_view_state_when_pressed (view_state fresh)
                         (set_last_mouse_pos (Some (100, 100)%Z) fresh))
                    = Raised AttributeError
                        (set_view_state_when_pressed (view_state fresh)
                           (set_last_mouse_pos (Some (100, 100)%Z) fresh)))
      by reflexivity.
    split; [exact Hdrag|].
    cbn [orbit_drags map fst snd]. rewrite run_cons, run_nil. cbn [handle].
    rewrite Hdrag. cbn [state_of]. nav_simpl. cbn [fresh init view_state logging_update app].
    discriminate.
  - cbn zeta.
    change (run logging_update
              [AltButton1 100 100 0.5 800 600; AltB1Motion 101 100;
               AltButton1 300 300 1 800 600] fresh)
      with (state_of (handle logging_update (AltButton1 300 300 1 800 600)
                        (run logging_update
                             [AltButton1 100 100 0.5 800 600; AltB1Motion 101 100] fresh))).
    destruct fresh_background_press_after_drag as [Hpress _]. cbn zeta in Hpress.
    rewrite Hpress. cbn [state_of]. nav_simpl.
    split; [reflexivity|].
    rewrite run_cons. cbn [handle]. rewrite fresh_orbit_press. cbn zeta. cbn [state_of].
    rewrite run_cons, run_nil. cbn [handle].
    match goal with
    | |- context [tkAltButtonMotion1 _ _ _ ?s] =>
        rewrite (tkAltButtonMotion1_returns logging_update 101 100 s (100, 100)%Z identity
                   (unit_3_vector_and_distance_to_O13_hyperbolic_translation
                      (pick_direction 100 100 800 600 (tan (fov fresh / 360 * PI)))
                      (atanh 0.5))
                   (unit_3_vector_and_distance_to_O13_hyperbolic_translation
                      (pick_direction 100 100 800 600 (tan (fov fresh / 360 * PI)))
                      (atanh (Ropp 0.5)))
                   []) by reflexivity
    end.
    cbn zeta. cbn [state_of]. split; reflexivity.
Qed.

(** C5 as amended, at the orbit press on the fresh widget followed by drag
    samples to (101, 100) and (101, 102). *)
Lemma orbit_press_and_drags_witness :
  let dir :=
    normalized (V3 ((IZR 100 - 0.5 * IZR 800) / IZR 800)
                   ((IZR (600 - 100) - 0.5 * IZR 600) / IZR 800)
                   (- 0.5 / tan (fov fresh / 360 * PI))) in
  let forward := unit_3_vector_and_distance_to_O13_hyperbolic_translation dir (atanh 0.5) in
  let inverse :=
    unit_3_vector_and_distance_to_O13_hyperbolic_translation dir (atanh (Ropp 0.5)) in
  let pressed := state_of (tkAltButton1 100 100 0.5 800 600 fresh) in
  view_state fresh = Some [] /\ (800 <> 0)%Z
  /\ tan (fov fresh / 360 * PI) <> 0 /\ Rabs 0.5 < 1
  /\ has_returned (tkAltButton1 100 100 0.5 800 600 fresh) = true
  /\ is_unit dir
  /\ orbit_translation pressed = Some forward
  /\ orbit_inv_translation pressed = Some inverse
  /\ orbit_rotation pressed = Some identity
  /\ view_state (run logging_update (orbit_drags [(101, 100); (101, 102)]%Z) pressed)
     = Some [mul (mul forward (right_rotation [(1, 0); (0, 2)]%Z)) inverse].
Proof.
  cbn zeta.
  split; [reflexivity|]. split; [lia|]. split; [exact fresh_tangent|].
  split; [exact half_depth|].
  destruct (orbit_press_and_drags logging_update 100 100 0.5 800 600 fresh []
              eq_refl ltac:(lia) fresh_tangent half_depth)
    as (Hret & Hunit & Hf & Hi & Hrot & _ & Hdrags).
  split; [exact Hret|]. split; [exact Hunit|]. split; [exact Hf|].
  split; [exact Hi|]. split; [exact Hrot|].
  exact (Hdrags [(101, 100); (101, 102)]%Z ltac:(discriminate)).
Defined.

(** The widget after a plain press at (100, 100). *)
Lemma fresh_press_anchor :
  mouse_pos_when_pressed (state_of (tkButton1 100 100 fresh)) = Some (100, 100)%Z
  /\ view_state_when_pressed (state_of (tkButton1 100 100 fresh)) = Some [].
Proof. split; reflexivity. Qed.

(** C6, at a press at (100, 100) and a drag to (103, 104). *)
Lemma free_drag_is_relative_to_anchor_witness :
  mouse_pos_when_pressed (state_of (tkButton1 100 100 fresh)) = Some (100, 100)%Z
  /\ view_state_when_pressed (state_of (tkButton1 100 100 fresh)) = Some []
  /\ (103, 104)%Z <> (100, 100)%Z
  /\ has_returned
       (tkButtonMotion1 logging_update 103 104 (state_of (tkButton1 100 100 fresh)))
     = true.
Proof.
  split; [reflexivity|]. split; [reflexivity|]. split; [discriminate|].
  destruct (free_drag_is_relative_to_anchor logging_update 103 104
              (state_of (tkButton1 100 100 fresh)) 100 100 []
              eq_refl eq_refl ltac:(discriminate))
    as (_ & _ & Hret & _).
  exact Hret.
Defined.

Lemma no_drag_amount : drag_amount (100 - 100) (100 - 100) = 0.
Proof. apply drag_amount_zero. split; reflexivity. Qed.

(** C7, at a press at (100, 100) and a drag to (100, 100). *)
Lemma free_drag_of_zero_length_witness :
  mouse_pos_when_pressed (state_of (tkButton1 100 100 fresh)) = Some (100, 100)%Z
  /\ drag_amount (100 - 100) (100 - 100) = 0
  /\ view_state
       (state_of (tkButtonMotion1 logging_update 100 100
                    (state_of (tkButton1 100 100 fresh))))
     = view_state_when_pressed (state_of (tkButton1 100 100 fresh)).
Proof.
  split; [reflexivity|]. split; [exact no_drag_amount|].
  exact (proj1 (proj2 (free_drag_of_zero_length logging_update 100 100
                         (state_of (tkButton1 100 100 fresh)) 100 100
                         eq_refl no_drag_amount))).
Defined.

(** C8 fails on the code: an orbit press, the release, and then an orbit
    drag sample with no press in between.  The release has left
    [last_mouse_pos] set, so the drag handler runs and hands the collaborator
    an operator: the view state changes. *)
Lemma orbit_drag_after_release_moves_view :
  let released :=
    run logging_update [AltButton1 100 100 0.5 800 600; ButtonRelease1] fresh in
  mouse_pos_when_pressed released = None
  /\ last_mouse_pos released = Some (100, 100)%Z
  /\ view_state released = Some []
  /\ exists Op,
       view_state (state_of (tkAltButtonMotion1 logging_update 101 100 released))
       = Some [Op]
  /\ view_state (state_of (tkAltButtonMotion1 logging_update 101 100 released))
     <> view_state released.
Proof.
  cbn zeta. rewrite run_cons. cbn [handle]. rewrite fresh_orbit_press.
  cbn zeta. cbn [state_of]. rewrite run_cons, run_nil.
  cbn [handle tkButtonRelease1 state_of].
  split; [reflexivity|]. split; [reflexivity|]. split; [reflexivity|].
  match goal with
  | |- context [tkAltButtonMotion1 _ _ _ ?s] =>
      rewrite (tkAltButtonMotion1_returns logging_update 101 100 s (100, 100)%Z identity
                 (unit_3_vector_and_distance_to_O13_hyperbolic_translation
                    (pick_direction 100 100 800 600 (tan (fov fresh / 360 * PI)))
                    (atanh 0.5))
                 (unit_3_vector_and_distance_to_O13_hyperbolic_translation
                    (pick_direction 100 100 800 600 (tan (fov fresh / 360 * PI)))
                    (atanh (Ropp 0.5)))
                 []) by reflexivity
  end.
  cbn zeta. cbn [state_of]. nav_simpl. cbn [logging_update app].
  eexists. split; [reflexivity | discriminate].
Qed.

(** The same with a plain press in between, as Tk delivers it when the
    Option key goes down during a plain drag: the orbit drag handler runs on
    the anchor and the translations of the orbit gesture that was released. *)
Lemma orbit_drag_uses_stale_anchor :
  let repressed :=
    run logging_update
        [AltButton1 100 100 0.5 800 600; ButtonRelease1; Button1 300 300] fresh in
  last_mouse_pos repressed = Some (100, 100)%Z
  /\ view_state (state_of (tkAltButtonMotion1 logging_update 301 300 repressed))
     <> view_state repressed.
Proof.
  cbn zeta. rewrite run_cons. cbn [handle]. rewrite fresh_orbit_press.
  cbn zeta. cbn [state_of]. rewrite !run_cons, run_nil.
  cbn [handle tkButtonRelease1 tkButton1 state_of].
  split; [reflexivity|].
  match goal with
  | |- context [tkAltButtonMotion1 _ _ _ ?s] =>
      rewrite (tkAltButtonMotion1_returns logging_update 301 300 s (100, 100)%Z identity
                 (unit_3_vector_and_distance_to_O13_hyperbolic_translation
                    (pick_direction 100 100 800 600 (tan (fov fresh / 360 * PI)))
                    (atanh 0.5))
                 (unit_3_vector_and_distance_to_O13_hyperbolic_translation
                    (pick_direction 100 100 800 600 (tan (fov fresh / 360 * PI)))
                    (atanh (Ropp 0.5)))
                 []) by reflexivity
  end.
  cbn zeta. cbn [state_of]. nav_simpl. cbn [logging_update app]. discriminate.
Qed.

(** C9, at a second press of "a" on the widget that holds "a". *)
Lemma key_press_while_held_only_clears_release_witness :
  is_Some (_key_movement_bindings !! "a"%string)
  /\ "a"%string ∈ current_keys_pressed (state_of (tkKeyPress "a" 0 fresh))
  /\ after_queue (state_of (tkKeyPress "a" 1 (state_of (tkKeyPress "a" 0 fresh))))
     = after_queue (state_of (tkKeyPress "a" 0 fresh)).
Proof.
  assert (Hb : is_Some (_key_movement_bindings !! "a"%string))
    by (rewrite binding_a; eauto).
  assert (Hk : "a"%string ∈ current_keys_pressed (state_of (tkKeyPress "a" 0 fresh)))
    by (rewrite fresh_press_a; cbn; left).
  split; [exact Hb|]. split; [exact Hk|].
  destruct (key_press_while_held_only_clears_release "a" 1
              (state_of (tkKeyPress "a" 0 fresh)) Hb Hk)
    as (_ & _ & _ & _ & Hq & _).
  exact Hq.
Defined.

(** C10, at the release of the unbound key "q", which is recorded, and at
    the press of "a" that removes the release record of "a". *)
Lemma release_records_persist_witness :
  time_key_release_received (state_of (tkKeyRelease "q" 1 fresh)) !! "q"%string = Some 1
  /\ is_Some (time_key_release_received (state_of (tkKeyRelease "a" 1 fresh)) !! "a"%string)
  /\ time_key_release_received
       (state_of (handle logging_update (KeyPress "a" 2)
                         (state_of (tkKeyRelease "a" 1 fresh)))) !! "a"%string = None
  /\ exists now, KeyPress "a" 2 = KeyPress "a" now
                 /\ is_Some (_key_movement_bindings !! "a"%string).
Proof.
  assert (Hrec : is_Some (time_key_release_received
                            (state_of (tkKeyRelease "a" 1 fresh)) !! "a"%string)).
  { cbn. rewrite lookup_insert_eq. eauto. }
  assert (Hgone : time_key_release_received
                    (state_of (handle logging_update (KeyPress "a" 2)
                                      (state_of (tkKeyRelease "a" 1 fresh))))
                    !! "a"%string = None).
  { cbn [handle]. rewrite key_press_new; [| reflexivity | apply not_elem_of_nil].
    cbn. apply lookup_delete_eq. }
  split; [exact (proj2 (proj1 (release_records_persist logging_update) "q"%string 1 fresh))|].
  split; [exact Hrec|]. split; [exact Hgone|].
  exact (proj1 (proj2 (release_records_persist logging_update))
               (KeyPress "a" 2) (state_of (tkKeyRelease "a" 1 fresh)) "a"%string
               Hrec Hgone).
Defined.

(* ===================================================================== *)
(** * Further properties of the handlers *)
(* ===================================================================== *)

Section Failures.

Context {ViewState : Type}.
Variable initial_view_state : ViewState.
Variable update_view_state : ViewState -> option matrix -> ViewState.
Implicit Types st : Nav ViewState.

(** X1. An orbit press on a viewport of width zero raises
    [ZeroDivisionError]; on a viewport with a width, and with a tangent of
    half the field of view that is not zero, it returns when the depth lies
    strictly between -1 and 1 and raises [ValueError] when it does not.
    Whatever the outcome, the pixel has become the last mouse position and
    the view state has been captured; and whenever the width is zero or the
    depth is outside (-1, 1) the press raises and the three orbit matrices,
    the view state and everything else are as before. *)
Theorem orbit_press_outcome (x y : Z) (depth : R) (width height : Z) st :
  let out := tkAltButton1 x y depth width height st in
  let recorded := set_view_state_when_pressed (view_state st)
                    (set_last_mouse_pos (Some (x, y)) st) in
  (width = 0%Z -> out = Raised ZeroDivisionError recorded)
  /\ (width <> 0%Z -> tan (fov st / 360 * PI) <> 0 ->
      (Rabs depth < 1 -> has_returned out = true)
      /\ (1 <= Rabs depth -> out = Raised ValueError recorded))
  /\ last_mouse_pos (state_of out) = Some (x, y)
  /\ view_state_when_pressed (state_of out) = view_state st
  /\ (width = 0%Z \/ 1 <= Rabs depth ->
      has_returned out = false /\ state_of out = recorded).
Proof.
  cbn zeta. split; [| split; [| split; [| split]]].
  - intros Hw. unfold tkAltButton1. now rewrite decide_True by exact Hw.
  - intros Hw Ht. split.
    + intros Hd. now rewrite (tkAltButton1_returns x y depth width height st Hw Ht Hd).
    + intros Hd.
      destruct (tkAltButton1_raises x y depth width height st) as (e & He & _ & Hv);
        [right; right; exact Hd|].
      rewrite He. f_equal. apply Hv. now split.
  - unfold tkAltButton1. repeat case_match; reflexivity.
  - unfold tkAltButton1. repeat case_match; reflexivity.
  - intros H.
    destruct (tkAltButton1_raises x y depth width height st) as (e & He & _);
      [destruct H as [H | H]; [now left | right; now right]|].
    rewrite He. split; reflexivity.
Qed.

(** X2. While no orbit press has returned, the attribute [orbit_rotation]
    does not exist: an orbit drag that follows a press that raised ends with an
    [AttributeError] and leaves the state, the view state included, as the
    press has left it. *)
Theorem orbit_drag_after_failed_press (x y x' y' : Z) (depth : R) (width height : Z) st :
  orbit_rotation st = None ->
  width = 0%Z \/ tan (fov st / 360 * PI) = 0 \/ 1 <= Rabs depth ->
  let pressed := state_of (tkAltButton1 x y depth width height st) in
  tkAltButtonMotion1 update_view_state x' y' pressed = Raised AttributeError pressed
  /\ view_state pressed = view_state st.
Proof.
  intros Hr H. cbn zeta.
  destruct (tkAltButton1_raises x y depth width height st H) as (e & -> & _).
  cbn [state_of]. unfold tkAltButtonMotion1. nav_simpl. now rewrite Hr.
Qed.

(** A tick cut short has evicted the released keys and stamped keys among
    those still held; everything else is as before. *)
Lemma tick_cut_short_stamps (now : R) (n : nat) st :
  keys_inv st ->
  tick_cut_short now n st
  = set_last_time (stamp_keys now (take (S n) (still_held now st)) (last_time st))
      (set_current_keys_pressed (still_held now st) st).
Proof.
  intros [Hnd Hkeys]. unfold tick_cut_short. cbn zeta.
  rewrite evict_released_filter. fold (still_held now st). nav_simpl.
  rewrite movement_loop_returns; [reflexivity | |].
  - apply (sublist_NoDup _ (still_held now st)); [| apply sublist_take].
    unfold still_held. now apply NoDup_filter.
  - intros k Hk _. nav_simpl. apply Hkeys.
    apply subseteq_take in Hk. now apply list_elem_of_filter in Hk as [_ Hk].
Qed.

Lemma inv_cut_short (now : R) (n : nat) st :
  keys_inv st /\ views_inv st /\ orbit_attributes_together st ->
  keys_inv (fire_timer_cut_short now n st)
  /\ views_inv (fire_timer_cut_short now n st)
  /\ orbit_attributes_together (fire_timer_cut_short now n st).
Proof.
  intros (Hk & Hv & Ho). unfold fire_timer_cut_short.
  destruct (after_queue st) as [| delay pending];
    [split; [exact Hk | split; [exact Hv | exact Ho]]|].
  assert (Hk' : keys_inv (set_after_queue pending st))
    by now apply (keys_inv_frame st).
  rewrite (tick_cut_short_stamps now n _ Hk').
  change (still_held now (set_after_queue pending st)) with (still_held now st).
  split; [| split; [exact Hv | exact Ho]].
  destruct Hk as [Hnd Hkeys]. split; nav_simpl.
  - unfold still_held. now apply NoDup_filter.
  - intros k Hin. apply list_elem_of_filter in Hin as [_ Hin].
    destruct (Hkeys k Hin) as [Hb Hs]. split; [exact Hb|].
    rewrite stamp_keys_lookup. destruct (decide _); [eauto | exact Hs].
Qed.

(** No tick touches the attributes of the orbit gesture. *)
Lemma do_movement_keeps_orbit (now : R) st :
  let st' := state_of (do_movement update_view_state now st) in
  orbit_rotation st' = orbit_rotation st
  /\ orbit_translation st' = orbit_translation st
  /\ orbit_inv_translation st' = orbit_inv_translation st.
Proof.
  cbn zeta. unfold do_movement.
  match goal with
  | |- context [movement_loop ?ks now ?s ?m ?a] =>
      destruct (movement_loop_frame ks now s m a) as [stamps Hs];
      destruct (movement_loop ks now s m a) as [[[st2 m2] a2] | e [[st2 m2] a2]]
  end; cbn in Hs; subst st2.
  - destruct a2; cbn [negb]; [| repeat split].
    nav_simpl. destruct (view_state st); repeat split.
  - repeat split.
Qed.

Lemma orbit_attributes_handle (ev : event) st :
  orbit_attributes_together st ->
  orbit_attributes_together (state_of (handle update_view_state ev st)).
Proof.
  unfold orbit_attributes_together. intros H.
  destruct ev as [| k now | k now | now | x y | | x y | x y | x y d w h | x y];
    cbn [handle].
  - exact H.
  - unfold tkKeyPress, key_press_movement. repeat case_match; exact H.
  - exact H.
  - unfold fire_timer. destruct (after_queue st) as [| delay pending]; [exact H|].
    destruct (do_movement_keeps_orbit now (set_after_queue pending st)) as (-> & -> & ->).
    exact H.
  - exact H.
  - exact H.
  - unfold tkButtonMotion1. repeat case_match; exact H.
  - unfold tkCtrlButtonMotion1. repeat case_match; exact H.
  - unfold tkAltButton1. repeat case_match; cbn [state_of]; nav_simpl; eauto.
  - unfold tkAltButtonMotion1. repeat case_match; cbn [state_of]; nav_simpl;
      try exact H; try (intros [? ?]; congruence); intros _; apply H; eauto.
Qed.

(** Every state of the widget satisfies the key invariant and has a view
    state, with a captured one beside every anchor, and has the three
    attributes of the orbit gesture together or not at all. *)
Lemma reachable_invariants st :
  reachable initial_view_state update_view_state st ->
  keys_inv st /\ views_inv st /\ orbit_attributes_together st.
Proof.
  induction 1 as [view0 fov0 | ev st _ (Hk & Hv & Ho) | now n st _ IH].
  - destruct (reachable_inv initial_view_state update_view_state [] view0 fov0)
      as [Hk Hv].
    split; [exact Hk|]. split; [exact Hv|]. intros [? ?]; discriminate.
  - destruct (inv_handle update_view_state ev st (conj Hk Hv)) as [Hk' Hv'].
    split; [exact Hk'|]. split; [exact Hv'|]. now apply orbit_attributes_handle.
  - now apply inv_cut_short.
Qed.

Lemma reachable_run (evs : list event) (view0 : Z) (fov0 : R) :
  reachable initial_view_state update_view_state
            (run update_view_state evs (init initial_view_state view0 fov0)).
Proof.
  assert (H0 := reachable_init initial_view_state update_view_state view0 fov0).
  revert H0. generalize (init initial_view_state view0 fov0).
  induction evs as [| ev evs IH]; intros st H; [exact H|].
  rewrite run_cons. apply IH. now apply reachable_handle.
Qed.

(** X3. On every state of the widget - what [__init__] leaves, and from
    there on what the handlers leave, returning or raising, and what a tick
    cut short by a range error of the operator library leaves - the
    navigation code raises no [KeyError] and no [TypeError]: the tick finds
    the stamp of every held key, and the collaborator is never handed [None].
    An [AttributeError] comes only from an orbit drag while no orbit press
    has returned, a [ZeroDivisionError] or a [ValueError] only from an orbit
    press. *)
Theorem reachable_exceptions st (ev : event) (e : exn) (st' : Nav ViewState) :
  reachable initial_view_state update_view_state st ->
  handle update_view_state ev st = Raised e st' ->
  e <> KeyError /\ e <> TypeError
  /\ (e = AttributeError ->
      orbit_rotation st = None /\ exists x y, ev = AltB1Motion x y)
  /\ (e = ZeroDivisionError \/ e = ValueError ->
      exists x y depth width height, ev = AltButton1 x y depth width height).
Proof.
  intros Hreach.
  destruct (reachable_invariants st Hreach) as (Hk & ([vs Hvs] & Hm & Hl) & Ho).
  destruct ev as [| k now | k now | now | x y | | x y | x y | x y d w h | x y];
    cbn [handle]; try discriminate.
  - unfold fire_timer. destruct (after_queue st) as [| delay pending]; [discriminate|].
    rewrite (do_movement_returns update_view_state now _ vs);
      [destruct (existsb _ _); discriminate | now apply (keys_inv_frame st) | exact Hvs].
  - unfold tkButtonMotion1.
    destruct (mouse_pos_when_pressed st) as [[px py] |]; [| discriminate].
    destruct Hm as [pressed ->]; [eauto|].
    destruct (Req_dec_T _ 0); discriminate.
  - unfold tkCtrlButtonMotion1.
    destruct (mouse_pos_when_pressed st) as [[px py] |]; [| discriminate].
    rewrite Hvs. discriminate.
  - intros H.
    assert (He : e = ZeroDivisionError \/ e = ValueError)
      by (unfold tkAltButton1 in H; repeat case_match; inversion H; auto).
    split; [destruct He; congruence|]. split; [destruct He; congruence|].
    split; [destruct He; congruence|]. intros _. eauto 10.
  - intros H.
    assert (He : e = AttributeError /\ orbit_rotation st = None).
    { unfold tkAltButtonMotion1 in H.
      destruct (last_mouse_pos st) as [[lx ly] |]; [| discriminate].
      destruct Hl as [pressed Hp]; [eauto|].
      destruct (orbit_rotation st) as [rotation |] eqn:Er;
        [| inversion H; split; reflexivity].
      destruct Ho as [[translation Ht] [inv_translation Hi]]; [eauto|].
      nav_simpl. rewrite Ht, Hi, Hp in H. discriminate. }
    destruct He as [-> Hnone]. split; [discriminate|]. split; [discriminate|].
    split; [eauto|]. intros [? | ?]; discriminate.
Qed.

End Failures.

Section MoreGestures.

Context {ViewState : Type}.
Variable update_view_state : ViewState -> option matrix -> ViewState.
Implicit Types st : Nav ViewState.

(** One in-place drag sample on a state with an anchor and a view state. *)
Lemma tkCtrlButtonMotion1_returns (x y : Z) st (anchor : Z * Z) (vs : ViewState) :
  mouse_pos_when_pressed st = Some anchor ->
  view_state st = Some vs ->
  tkCtrlButtonMotion1 update_view_state x y st
  = Returned
      (redraw_if_initialized
         (set_mouse_pos_when_pressed (Some (x, y))
            (set_view_state
               (Some (update_view_state vs
                        (Some (ctrl_sample_rotation (x - fst anchor) (y - snd anchor)))))
               st))).
Proof.
  intros Hm Hv. unfold tkCtrlButtonMotion1. rewrite Hm. destruct anchor as [px py].
  now rewrite Hv.
Qed.

(** X4. The in-place rotation gesture is incremental: over a run of drag
    samples each one rotates the view state the one before has left, by the
    rotation of its delta from the previous sample; the anchor position moves
    to the last sample, the view state captured at the press stays, and each
    sample asks for one redraw. *)
Theorem ctrl_drags_compose (samples : list (Z * Z)) st (anchor : Z * Z) (vs : ViewState) :
  mouse_pos_when_pressed st = Some anchor ->
  view_state st = Some vs ->
  let st' := run update_view_state (ctrl_drags samples) st in
  view_state st'
  = Some (rotated_view update_view_state vs (deltas_from anchor samples))
  /\ mouse_pos_when_pressed st' = Some (last_position anchor samples)
  /\ view_state_when_pressed st' = view_state_when_pressed st
  /\ redraws st' = (redraws st + length samples)%nat.
Proof.
  revert st anchor vs.
  induction samples as [| [px py] samples IH]; intros st anchor vs Hm Hv; cbn zeta.
  - cbn. repeat split; try assumption. lia.
  - cbn [ctrl_drags map fst snd]. rewrite run_cons. cbn [handle].
    rewrite (tkCtrlButtonMotion1_returns px py st anchor vs Hm Hv). cbn [state_of].
    match goal with |- context [run _ _ ?s] => set (s' := s) end.
    destruct (IH s' (px, py)
                 (update_view_state vs
                    (Some (ctrl_sample_rotation (px - fst anchor) (py - snd anchor)))))
      as (Hv' & Hm' & Hp' & Hr'); [reflexivity | reflexivity |].
    fold (ctrl_drags samples). split; [exact Hv'|]. split; [| split].
    + rewrite Hm'. unfold last_position. destruct samples as [| q samples']; [reflexivity|].
      destruct (proj2 (last_is_Some (q :: samples'))) as [r Hr]; [discriminate|].
      rewrite last_cons_cons, Hr. reflexivity.
    + rewrite Hp'. reflexivity.
    + rewrite Hr'. subst s'. cbn. lia.
Qed.

(** X5. The free and the in-place gesture share the anchor position but not
    the reference state: a free drag that follows an in-place drag measures
    its delta from the last in-place sample and applies it to the state
    captured at the press, so the rotation of the in-place drag is gone; a
    free drag to the very position of the in-place sample restores the state
    captured at the press. *)
Theorem free_drag_after_ctrl_drag (x1 y1 x2 y2 : Z) st (anchor : Z * Z)
        (vs pressed : ViewState) :
  mouse_pos_when_pressed st = Some anchor ->
  view_state st = Some vs ->
  view_state_when_pressed st = Some pressed ->
  ((x2, y2) <> (x1, y1) ->
   view_state (run update_view_state [CtrlB1Motion x1 y1; B1Motion x2 y2] st)
   = Some (update_view_state pressed
             (Some (free_drag_operator (x2 - x1) (y2 - y1)))))
  /\ view_state (run update_view_state [CtrlB1Motion x1 y1; B1Motion x1 y1] st)
     = Some pressed.
Proof.
  intros Hm Hv Hp.
  assert (Hrun : forall x y,
             run update_view_state [CtrlB1Motion x1 y1; B1Motion x y] st
             = state_of (tkButtonMotion1 update_view_state x y
                           (redraw_if_initialized
                              (set_mouse_pos_when_pressed (Some (x1, y1))
                                 (set_view_state
                                    (Some (update_view_state vs
                                             (Some (ctrl_sample_rotation
                                                      (x1 - fst anchor) (y1 - snd anchor)))))
                                    st))))).
  { intros x y. rewrite run_cons. cbn [handle].
    rewrite (tkCtrlButtonMotion1_returns x1 y1 st anchor vs Hm Hv). reflexivity. }
  split.
  - intros Hne. rewrite Hrun.
    rewrite (tkButtonMotion1_moves update_view_state x2 y2 _ x1 y1 pressed);
      [reflexivity | reflexivity | exact Hp |].
    intros Hz. apply drag_amount_zero in Hz as [Hx Hy]. apply Hne. f_equal; lia.
  - rewrite Hrun.
    rewrite (tkButtonMotion1_still update_view_state x1 y1 _ x1 y1);
      [cbn; exact Hp | reflexivity |].
    apply drag_amount_zero. split; lia.
Qed.

End MoreGestures.

Section MoreKeys.

Context {ViewState : Type}.
Variable initial_view_state : ViewState.
Variable update_view_state : ViewState -> option matrix -> ViewState.
Implicit Types st : Nav ViewState.

(** The held set after a tick, whatever its outcome. *)
Lemma do_movement_held (now : R) st :
  current_keys_pressed (state_of (do_movement update_view_state now st))
  = still_held now st.
Proof.
  unfold do_movement. rewrite evict_released_filter. fold (still_held now st).
  match goal with
  | |- context [movement_loop ?ks now ?s ?m ?a] =>
      destruct (movement_loop_frame ks now s m a) as [stamps Hs];
      destruct (movement_loop ks now s m a) as [[[st2 m2] a2] | e [[st2 m2] a2]]
  end; cbn in Hs; subst st2.
  - destruct a2; cbn [negb]; [| reflexivity].
    nav_simpl. destruct (view_state st); reflexivity.
  - reflexivity.
Qed.

(** X6. After a tick at [now] a key is held exactly when it was held before
    and has no release record older than 0.005 s: the tick adds no key, keeps
    the keys without a release record and those released at most 0.005 s ago,
    and drops the others, whether it goes on to update the view state or
    not. *)
Theorem tick_keeps_unexpired_keys (now : R) st (k : string) :
  k ∈ current_keys_pressed (state_of (do_movement update_view_state now st))
  <-> k ∈ current_keys_pressed st
      /\ forall t, time_key_release_received st !! k = Some t -> now - t <= 0.005.
Proof.
  rewrite do_movement_held. unfold still_held. rewrite list_elem_of_filter.
  unfold release_expired. split.
  - intros [He Hk]. split; [exact Hk|]. intros t Ht. rewrite Ht in He.
    destruct (Rgt_dec (now - t) 0.005); [discriminate | lra].
  - intros [Hk Hr]. split; [| exact Hk].
    destruct (time_key_release_received st !! k) as [t |]; [| reflexivity].
    destruct (Rgt_dec (now - t) 0.005) as [Hold |]; [| reflexivity].
    specialize (Hr t eq_refl). lra.
Qed.

(** X7. Key repeat is absorbed: a release of a held movement key followed
    by a press of the same key leaves the state as it was but for the release
    record of the key, which is gone; the stamp of the key is not reset, no
    tick is armed, and the key survives the next tick whenever that comes. *)
Theorem key_repeat_is_absorbed (k : string) (t1 t2 : R) st :
  is_Some (_key_movement_bindings !! k) ->
  k ∈ current_keys_pressed st ->
  let st' := run update_view_state [KeyRelease k t1; KeyPress k t2] st in
  st' = set_time_key_release_received (delete k (time_key_release_received st)) st
  /\ last_time st' !! k = last_time st !! k
  /\ after_queue st' = after_queue st
  /\ forall now, k ∈ current_keys_pressed
                       (state_of (do_movement update_view_state now st')).
Proof.
  intros Hb Hk. apply is_movement_key_Some in Hb. cbn zeta.
  assert (E : run update_view_state [KeyRelease k t1; KeyPress k t2] st
              = set_time_key_release_received
                  (delete k (time_key_release_received st)) st).
  { rewrite run_cons. cbn [handle tkKeyRelease state_of].
    rewrite run_cons, run_nil. cbn [handle].
    rewrite key_press_held; [| exact Hb | exact Hk].
    cbn [state_of]. nav_simpl. now rewrite delete_insert_eq. }
  rewrite E. split; [reflexivity|]. split; [reflexivity|]. split; [reflexivity|].
  intros now. rewrite do_movement_held. unfold still_held.
  apply list_elem_of_filter. split; [| exact Hk].
  apply release_expired_none. nav_simpl. apply lookup_delete_eq.
Qed.

(** X8. The debounce window: a tick that comes at most 0.005 s after the
    release of a held key still integrates that key, up to the time of the
    tick and not of the release: the key stays held, its stamp becomes the
    time of the tick, the view state is updated and the next tick is armed. *)
Theorem tick_within_debounce_window (k : string) (t_release now : R) st (vs : ViewState) :
  keys_inv st -> view_state st = Some vs ->
  k ∈ current_keys_pressed st ->
  now - t_release <= 0.005 ->
  let released := state_of (tkKeyRelease k t_release st) in
  let st' := state_of (do_movement update_view_state now released) in
  has_returned (do_movement update_view_state now released) = true
  /\ k ∈ current_keys_pressed st'
  /\ last_time st' !! k = Some now
  /\ view_state st'
     = Some (update_view_state vs
               (Some (right_product st now (still_held now released))))
  /\ after_queue st' = after_queue st ++ [refresh_delay st].
Proof.
  intros Hinv Hvs Hk Hyoung. cbn zeta. unfold tkKeyRelease. cbn [state_of].
  set (released := set_time_key_release_received
                     (<[k := t_release]> (time_key_release_received st)) st).
  assert (Hinv' : keys_inv released) by now apply (keys_inv_frame st).
  assert (Hheld : k ∈ still_held now released).
  { unfold still_held. apply list_elem_of_filter. split; [| exact Hk].
    unfold release_expired. subst released. nav_simpl. rewrite lookup_insert_eq.
    destruct (Rgt_dec (now - t_release) 0.005); [lra | reflexivity]. }
  assert (Hne : still_held now released <> []).
  { intros E. rewrite E in Hheld. inversion Hheld. }
  rewrite (do_movement_returns update_view_state now released vs Hinv' Hvs).
  rewrite (still_held_bound now released Hinv' Hne).
  cbn [has_returned state_of]. nav_simpl.
  split; [reflexivity|]. split; [exact Hheld|]. split; [| split; reflexivity].
  rewrite stamp_keys_lookup. rewrite decide_True; [reflexivity|].
  split; [exact Hheld|]. apply is_movement_key_Some. now apply Hinv.
Qed.

End MoreKeys.

Section MoreTicks.

Context {ViewState : Type}.
Variable initial_view_state : ViewState.
Variable update_view_state : ViewState -> option matrix -> ViewState.
Implicit Types st : Nav ViewState.

Lemma set_current_keys_pressed_same st :
  set_current_keys_pressed (current_keys_pressed st) st = st.
Proof. now destruct st. Qed.

(** A tick with nothing held returns the state as it is. *)
Lemma do_movement_idle (now : R) st :
  current_keys_pressed st = [] ->
  do_movement update_view_state now st = Returned st.
Proof.
  intros Hh. unfold do_movement. rewrite evict_released_filter, Hh.
  cbn [filter list_filter]. nav_simpl. cbn [movement_loop negb].
  now rewrite <- Hh, set_current_keys_pressed_same.
Qed.

(** What a tick does to the queue of pending ticks. *)
Lemma do_movement_queue (now : R) st :
  after_queue (state_of (do_movement update_view_state now st)) = after_queue st
  \/ after_queue (state_of (do_movement update_view_state now st))
     = after_queue st ++ [refresh_delay st].
Proof.
  unfold do_movement.
  match goal with
  | |- context [movement_loop ?ks now ?s ?m ?a] =>
      destruct (movement_loop_frame ks now s m a) as [stamps Hs];
      destruct (movement_loop ks now s m a) as [[[st2 m2] a2] | e [[st2 m2] a2]]
  end; cbn in Hs; subst st2.
  - destruct a2; cbn [negb]; [| now left].
    nav_simpl. destruct (view_state st); [now right | now left].
  - now left.
Qed.

(** X9. Once nothing is held the tick chains die out: every timer that
    fires takes its callback off the queue and arms no successor, so after as
    many firings as there are callbacks pending the queue is empty; none of
    them changes the view state or asks for a redraw. *)
Theorem idle_ticks_drain (times : list R) st :
  current_keys_pressed st = [] ->
  let st' := run update_view_state (map Timer times) st in
  after_queue st' = drop (length times) (after_queue st)
  /\ view_state st' = view_state st
  /\ redraws st' = redraws st
  /\ current_keys_pressed st' = [].
Proof.
  revert st. induction times as [| now times IH]; intros st Hh; cbn zeta.
  - cbn. repeat split; assumption || reflexivity.
  - cbn [map]. rewrite run_cons. cbn [handle]. unfold fire_timer.
    destruct (after_queue st) as [| delay pending] eqn:Hq.
    + cbn [state_of]. destruct (IH st Hh) as (Ha & Hv & Hr & Hk).
      rewrite Ha, Hq. rewrite !drop_nil. repeat split; assumption.
    + rewrite do_movement_idle by exact Hh. cbn [state_of].
      destruct (IH (set_after_queue pending st) Hh) as (Ha & Hv & Hr & Hk).
      rewrite Ha. repeat split; assumption.
Qed.

Lemma handle_queue_bound (ev : event) st :
  (length (after_queue (state_of (handle update_view_state ev st)))
   <= length (after_queue st) + movement_presses [ev])%nat.
Proof.
  destruct ev as [| k now | k now | now | x y | | x y | x y | x y d w h | x y];
    cbn [handle movement_presses].
  - cbn. lia.
  - destruct (is_movement_key k) eqn:Hb.
    + destruct (decide (k ∈ current_keys_pressed st)) as [Hk | Hk].
      * rewrite (key_press_held k now st Hb Hk). cbn. lia.
      * rewrite (key_press_new k now st Hb Hk). cbn [state_of]. nav_simpl.
        rewrite length_app. cbn. lia.
    + unfold tkKeyPress. rewrite (key_press_movement_unbound k now st Hb).
      repeat (destruct (decide _)); cbn; lia.
  - cbn. lia.
  - unfold fire_timer. destruct (after_queue st) as [| delay pending] eqn:Hq;
      [cbn; rewrite Hq; cbn; lia|].
    destruct (do_movement_queue now (set_after_queue pending st)) as [-> | ->];
      nav_simpl; rewrite ?length_app; cbn; lia.
  - cbn. lia.
  - cbn. lia.
  - unfold tkButtonMotion1. repeat case_match; cbn; lia.
  - unfold tkCtrlButtonMotion1. repeat case_match; cbn; lia.
  - unfold tkAltButton1. repeat case_match; cbn; lia.
  - unfold tkAltButtonMotion1. repeat case_match; cbn; lia.
Qed.

Lemma movement_presses_cons (ev : event) (evs : list event) :
  movement_presses (ev :: evs) = (movement_presses [ev] + movement_presses evs)%nat.
Proof. destruct ev; cbn; lia. Qed.

(** X10. Ticks are armed by presses of movement keys only, and a tick that
    fires arms at most the one that replaces it: the number of pending tick
    callbacks never exceeds what was pending before plus the number of
    movement-key presses delivered since. *)
Theorem pending_ticks_bounded_by_presses (evs : list event) st :
  (length (after_queue (run update_view_state evs st))
   <= length (after_queue st) + movement_presses evs)%nat.
Proof.
  revert st. induction evs as [| ev evs IH]; intros st; [cbn; lia|].
  rewrite run_cons, movement_presses_cons.
  specialize (IH (state_of (handle update_view_state ev st))).
  pose proof (handle_queue_bound ev st). lia.
Qed.

(** A tick that returns on a state that satisfies the key invariant has
    either found no key held any more, or armed its successor. *)
Lemma do_movement_returned (now : R) st :
  keys_inv st ->
  has_returned (do_movement update_view_state now st) = true ->
  let st' := state_of (do_movement update_view_state now st) in
  current_keys_pressed st' = still_held now st
  /\ (still_held now st <> [] -> after_queue st' = after_queue st ++ [refresh_delay st]).
Proof.
  intros Hinv. cbn zeta.
  destruct (view_state st) as [vs |] eqn:Hvs.
  - rewrite (do_movement_returns update_view_state now st vs Hinv Hvs). intros _.
    destruct (existsb is_movement_key (still_held now st)) eqn:Hex;
      cbn [state_of]; nav_simpl; (split; [reflexivity|]).
    + reflexivity.
    + intros Hne. rewrite (still_held_bound now st Hinv Hne) in Hex. discriminate.
  - unfold do_movement. rewrite evict_released_filter. fold (still_held now st).
    nav_simpl. destruct Hinv as [Hnd Hkeys].
    rewrite movement_loop_returns.
    + cbn [orb].
      destruct (existsb is_movement_key (still_held now st)) eqn:Hex; cbn [negb].
      * nav_simpl. rewrite Hvs. discriminate.
      * intros _. cbn [state_of]. nav_simpl. split; [reflexivity|].
        intros Hne. rewrite (still_held_bound now st (conj Hnd Hkeys) Hne) in Hex.
        discriminate.
    + unfold still_held. now apply NoDup_filter.
    + intros k Hk _. nav_simpl.
      apply list_elem_of_filter in Hk as [_ Hk]. now apply Hkeys.
Qed.

(** X11. Motion stalls only when a tick raises.  After [__init__] a tick is
    pending whenever a key is held; every handler that returns, and every
    handler other than the tick, keeps it so; a tick that is cut short by a
    range error of the operator library does not: it has left the queue, the
    keys it found held are still held, and no tick is pending. *)
Theorem held_key_has_pending_tick :
  (forall (view0 : Z) (fov0 : R), tick_pending (init initial_view_state view0 fov0))
  /\ (forall (ev : event) st,
        keys_inv st -> tick_pending st ->
        has_returned (handle update_view_state ev st) = true
        \/ (forall now, ev <> Timer now) ->
        tick_pending (state_of (handle update_view_state ev st)))
  /\ (forall (now : R) (n : nat) st (delay : Z),
        keys_inv st -> after_queue st = [delay] -> still_held now st <> [] ->
        let st' := fire_timer_cut_short now n st in
        current_keys_pressed st' = still_held now st
        /\ after_queue st' = []
        /\ ~ tick_pending st').
Proof.
  split; [| split].
  - intros view0 fov0 H. now cbn in H.
  - intros ev st Hinv Hst Hret. unfold tick_pending in *.
    destruct ev as [| k now | k now | now | x y | | x y | x y | x y d w h | x y];
      cbn [handle] in *.
    + exact Hst.
    + destruct (is_movement_key k) eqn:Hb.
      * destruct (decide (k ∈ current_keys_pressed st)) as [Hin | Hin].
        -- rewrite (key_press_held k now st Hb Hin). exact Hst.
        -- rewrite (key_press_new k now st Hb Hin). cbn [state_of]. nav_simpl.
           intros _ E. apply app_eq_nil in E as [_ E]. discriminate.
      * unfold tkKeyPress. rewrite (key_press_movement_unbound k now st Hb).
        repeat (destruct (decide _)); exact Hst.
    + exact Hst.
    + destruct Hret as [Hret | Hnot]; [| now destruct (Hnot now)].
      unfold fire_timer in *.
      destruct (after_queue st) as [| delay pending] eqn:Hq;
        [cbn [state_of]; rewrite Hq; exact Hst|].
      assert (Hk' : keys_inv (set_after_queue pending st))
        by now apply (keys_inv_frame st).
      destruct (do_movement_returned now _ Hk' Hret) as [Hheld Harm].
      rewrite Hheld. intros Hne. rewrite (Harm Hne). nav_simpl.
      intros E. apply app_eq_nil in E as [_ E]. discriminate.
    + exact Hst.
    + exact Hst.
    + unfold tkButtonMotion1. repeat case_match; exact Hst.
    + unfold tkCtrlButtonMotion1. repeat case_match; exact Hst.
    + unfold tkAltButton1. repeat case_match; exact Hst.
    + unfold tkAltButtonMotion1. repeat case_match; exact Hst.
  - intros now n st delay Hinv Hq Hne. cbn zeta.
    unfold fire_timer_cut_short. rewrite Hq.
    assert (Hk' : keys_inv (set_after_queue [] st))
      by now apply (keys_inv_frame st).
    rewrite (tick_cut_short_stamps now n _ Hk').
    change (still_held now (set_after_queue [] st)) with (still_held now st).
    nav_simpl. split; [reflexivity|]. split; [reflexivity|].
    unfold tick_pending. nav_simpl. intros H. now apply H.
Qed.

End MoreTicks.

Section Frames.

Context {ViewState : Type}.
Variable update_view_state : ViewState -> option matrix -> ViewState.
Implicit Types st : Nav ViewState.

(** X12. An event changes the view state only together with a redraw
    request: after every handler either the view state is the one before or
    exactly one redraw was requested; no handler asks for more than one. *)
Theorem view_change_requests_redraw (ev : event) st :
  let st' := state_of (handle update_view_state ev st) in
  (view_state st' = view_state st \/ redraws st' = S (redraws st))
  /\ (redraws st' = redraws st \/ redraws st' = S (redraws st)).
Proof.
  cbn zeta.
  destruct ev as [| k now | k now | now | x y | | x y | x y | x y d w h | x y];
    cbn [handle].
  - cbn. auto.
  - unfold tkKeyPress, key_press_movement. repeat case_match; cbn; auto.
  - cbn. auto.
  - unfold fire_timer. destruct (after_queue st) as [| delay pending]; [cbn; auto|].
    unfold do_movement.
    match goal with
    | |- context [movement_loop ?ks now ?s ?m ?a] =>
        destruct (movement_loop_frame ks now s m a) as [stamps Hs];
        destruct (movement_loop ks now s m a) as [[[st2 m2] a2] | e [[st2 m2] a2]]
    end; cbn in Hs; subst st2.
    + destruct a2; cbn [negb]; [| cbn; auto].
      nav_simpl. destruct (view_state st) eqn:E; cbn; rewrite ?E; auto.
    + cbn. auto.
  - cbn. auto.
  - cbn. auto.
  - unfold tkButtonMotion1. repeat case_match; cbn; auto.
  - unfold tkCtrlButtonMotion1. repeat case_match; cbn; auto.
  - unfold tkAltButton1. repeat case_match; cbn; auto.
  - unfold tkAltButtonMotion1. repeat case_match; cbn; auto.
Qed.

Lemma handle_parameters (ev : event) st :
  let st' := state_of (handle update_view_state ev st) in
  translationVelocity st' = translationVelocity st
  /\ rotationVelocity st' = rotationVelocity st
  /\ refresh_delay st' = refresh_delay st
  /\ fov st' = fov st.
Proof.
  cbn zeta.
  destruct ev as [| k now | k now | now | x y | | x y | x y | x y d w h | x y];
    cbn [handle].
  - cbn. auto.
  - unfold tkKeyPress, key_press_movement. repeat case_match; cbn; auto.
  - cbn. auto.
  - unfold fire_timer. destruct (after_queue st) as [| delay pending]; [cbn; auto|].
    unfold do_movement.
    match goal with
    | |- context [movement_loop ?ks now ?s ?m ?a] =>
        destruct (movement_loop_frame ks now s m a) as [stamps Hs];
        destruct (movement_loop ks now s m a) as [[[st2 m2] a2] | e [[st2 m2] a2]]
    end; cbn in Hs; subst st2.
    + destruct a2; cbn [negb]; [| cbn; auto].
      nav_simpl. destruct (view_state st) eqn:E; cbn; rewrite ?E; auto.
    + cbn. auto.
  - cbn. auto.
  - cbn. auto.
  - unfold tkButtonMotion1. repeat case_match; cbn; auto.
  - unfold tkCtrlButtonMotion1. repeat case_match; cbn; auto.
  - unfold tkAltButton1. repeat case_match; cbn; auto.
  - unfold tkAltButtonMotion1. repeat case_match; cbn; auto.
Qed.

(** X13. The navigation parameters are read and never assigned: whatever
    the events, the two velocities, the refresh delay and the field of view
    are the ones the run began with. *)
Theorem parameters_are_read_only (evs : list event) st :
  let st' := run update_view_state evs st in
  translationVelocity st' = translationVelocity st
  /\ rotationVelocity st' = rotationVelocity st
  /\ refresh_delay st' = refresh_delay st
  /\ fov st' = fov st.
Proof.
  cbn zeta. revert st. induction evs as [| ev evs IH]; intros st; [now cbn|].
  rewrite run_cons.
  destruct (IH (state_of (handle update_view_state ev st))) as (-> & -> & -> & ->).
  apply handle_parameters.
Qed.

(** X14. The key "v" steps through the views 0, 1, 2: after one press the
    view lies in 0..2 whatever it was, three presses from a view in that range
    bring it back, each press asks for a redraw, and the press touches neither
    the view state nor the held keys nor the pending ticks. *)
Theorem v_cycles_the_view (t1 t2 t3 : R) st :
  let st1 := state_of (tkKeyPress "v" t1 st) in
  let st3 := run update_view_state [KeyPress "v" t1; KeyPress "v" t2; KeyPress "v" t3] st in
  (0 <= view st1 < 3)%Z
  /\ view st1 = ((view st + 1) mod 3)%Z
  /\ ((0 <= view st < 3)%Z -> view st3 = view st)
  /\ redraws st3 = (redraws st + 3)%nat
  /\ view_state st3 = view_state st
  /\ current_keys_pressed st3 = current_keys_pressed st
  /\ after_queue st3 = after_queue st.
Proof.
  cbn zeta.
  assert (Hv : forall t (s : Nav ViewState), tkKeyPress "v" t s
                           = Returned (redraw_if_initialized
                                         (set_view ((view s + 1) mod 3)%Z s))).
  { intros t s. unfold tkKeyPress.
    rewrite (key_press_movement_unbound "v" t s) by reflexivity.
    rewrite (decide_False (P := "v"%string = "u"%string)) by discriminate.
    now rewrite (decide_True (P := "v"%string = "v"%string)). }
  rewrite !run_cons, run_nil. cbn [handle]. rewrite !Hv. cbn [state_of]. nav_simpl.
  split; [apply Z.mod_pos_bound; lia|]. split; [reflexivity|].
  split; [| repeat split; lia].
  intros Hr.
  assert (Hc : view st = 0%Z \/ view st = 1%Z \/ view st = 2%Z) by lia.
  destruct Hc as [-> | [-> | ->]]; reflexivity.
Qed.

End Frames.

(* ===================================================================== *)
(** * How the operators of the handlers compose *)
(* ===================================================================== *)

Lemma cosh_plus (a b : R) : cosh (a + b) = cosh a * cosh b + sinh a * sinh b.
Proof. unfold cosh, sinh. rewrite Ropp_plus_distr, !exp_plus. field. Qed.

Lemma sinh_plus (a b : R) : sinh (a + b) = sinh a * cosh b + cosh a * sinh b.
Proof. unfold cosh, sinh. rewrite Ropp_plus_distr, !exp_plus. field. Qed.

(** Translations along one unit direction add their distances. *)
Lemma translation_add (n : vec3) (a b : R) :
  is_unit n ->
  mul (unit_3_vector_and_distance_to_O13_hyperbolic_translation n a)
      (unit_3_vector_and_distance_to_O13_hyperbolic_translation n b)
  = unit_3_vector_and_distance_to_O13_hyperbolic_translation n (a + b).
Proof.
  destruct n as [n1 n2 n3]. unfold is_unit. cbn [d1 d2 d3]. intros Hn.
  unfold unit_3_vector_and_distance_to_O13_hyperbolic_translation, mul, row_mul,
    vadd, vscale.
  cbn [d1 d2 d3 row0 row1 row2 row3 t0 x1 x2 x3].
  rewrite cosh_plus, sinh_plus.
  generalize (cosh a) (sinh a) (cosh b) (sinh b). intros ca sa cb sb.
  f_equal; f_equal; nsatz.
Qed.

Lemma translation_zero (n : vec3) :
  unit_3_vector_and_distance_to_O13_hyperbolic_translation n 0 = identity.
Proof.
  unfold unit_3_vector_and_distance_to_O13_hyperbolic_translation, identity.
  rewrite cosh_0, sinh_0. f_equal; f_equal; ring.
Qed.

(** The translation along the opposite direction is the one by the
    opposite distance. *)
Lemma translation_opposite (n1 n2 n3 a : R) :
  unit_3_vector_and_distance_to_O13_hyperbolic_translation (V3 (- n1) (- n2) (- n3)) a
  = unit_3_vector_and_distance_to_O13_hyperbolic_translation (V3 n1 n2 n3) (- a).
Proof.
  unfold unit_3_vector_and_distance_to_O13_hyperbolic_translation.
  cbn [d1 d2 d3].
  assert (Hc : cosh (- a) = cosh a) by (unfold cosh; now rewrite Ropp_involutive, Rplus_comm).
  assert (Hs : sinh (- a) = - sinh a) by (unfold sinh; rewrite Ropp_involutive; field).
  rewrite Hc, Hs. f_equal; f_equal; ring.
Qed.

Lemma x_rotation_add (a b : R) :
  mul (O13_x_rotation a) (O13_x_rotation b) = O13_x_rotation (a + b).
Proof.
  unfold O13_x_rotation, mul, row_mul, vadd, vscale.
  cbn [row0 row1 row2 row3 t0 x1 x2 x3]. rewrite cos_plus, sin_plus.
  f_equal; f_equal; ring.
Qed.

Lemma y_rotation_add (a b : R) :
  mul (O13_y_rotation a) (O13_y_rotation b) = O13_y_rotation (a + b).
Proof.
  unfold O13_y_rotation, mul, row_mul, vadd, vscale.
  cbn [row0 row1 row2 row3 t0 x1 x2 x3]. rewrite cos_plus, sin_plus.
  f_equal; f_equal; ring.
Qed.

Lemma z_rotation_add (a b : R) :
  mul (O13_z_rotation a) (O13_z_rotation b) = O13_z_rotation (a + b).
Proof.
  unfold O13_z_rotation, mul, row_mul, vadd, vscale.
  cbn [row0 row1 row2 row3 t0 x1 x2 x3]. rewrite cos_plus, sin_plus.
  f_equal; f_equal; ring.
Qed.

Lemma x_rotation_zero : O13_x_rotation 0 = identity.
Proof. unfold O13_x_rotation, identity. rewrite cos_0, sin_0. f_equal; f_equal; ring. Qed.

Lemma y_rotation_zero : O13_y_rotation 0 = identity.
Proof. unfold O13_y_rotation, identity. rewrite cos_0, sin_0. f_equal; f_equal; ring. Qed.

Lemma z_rotation_zero : O13_z_rotation 0 = identity.
Proof. unfold O13_z_rotation, identity. rewrite cos_0, sin_0. f_equal; f_equal; ring. Qed.

(** Every binding is additive in its amounts: applied twice, it gives the
    operator of the sums. *)
Lemma binding_additive (k : string) (binding : R -> R -> matrix) (r1 t1 r2 t2 : R) :
  _key_movement_bindings !! k = Some binding ->
  mul (binding r1 t1) (binding r2 t2) = binding (r1 + r2) (t1 + t2).
Proof.
  unfold _key_movement_bindings. intros H.
  apply elem_of_list_to_map_2 in H.
  repeat (apply elem_of_cons in H as [H | H]; [ injection H as _ -> | ]).
  all: try (apply translation_add; unfold is_unit; simpl; ring).
  all: try (rewrite Ropp_plus_distr).
  all: try apply x_rotation_add.
  all: try apply y_rotation_add.
  all: try apply z_rotation_add.
  inversion H.
Qed.

Lemma binding_zero (k : string) (binding : R -> R -> matrix) :
  _key_movement_bindings !! k = Some binding -> binding 0 0 = identity.
Proof.
  unfold _key_movement_bindings. intros H.
  apply elem_of_list_to_map_2 in H.
  repeat (apply elem_of_cons in H as [H | H]; [ injection H as _ -> | ]).
  all: try apply translation_zero.
  all: try rewrite Ropp_0.
  all: try apply x_rotation_zero.
  all: try apply y_rotation_zero.
  all: try apply z_rotation_zero.
  inversion H.
Qed.

Lemma translations_cancel (n m : vec3) (t : R) :
  is_unit n -> d1 m = - d1 n -> d2 m = - d2 n -> d3 m = - d3 n ->
  mul (unit_3_vector_and_distance_to_O13_hyperbolic_translation n t)
      (unit_3_vector_and_distance_to_O13_hyperbolic_translation m t)
  = identity.
Proof.
  destruct n as [n1 n2 n3], m as [m1 m2 m3]. unfold is_unit. cbn [d1 d2 d3].
  intros Hn -> -> ->.
  unfold unit_3_vector_and_distance_to_O13_hyperbolic_translation, mul, row_mul,
    vadd, vscale, identity.
  cbn [d1 d2 d3 row0 row1 row2 row3 t0 x1 x2 x3].
  generalize (cosh_sinh_one t). generalize (cosh t) (sinh t). intros c s Hcs.
  f_equal; f_equal; nsatz.
Qed.

Lemma rotation_amounts_cancel (r : R) : - r + r = 0 /\ r + - r = 0.
Proof. split; ring. Qed.

(** The two keys of a pair are bound to inverse operators. *)
Lemma opposite_bindings (k k' : string) (b b' : R -> R -> matrix) (r t : R) :
  (k, k') ∈ opposite_keys ->
  _key_movement_bindings !! k = Some b ->
  _key_movement_bindings !! k' = Some b' ->
  mul (b r t) (b' r t) = identity /\ mul (b' r t) (b r t) = identity.
Proof.
  unfold opposite_keys. intros Hp Hb Hb'.
  repeat (apply elem_of_cons in Hp as [Hp | Hp]; [ injection Hp as -> -> | ]).
  7: inversion Hp.
  - rewrite binding_a in Hb. rewrite binding_d in Hb'.
    injection Hb as <-. injection Hb' as <-.
    split; apply translations_cancel; unfold is_unit; cbn [d1 d2 d3]; ring.
  - rewrite binding_c in Hb. rewrite binding_e in Hb'.
    injection Hb as <-. injection Hb' as <-.
    split; apply translations_cancel; unfold is_unit; cbn [d1 d2 d3]; ring.
  - rewrite binding_w in Hb. rewrite binding_s in Hb'.
    injection Hb as <-. injection Hb' as <-.
    split; apply translations_cancel; unfold is_unit; cbn [d1 d2 d3]; ring.
  - rewrite binding_Left in Hb. rewrite binding_Right in Hb'.
    injection Hb as <-. injection Hb' as <-.
    rewrite !y_rotation_add.
    destruct (rotation_amounts_cancel r) as [-> ->]. split; apply y_rotation_zero.
  - rewrite binding_Up in Hb. rewrite binding_Down in Hb'.
    injection Hb as <-. injection Hb' as <-.
    rewrite !x_rotation_add.
    destruct (rotation_amounts_cancel r) as [-> ->]. split; apply x_rotation_zero.
  - rewrite binding_key_x in Hb. rewrite binding_key_z in Hb'.
    injection Hb as <-. injection Hb' as <-.
    rewrite !z_rotation_add.
    destruct (rotation_amounts_cancel r) as [-> ->]. split; apply z_rotation_zero.
Qed.

Lemma atanh_opp (d : R) : Rabs d < 1 -> atanh (- d) = - atanh d.
Proof.
  intros Hd. apply Rabs_def2 in Hd as [Hlt Hgt]. unfold atanh.
  replace ((1 + - d) / (1 - - d)) with (/ ((1 + d) / (1 - d))) by (field; lra).
  rewrite ln_Rinv.
  - field.
  - apply Rdiv_lt_0_compat; lra.
Qed.

Lemma last_position_cons (p q : Z * Z) (samples : list (Z * Z)) :
  last_position p (q :: samples) = last_position q samples.
Proof.
  unfold last_position. destruct samples as [| r samples]; [reflexivity|].
  destruct (proj2 (last_is_Some (r :: samples))) as [z Hz]; [discriminate|].
  now rewrite last_cons_cons, Hz.
Qed.

Lemma orbit_sample_horizontal (delta_x : Z) :
  orbit_sample_rotation delta_x 0 = O13_y_rotation (IZR delta_x * 0.01).
Proof.
  unfold orbit_sample_rotation. rewrite Rmult_0_l, x_rotation_zero.
  apply mul_identity_r.
Qed.

(** Drag samples along one row of pixels turn about the y axis by the sum of
    their deltas. *)
Lemma horizontal_rotation (samples : list (Z * Z)) (p : Z * Z) (a : R) :
  Forall (fun q => snd q = snd p) samples ->
  fold_left (fun acc d => mul acc (orbit_sample_rotation (fst d) (snd d)))
            (deltas_from p samples) (O13_y_rotation a)
  = O13_y_rotation (a + IZR (fst (last_position p samples) - fst p) * 0.01).
Proof.
  revert p a. induction samples as [| q samples IH]; intros p a Hrow.
  - cbn. rewrite Z.sub_diag. f_equal. ring.
  - apply Forall_cons in Hrow as [Hq Hrow].
    cbn [deltas_from fold_left fst snd]. rewrite Hq, Z.sub_diag.
    rewrite orbit_sample_horizontal, y_rotation_add.
    rewrite IH by (rewrite Hq; exact Hrow).
    rewrite last_position_cons. f_equal. rewrite !minus_IZR. ring.
Qed.

Section Composition.

Context {ViewState : Type}.
Variable update_view_state : ViewState -> option matrix -> ViewState.
Implicit Types st : Nav ViewState.

(** X15. For one held key the motion does not depend on how often the tick
    runs: the operator of a tick at [t1] times the operator of the next tick
    at [t2] is the operator that a single tick at [t2] would have built. *)
Theorem ticks_compose_for_one_key (k : string) (t1 t2 : R) st (vs : ViewState) :
  keys_inv st -> view_state st = Some vs ->
  current_keys_pressed st = [k] ->
  time_key_release_received st !! k = None ->
  let st1 := state_of (do_movement update_view_state t1 st) in
  let first := right_product st t1 [k] in
  let second := right_product st1 t2 [k] in
  view_state st1 = Some (update_view_state vs (Some first))
  /\ view_state (state_of (do_movement update_view_state t2 st1))
     = Some (update_view_state (update_view_state vs (Some first)) (Some second))
  /\ mul first second = right_product st t2 [k].
Proof.
  intros Hinv Hvs Hh Hr. cbn zeta.
  assert (Hs1 : still_held t1 st = [k]) by now apply still_held_singleton_kept.
  assert (Hne : still_held t1 st <> []) by (rewrite Hs1; discriminate).
  rewrite (do_movement_returns update_view_state t1 st vs Hinv Hvs).
  rewrite (still_held_bound t1 st Hinv Hne), Hs1. cbn [state_of].
  set (st1 := after _ _).
  destruct Hinv as [Hnd Hkeys].
  destruct (Hkeys k) as [[binding Hb] [t0 Ht0]]; [rewrite Hh; left|].
  assert (Hbk : is_movement_key k = true) by (apply is_movement_key_Some; eauto).
  assert (Hl1 : last_time st1 !! k = Some t1).
  { subst st1. nav_simpl. rewrite stamp_keys_lookup.
    rewrite decide_True; [reflexivity | split; [left | exact Hbk]]. }
  assert (Hinv1 : keys_inv st1).
  { split; subst st1; nav_simpl.
    - apply NoDup_singleton.
    - intros k' Hk'. apply list_elem_of_singleton in Hk' as ->.
      split; [eauto | rewrite Hl1; eauto]. }
  assert (Hv1 : view_state st1
                = Some (update_view_state vs (Some (right_product st t1 [k]))))
    by reflexivity.
  assert (Hs2 : still_held t2 st1 = [k]).
  { apply still_held_singleton_kept; [reflexivity | exact Hr]. }
  assert (Hne2 : still_held t2 st1 <> []) by (rewrite Hs2; discriminate).
  split; [exact Hv1|]. split.
  - rewrite (do_movement_returns update_view_state t2 st1 _ Hinv1 Hv1).
    rewrite (still_held_bound t2 st1 Hinv1 Hne2), Hs2. reflexivity.
  - unfold right_product, accumulate_right. cbn [fold_left].
    unfold key_operator. rewrite Hb, Ht0, Hl1.
    change (rotationVelocity st1) with (rotationVelocity st).
    change (translationVelocity st1) with (translationVelocity st).
    rewrite !mul_identity_l. rewrite (binding_additive k binding _ _ _ _ Hb).
    f_equal; ring.
Qed.

(** X16. Opposite motions cancel: when the two keys of a pair (a/d, c/e,
    w/s, Left/Right, Up/Down, x/z) are the keys held, in either order, and
    bear the same stamp, the tick hands the collaborator the identity. *)
Theorem opposite_keys_cancel (k1 k2 : string) (now : R) st (vs : ViewState) :
  keys_inv st -> view_state st = Some vs ->
  (k1, k2) ∈ opposite_keys \/ (k2, k1) ∈ opposite_keys ->
  current_keys_pressed st = [k1; k2] ->
  time_key_release_received st !! k1 = None ->
  time_key_release_received st !! k2 = None ->
  last_time st !! k1 = last_time st !! k2 ->
  view_state (state_of (do_movement update_view_state now st))
  = Some (update_view_state vs (Some identity)).
Proof.
  intros Hinv Hvs Hpair Hh Hr1 Hr2 Hstamp.
  assert (Hs : still_held now st = [k1; k2]).
  { rewrite still_held_all; [exact Hh|]. rewrite Hh. intros k Hk.
    apply elem_of_cons in Hk as [-> | Hk]; [exact Hr1|].
    apply list_elem_of_singleton in Hk as ->. exact Hr2. }
  assert (Hne : still_held now st <> []) by (rewrite Hs; discriminate).
  rewrite (do_movement_returns update_view_state now st vs Hinv Hvs).
  rewrite (still_held_bound now st Hinv Hne), Hs. cbn [state_of]. nav_simpl.
  do 3 f_equal.
  destruct Hinv as [_ Hkeys].
  destruct (Hkeys k1) as [[b1 Hb1] [t0 Ht0]]; [rewrite Hh; left|].
  destruct (Hkeys k2) as [[b2 Hb2] _]; [rewrite Hh; right; left|].
  unfold right_product, accumulate_right. cbn [fold_left].
  unfold key_operator. rewrite Hb1, Hb2, <- Hstamp, Ht0.
  rewrite mul_identity_l.
  destruct Hpair as [Hp | Hp].
  - exact (proj1 (opposite_bindings k1 k2 b1 b2 _ _ Hp Hb1 Hb2)).
  - exact (proj2 (opposite_bindings k2 k1 b2 b1 _ _ Hp Hb2 Hb1)).
Qed.

(** X17. The orbit gesture comes back to where it began: the inverse
    translation undoes the forward one, and a drag sample at the very pixel of
    the press updates the state captured at the press by the identity. *)
Theorem orbit_drag_to_the_pressed_pixel (x y : Z) (d : R) (width height : Z) st
        (vs : ViewState) :
  view_state st = Some vs ->
  width <> 0%Z -> tan (fov st / 360 * PI) <> 0 -> Rabs d < 1 ->
  let pressed := state_of (tkAltButton1 x y d width height st) in
  (forall forward inverse,
      orbit_translation pressed = Some forward ->
      orbit_inv_translation pressed = Some inverse ->
      mul forward inverse = identity)
  /\ view_state (state_of (tkAltButtonMotion1 update_view_state x y pressed))
     = Some (update_view_state vs (Some identity)).
Proof.
  intros Hvs Hw Ht Hd. cbn zeta.
  rewrite (tkAltButton1_returns x y d width height st Hw Ht Hd). cbn zeta.
  cbn [state_of].
  set (dir := pick_direction x y width height (tan (fov st / 360 * PI))).
  assert (Hcancel :
            mul (unit_3_vector_and_distance_to_O13_hyperbolic_translation dir (atanh d))
                (unit_3_vector_and_distance_to_O13_hyperbolic_translation dir (atanh (- d)))
            = identity).
  { rewrite translation_add by now apply pick_direction_unit.
    rewrite (atanh_opp d Hd), Rplus_opp_r. apply translation_zero. }
  split.
  - intros forward inverse Hf Hi. nav_simpl.
    injection Hf as <-. injection Hi as <-. exact Hcancel.
  - match goal with
    | |- context [tkAltButtonMotion1 _ _ _ ?s] =>
        rewrite (tkAltButtonMotion1_returns update_view_state x y s (x, y) identity
                   (unit_3_vector_and_distance_to_O13_hyperbolic_translation dir (atanh d))
                   (unit_3_vector_and_distance_to_O13_hyperbolic_translation dir (atanh (- d)))
                   vs); [| reflexivity | reflexivity | reflexivity | reflexivity | exact Hvs]
    end.
    cbn zeta. cbn [state_of fst snd]. nav_simpl.
    rewrite !Z.sub_diag, orbit_sample_horizontal, Rmult_0_l, y_rotation_zero.
    rewrite mul_identity_l, mul_identity_r, Hcancel. reflexivity.
Qed.

(** X18. Orbit drag samples along the row of the press depend on the
    horizontal displacement only: whatever the samples in between, the
    accumulated rotation is the rotation about the y axis by 0.01 times the
    displacement of the last sample from the press. *)
Theorem horizontal_orbit_drags (x y : Z) (d : R) (width height : Z) st
        (vs : ViewState) (samples : list (Z * Z)) :
  view_state st = Some vs ->
  width <> 0%Z -> tan (fov st / 360 * PI) <> 0 -> Rabs d < 1 ->
  Forall (fun q => snd q = y) samples ->
  orbit_rotation
    (run update_view_state (orbit_drags samples)
         (state_of (tkAltButton1 x y d width height st)))
  = Some (O13_y_rotation (IZR (fst (last_position (x, y) samples) - x) * 0.01)).
Proof.
  intros Hvs Hw Ht Hd Hrow.
  rewrite (tkAltButton1_returns x y d width height st Hw Ht Hd). cbn zeta.
  cbn [state_of].
  match goal with
  | |- context [run _ _ ?s] =>
      destruct (orbit_drags_run update_view_state samples s (x, y) identity
                  (unit_3_vector_and_distance_to_O13_hyperbolic_translation
                     (pick_direction x y width height (tan (fov st / 360 * PI)))
                     (atanh d))
                  (unit_3_vector_and_distance_to_O13_hyperbolic_translation
                     (pick_direction x y width height (tan (fov st / 360 * PI)))
                     (atanh (- d)))
                  vs) as (Hr & _); try reflexivity; [exact Hvs|]
  end.
  rewrite Hr. f_equal. rewrite <- y_rotation_zero.
  rewrite (horizontal_rotation samples (x, y) 0) by exact Hrow.
  cbn [fst]. f_equal. ring.
Qed.

End Composition.

(* ===================================================================== *)
(** * The further properties on a widget just constructed *)
(* ===================================================================== *)

Lemma fresh_a_held : current_keys_pressed (state_of (tkKeyPress "a" 0 fresh)) = ["a"%string].
Proof. now rewrite fresh_press_a. Qed.

Lemma fresh_a_not_released :
  time_key_release_received (state_of (tkKeyPress "a" 0 fresh)) !! "a"%string = None.
Proof. rewrite fresh_press_a. cbn. apply lookup_delete_eq. Qed.

(** The widget after "a" and "d" were pressed at the same time. *)
Lemma fresh_press_a_d_together :
  run logging_update [KeyPress "a" 0; KeyPress "d" 0] fresh
  = set_after_queue [1; 1]%Z
      (set_current_keys_pressed ["a"; "d"]%string
         (set_last_time (<["d"%string := 0]> (<["a"%string := 0]> ∅))
            (set_time_key_release_received ∅ fresh))).
Proof.
  rewrite run_cons. cbn [handle]. rewrite fresh_press_a. cbn [state_of].
  rewrite run_cons, run_nil. cbn [handle].
  rewrite key_press_new.
  - cbn [state_of]. nav_simpl. rewrite !delete_empty. reflexivity.
  - reflexivity.
  - nav_simpl. apply not_elem_of_cons. split; [discriminate | apply not_elem_of_nil].
Qed.

(** X2, at a press on the background of the fresh widget. *)
Lemma orbit_drag_after_failed_press_witness :
  orbit_rotation fresh = None
  /\ ((800 = 0)%Z \/ tan (fov fresh / 360 * PI) = 0 \/ 1 <= Rabs 1)
  /\ tkAltButtonMotion1 logging_update 101 100
       (state_of (tkAltButton1 100 100 1 800 600 fresh))
     = Raised AttributeError (state_of (tkAltButton1 100 100 1 800 600 fresh)).
Proof.
  split; [reflexivity|]. split; [right; right; exact unit_depth|].
  exact (proj1 (orbit_drag_after_failed_press logging_update 100 100 101 100 1 800 600
                  fresh eq_refl (or_intror (or_intror unit_depth)))).
Defined.

(** X1, at presses on the fresh widget: on a surface point, on the
    background, and on a viewport without width. *)
Lemma orbit_press_outcome_witness :
  has_returned (tkAltButton1 100 100 0.5 800 600 fresh) = true
  /\ tkAltButton1 100 100 1 800 600 fresh
     = Raised ValueError
         (set_view_state_when_pressed (view_state fresh)
            (set_last_mouse_pos (Some (100, 100)%Z) fresh))
  /\ tkAltButton1 100 100 0.5 0 600 fresh
     = Raised ZeroDivisionError
         (set_view_state_when_pressed (view_state fresh)
            (set_last_mouse_pos (Some (100, 100)%Z) fresh)).
Proof.
  split; [| split].
  - apply (proj1 (proj2 (orbit_press_outcome 100 100 0.5 800 600 fresh)));
      [lia | exact fresh_tangent | exact half_depth].
  - apply (proj1 (proj2 (orbit_press_outcome 100 100 1 800 600 fresh)));
      [lia | exact fresh_tangent | exact unit_depth].
  - apply (proj1 (orbit_press_outcome 100 100 0.5 0 600 fresh)). reflexivity.
Defined.

Lemma fresh_reachable : reachable [] logging_update fresh.
Proof. apply reachable_init. Qed.

(** X3, at the press on the background, the first event of the widget, and
    at the drag sample that follows it. *)
Lemma reachable_exceptions_witness :
  reachable [] logging_update fresh
  /\ handle logging_update (AltButton1 100 100 1 800 600) fresh
     = Raised ValueError
         (set_view_state_when_pressed (view_state fresh)
            (set_last_mouse_pos (Some (100, 100)%Z) fresh))
  /\ (exists x y depth width height,
         AltButton1 100 100 1 800 600 = AltButton1 x y depth width height)
  /\ reachable [] logging_update
       (state_of (handle logging_update (AltButton1 100 100 1 800 600) fresh))
  /\ handle logging_update (AltB1Motion 101 100)
       (state_of (handle logging_update (AltButton1 100 100 1 800 600) fresh))
     = Raised AttributeError
         (state_of (handle logging_update (AltButton1 100 100 1 800 600) fresh))
  /\ orbit_rotation
       (state_of (handle logging_update (AltButton1 100 100 1 800 600) fresh)) = None.
Proof.
  assert (Hpressed : reachable [] logging_update
            (state_of (handle logging_update (AltButton1 100 100 1 800 600) fresh)))
    by (apply reachable_handle; exact fresh_reachable).
  assert (Hdrag : handle logging_update (AltB1Motion 101 100)
            (state_of (handle logging_update (AltButton1 100 100 1 800 600) fresh))
          = Raised AttributeError
              (state_of (handle logging_update (AltButton1 100 100 1 800 600) fresh))).
  { cbn [handle]. rewrite fresh_background_press. reflexivity. }
  split; [exact fresh_reachable|]. split; [exact fresh_background_press|].
  split.
  { exact (proj2 (proj2 (proj2
             (reachable_exceptions [] logging_update fresh (AltButton1 100 100 1 800 600)
                ValueError _ fresh_reachable fresh_background_press)))
             (or_intror eq_refl)). }
  split; [exact Hpressed|]. split; [exact Hdrag|].
  exact (proj1 (proj1 (proj2 (proj2
           (reachable_exceptions [] logging_update _ (AltB1Motion 101 100)
              AttributeError _ Hpressed Hdrag))) eq_refl)).
Defined.

(** X4, at a press at (100, 100) and in-place drags to (101, 100) and
    (101, 102). *)
Lemma ctrl_drags_compose_witness :
  mouse_pos_when_pressed (state_of (tkButton1 100 100 fresh)) = Some (100, 100)%Z
  /\ view_state (state_of (tkButton1 100 100 fresh)) = Some []
  /\ view_state (run logging_update (ctrl_drags [(101, 100); (101, 102)]%Z)
                     (state_of (tkButton1 100 100 fresh)))
     = Some (rotated_view logging_update []
               (deltas_from (100, 100)%Z [(101, 100); (101, 102)]%Z)).
Proof.
  split; [reflexivity|]. split; [reflexivity|].
  exact (proj1 (ctrl_drags_compose logging_update [(101, 100); (101, 102)]%Z
                  (state_of (tkButton1 100 100 fresh)) (100, 100)%Z []
                  eq_refl eq_refl)).
Defined.

(** X5, at a press at (100, 100), an in-place drag to (101, 100) and a free
    drag to (104, 104). *)
Lemma free_drag_after_ctrl_drag_witness :
  mouse_pos_when_pressed (state_of (tkButton1 100 100 fresh)) = Some (100, 100)%Z
  /\ view_state (state_of (tkButton1 100 100 fresh)) = Some []
  /\ view_state_when_pressed (state_of (tkButton1 100 100 fresh)) = Some []
  /\ (104, 104)%Z <> (101, 100)%Z
  /\ view_state (run logging_update [CtrlB1Motion 101 100; B1Motion 104 104]
                     (state_of (tkButton1 100 100 fresh)))
     = Some [free_drag_operator (104 - 101) (104 - 100)].
Proof.
  split; [reflexivity|]. split; [reflexivity|]. split; [reflexivity|].
  split; [discriminate|].
  exact (proj1 (free_drag_after_ctrl_drag logging_update 101 100 104 104
                  (state_of (tkButton1 100 100 fresh)) (100, 100)%Z [] []
                  eq_refl eq_refl eq_refl) ltac:(discriminate)).
Defined.

Lemma a_is_bound : is_Some (_key_movement_bindings !! "a"%string).
Proof. rewrite binding_a. eauto. Qed.

Lemma fresh_a_holds_a : "a"%string ∈ current_keys_pressed (state_of (tkKeyPress "a" 0 fresh)).
Proof. rewrite fresh_a_held. left. Qed.

(** X7, at a release and a press of "a" on the widget that holds "a". *)
Lemma key_repeat_is_absorbed_witness :
  is_Some (_key_movement_bindings !! "a"%string)
  /\ "a"%string ∈ current_keys_pressed (state_of (tkKeyPress "a" 0 fresh))
  /\ after_queue (run logging_update [KeyRelease "a" 1; KeyPress "a" 1.001]
                      (state_of (tkKeyPress "a" 0 fresh)))
     = after_queue (state_of (tkKeyPress "a" 0 fresh)).
Proof.
  split; [exact a_is_bound|]. split; [exact fresh_a_holds_a|].
  exact (proj1 (proj2 (proj2 (key_repeat_is_absorbed logging_update "a" 1 1.001
                                (state_of (tkKeyPress "a" 0 fresh))
                                a_is_bound fresh_a_holds_a)))).
Defined.

(** X8, at a release of "a" at time 1 and a tick at 1.004. *)
Lemma tick_within_debounce_window_witness :
  keys_inv (state_of (tkKeyPress "a" 0 fresh))
  /\ view_state (state_of (tkKeyPress "a" 0 fresh)) = Some []
  /\ "a"%string ∈ current_keys_pressed (state_of (tkKeyPress "a" 0 fresh))
  /\ 1.004 - 1 <= 0.005
  /\ has_returned
       (do_movement logging_update 1.004
          (state_of (tkKeyRelease "a" 1 (state_of (tkKeyPress "a" 0 fresh))))) = true.
Proof.
  split; [exact fresh_a_keys_inv|]. split; [exact fresh_a_view|].
  split; [exact fresh_a_holds_a|]. split; [lra|].
  exact (proj1 (tick_within_debounce_window logging_update "a" 1 1.004
                  (state_of (tkKeyPress "a" 0 fresh)) []
                  fresh_a_keys_inv fresh_a_view fresh_a_holds_a ltac:(lra))).
Defined.

(** X9, at two timers on the fresh widget. *)
Lemma idle_ticks_drain_witness :
  current_keys_pressed fresh = []
  /\ view_state (run logging_update (map Timer [1; 2]) fresh) = view_state fresh.
Proof.
  split; [reflexivity|].
  exact (proj1 (proj2 (idle_ticks_drain logging_update [1; 2] fresh eq_refl))).
Defined.

Lemma fresh_a_pending : after_queue (state_of (tkKeyPress "a" 0 fresh)) = [1%Z].
Proof. now rewrite fresh_press_a. Qed.

Lemma fresh_a_tick_pending : tick_pending (state_of (tkKeyPress "a" 0 fresh)).
Proof. intros _. rewrite fresh_a_pending. discriminate. Qed.

Lemma fresh_a_still_held_later :
  still_held 5000 (state_of (tkKeyPress "a" 0 fresh)) <> [].
Proof.
  rewrite (still_held_singleton_kept 5000 _ "a").
  - discriminate.
  - exact fresh_a_held.
  - exact fresh_a_not_released.
Qed.

(** X11, on the fresh widget: "a" is pressed at 0; a tick at 1 that returns
    leaves a tick pending; a tick at 5000, when the distance to translate by
    is 2000, is cut short and leaves "a" held with no tick pending. *)
Lemma held_key_has_pending_tick_witness :
  let held := state_of (tkKeyPress "a" 0 fresh) in
  tick_pending fresh
  /\ keys_inv held /\ tick_pending held
  /\ has_returned (handle logging_update (Timer 1) held) = true
  /\ tick_pending (state_of (handle logging_update (Timer 1) held))
  /\ after_queue held = [1%Z] /\ still_held 5000 held <> []
  /\ ~ bounded_distance ((5000 - 0) * translationVelocity held)
  /\ current_keys_pressed (fire_timer_cut_short 5000 0 held) = still_held 5000 held
  /\ after_queue (fire_timer_cut_short 5000 0 held) = []
  /\ ~ tick_pending (fire_timer_cut_short 5000 0 held).
Proof.
  cbn zeta.
  pose proof (held_key_has_pending_tick [] logging_update) as (Hinit & Hstep & Hcut).
  assert (Hret : has_returned (handle logging_update (Timer 1)
                                 (state_of (tkKeyPress "a" 0 fresh))) = true).
  { cbn [handle]. unfold fire_timer. rewrite fresh_a_pending.
    rewrite (do_movement_returns logging_update 1 _ []);
      [destruct (existsb _ _); reflexivity | | ].
    - apply (keys_inv_frame (state_of (tkKeyPress "a" 0 fresh)));
        [reflexivity | reflexivity | exact fresh_a_keys_inv].
    - nav_simpl. exact fresh_a_view. }
  split; [exact (Hinit 0%Z 90)|].
  split; [exact fresh_a_keys_inv|]. split; [exact fresh_a_tick_pending|].
  split; [exact Hret|].
  split; [exact (Hstep (Timer 1) _ fresh_a_keys_inv fresh_a_tick_pending (or_introl Hret))|].
  split; [exact fresh_a_pending|]. split; [exact fresh_a_still_held_later|].
  split.
  { rewrite fresh_press_a. cbn. unfold bounded_distance.
    rewrite Rabs_pos_eq; lra. }
  exact (Hcut 5000 0%nat _ 1%Z fresh_a_keys_inv fresh_a_pending fresh_a_still_held_later).
Defined.

(** X15, at ticks at 1 and 2 of the widget that holds "a". *)
Lemma ticks_compose_for_one_key_witness :
  keys_inv (state_of (tkKeyPress "a" 0 fresh))
  /\ view_state (state_of (tkKeyPress "a" 0 fresh)) = Some []
  /\ current_keys_pressed (state_of (tkKeyPress "a" 0 fresh)) = ["a"%string]
  /\ time_key_release_received (state_of (tkKeyPress "a" 0 fresh)) !! "a"%string = None
  /\ mul (right_product (state_of (tkKeyPress "a" 0 fresh)) 1 ["a"%string])
         (right_product
            (state_of (do_movement logging_update 1 (state_of (tkKeyPress "a" 0 fresh))))
            2 ["a"%string])
     = right_product (state_of (tkKeyPress "a" 0 fresh)) 2 ["a"%string].
Proof.
  split; [exact fresh_a_keys_inv|]. split; [exact fresh_a_view|].
  split; [exact fresh_a_held|]. split; [exact fresh_a_not_released|].
  exact (proj2 (proj2 (ticks_compose_for_one_key logging_update "a" 1 2
                         (state_of (tkKeyPress "a" 0 fresh)) []
                         fresh_a_keys_inv fresh_a_view fresh_a_held
                         fresh_a_not_released))).
Defined.

Lemma a_d_opposite : ("a", "d")%string ∈ opposite_keys.
Proof. left. Qed.

Lemma fresh_a_d_keys_inv :
  keys_inv (run logging_update [KeyPress "a" 0; KeyPress "d" 0] fresh).
Proof. apply (reachable_inv [] logging_update [KeyPress "a" 0; KeyPress "d" 0] 0 90). Qed.

(** X16, at a tick of the widget that holds "a" and "d" since time 0. *)
Lemma opposite_keys_cancel_witness :
  keys_inv (run logging_update [KeyPress "a" 0; KeyPress "d" 0] fresh)
  /\ (("a", "d")%string ∈ opposite_keys \/ ("d", "a")%string ∈ opposite_keys)
  /\ view_state
       (state_of (do_movement logging_update 1
                    (run logging_update [KeyPress "a" 0; KeyPress "d" 0] fresh)))
     = Some [identity].
Proof.
  split; [exact fresh_a_d_keys_inv|]. split; [left; exact a_d_opposite|].
  refine (opposite_keys_cancel logging_update "a" "d" 1
            (run logging_update [KeyPress "a" 0; KeyPress "d" 0] fresh) []
            fresh_a_d_keys_inv _ (or_introl a_d_opposite) _ _ _ _);
    rewrite fresh_press_a_d_together; reflexivity.
Defined.

(** X17, at the orbit press on the fresh widget. *)
Lemma orbit_drag_to_the_pressed_pixel_witness :
  view_state fresh = Some [] /\ (800 <> 0)%Z
  /\ tan (fov fresh / 360 * PI) <> 0 /\ Rabs 0.5 < 1
  /\ view_state (state_of (tkAltButtonMotion1 logging_update 100 100
                             (state_of (tkAltButton1 100 100 0.5 800 600 fresh))))
     = Some [identity].
Proof.
  split; [reflexivity|]. split; [lia|]. split; [exact fresh_tangent|].
  split; [exact half_depth|].
  exact (proj2 (orbit_drag_to_the_pressed_pixel logging_update 100 100 0.5 800 600
                  fresh [] eq_refl ltac:(lia) fresh_tangent half_depth)).
Defined.

Lemma row_samples : Forall (fun q : Z * Z => snd q = 100%Z) [(101, 100); (105, 100)]%Z.
Proof. repeat constructor. Qed.

(** X18, at the orbit press on the fresh widget and drags to (101, 100) and
    (105, 100). *)
Lemma horizontal_orbit_drags_witness :
  view_state fresh = Some [] /\ (800 <> 0)%Z
  /\ tan (fov fresh / 360 * PI) <> 0 /\ Rabs 0.5 < 1
  /\ Forall (fun q : Z * Z => snd q = 100%Z) [(101, 100); (105, 100)]%Z
  /\ orbit_rotation
       (run logging_update (orbit_drags [(101, 100); (105, 100)]%Z)
            (state_of (tkAltButton1 100 100 0.5 800 600 fresh)))
     = Some (O13_y_rotation
               (IZR (fst (last_position (100, 100)%Z [(101, 100); (105, 100)]%Z) - 100)
                * 0.01)).
Proof.
  split; [reflexivity|]. split; [lia|]. split; [exact fresh_tangent|].
  split; [exact half_depth|]. split; [exact row_samples|].
  exact (horizontal_orbit_drags logging_update 100 100 0.5 800 600 fresh []
           [(101, 100); (105, 100)]%Z eq_refl ltac:(lia) fresh_tangent half_depth
           row_samples).
Defined.
